(** * Felix agent: message dispatch and endpoint resynchronisation

    A shallow embedding of [calico/felix/felix.py] (class [FelixAgent]) and
    the properties of its resynchronisation state machine.

    The Python object is modelled by the record [FelixAgent]; the parts of the
    host it talks to (sockets, packet filter, wall clock, uuid source) by the
    record [Host].  Methods are computations in a state-and-exception monad
    over both.  Calls that leave the agent are also recorded, in order, in
    [effects], so that "f is called" can be stated.

    Conventions:
    - [log.warning] and [log.error] are recorded as effects; [log.debug] and
      [log.info] are not.
    - An endpoint object is referred to by its key in the registry; mutating
      the object is an [alter] (or [fmap]) on the registry.
    - [self.endpoints.values()] is visited in the order of [map_to_list], a
      set in the order of [elements]; no property depends on the order.
      Where the order shows in the state, in [resync_acls], it is a
      parameter of the method.
    - [time.time()] reads the field [clock] of the host, which each poll
      sets; within one iteration of the loop the clock stands still.
    - Floats are rationals and their arithmetic is exact.  The wall-clock
      times of the examples are whole numbers of seconds, on which the float
      operations of the code are exact too; the general theorem about the
      periodic check is stated for times at which rounding cannot turn the
      comparison.
    - The classes [Endpoint], [Socket], [Message], [Config] and the module
      [futils] are imported by [felix.py] from other files; what is used of
      them is modelled from their description and marked as such. *)

From Stdlib Require Import ZArith QArith.
From stdpp Require Import base gmap sets list strings pretty.

Open Scope Z_scope.
Set Warnings "-register-all,-clear-no-such-hyp".

(** ** Message values *)

(** Python values that travel in [message.fields].  Python integers are
    unbounded ([Z]); floats are only used for timestamps and are modelled by
    rationals. *)
Inductive value :=
| VNone
| VBool (b : bool)
| VInt (n : Z)
| VFloat (q : Q)
| VStr (s : string)
| VList (l : list value)
| VDict (d : list (string * value)).

(** Python truth value of an object ([if x], [not x], [x and y]). *)
Definition truthy (v : value) : bool :=
  match v with
  | VNone => false
  | VBool b => b
  | VInt n => negb (n =? 0)
  | VFloat q => negb (Qeq_bool q 0)
  | VStr s => negb (bool_decide (s = ""))
  | VList l => negb (bool_decide (length l = 0%nat))
  | VDict d => negb (bool_decide (length d = 0%nat))
  end.

(** [v == s] for a string [s]. *)
Definition eq_str (v : value) (s : string) : bool :=
  match v with
  | VStr t => bool_decide (t = s)
  | _ => false
  end.

(** [v == n] for an integer [n]; Python compares numbers across types. *)
Definition eq_int (v : value) (n : Z) : bool :=
  match v with
  | VBool b => (if b then 1 else 0) =? n
  | VInt m => m =? n
  | VFloat q => Qeq_bool q (inject_Z n)
  | _ => false
  end.

Definition is_none (v : value) : bool :=
  match v with VNone => true | _ => false end.

(** [v == o] where [o] is [None] or a string. *)
Definition eq_opt_str (v : value) (o : option string) : bool :=
  match o with
  | None => is_none v
  | Some s => eq_str v s
  end.

(** [v == o] where [o] is [None] or an integer. *)
Definition eq_opt_int (v : value) (o : option Z) : bool :=
  match o with
  | None => is_none v
  | Some n => eq_int v n
  end.

Definition is_ascii (s : string) : bool :=
  forallb (λ c, (Ascii.nat_of_ascii c <? 128)%nat) (String.list_ascii_of_string s).

Definition chars (s : string) : list value :=
  (λ c, VStr (String c EmptyString)) <$> String.list_ascii_of_string s.

(** ** Exceptions and the monad *)

Inductive exn :=
| KeyError
| TypeError
| AttributeError
| UnicodeError
| AssertionError.

Inductive result (A : Type) :=
| Ok (a : A)
| Raise (e : exn).
Arguments Ok {A} a.
Arguments Raise {A} e.

(** ** Messages, sockets, endpoints *)

(** The message type tags of [Message] that the dispatch table knows;
    [TYPE_OTHER] stands for any tag that is not a key of [self.handlers]. *)
Inductive MessageType :=
| TYPE_HEARTBEAT
| TYPE_EP_CR
| TYPE_EP_UP
| TYPE_EP_RM
| TYPE_RESYNC
| TYPE_GET_ACL
| TYPE_ACL_UPD
| TYPE_OTHER (tag : string).

(** [Message(type, fields)]; [endpoint_id] is the attribute that ACLUPDATE
    publications carry (the subscription topic). *)
Record Message := mkMessage {
  type : MessageType;
  fields : gmap string value;
  endpoint_id : option string;
}.

Definition new_Message (t : MessageType) (f : gmap string value) : Message :=
  {| type := t; fields := f; endpoint_id := None |}.

Inductive SocketType :=
| TYPE_EP_REQ
| TYPE_EP_REP
| TYPE_ACL_REQ
| TYPE_ACL_SUB.

Global Instance SocketType_eq_dec : EqDecision SocketType.
Proof. solve_decision. Defined.

(** Modelled from the spec: the constants [Socket.EP_TYPES],
    [Socket.ACL_TYPES] and [Socket.REQUEST_TYPES] of the socket class, which
    is not part of this file.  EP_REQ and EP_REP talk to the plugin, ACL_REQ
    and ACL_SUB to the ACL manager; the two REQ roles are the request types. *)
Definition EP_TYPES : list SocketType := [TYPE_EP_REQ; TYPE_EP_REP].
Definition ACL_TYPES : list SocketType := [TYPE_ACL_REQ; TYPE_ACL_SUB].
Definition REQUEST_TYPES : list SocketType := [TYPE_EP_REQ; TYPE_ACL_REQ].

(** Modelled from the spec: the socket object; of its state the agent reads
    [request_outstanding] ([timed_out] is an input of each loop iteration). *)
Record Socket := mkSocket {
  request_outstanding : bool;
}.

(** [self.sockets], the dictionary with one socket per type. *)
Record Sockets := mkSockets {
  ep_req : Socket;
  ep_rep : Socket;
  acl_req : Socket;
  acl_sub : Socket;
}.

Definition sockets_get (t : SocketType) (s : Sockets) : Socket :=
  match t with
  | TYPE_EP_REQ => ep_req s
  | TYPE_EP_REP => ep_rep s
  | TYPE_ACL_REQ => acl_req s
  | TYPE_ACL_SUB => acl_sub s
  end.

Definition sockets_set (t : SocketType) (x : Socket) (s : Sockets) : Sockets :=
  match t with
  | TYPE_EP_REQ => mkSockets x (ep_rep s) (acl_req s) (acl_sub s)
  | TYPE_EP_REP => mkSockets (ep_req s) x (acl_req s) (acl_sub s)
  | TYPE_ACL_REQ => mkSockets (ep_req s) (ep_rep s) x (acl_sub s)
  | TYPE_ACL_SUB => mkSockets (ep_req s) (ep_rep s) (acl_req s) x
  end.

(** Modelled from the spec: the endpoint object (class [Endpoint] is not part
    of this file).  [ep_id] is the identifier it was created with, [suffix]
    the name of its rule chains.  [addresses] is the set built from
    [Address(addr)] for each item of [addrs], kept as the list of the items. *)
Record Endpoint := mkEndpoint {
  ep_id : string;
  suffix : string;
  mac : value;
  addresses : list value;
  pending_resync : bool;
  need_acls : bool;
}.

Definition set_pending_resync (b : bool) (ep : Endpoint) : Endpoint :=
  mkEndpoint (ep_id ep) (suffix ep) (mac ep) (addresses ep) b (need_acls ep).

Definition set_need_acls (b : bool) (ep : Endpoint) : Endpoint :=
  mkEndpoint (ep_id ep) (suffix ep) (mac ep) (addresses ep) (pending_resync ep) b.

Definition set_addresses (a : list value) (ep : Endpoint) : Endpoint :=
  mkEndpoint (ep_id ep) (suffix ep) (mac ep) a (pending_resync ep) (need_acls ep).

Definition set_mac (m : value) (ep : Endpoint) : Endpoint :=
  mkEndpoint (ep_id ep) (suffix ep) m (addresses ep) (pending_resync ep) (need_acls ep).

(** ** Calls that leave the agent *)

Inductive LogLevel := WARNING | ERROR.

Inductive Effect :=
| Send (t : SocketType) (m : Message)
| SUBSCRIBE (topic : string)
| UNSUBSCRIBE (topic : string)
| Ep_remove (id : string)
| Ep_program_endpoint (id : string)
| Ep_update_acls (id : string) (acls : value)
| Futils_list_eps_with_rules
| Futils_del_rules (id : string)
| Futils_set_global_rules
| Sock_receive (t : SocketType)
| Sock_close (t : SocketType)
| Sock_communicate (t : SocketType)
| Log (l : LogLevel).

(** ** State *)

Record FelixAgent := mkFelixAgent {
  hostname : string;
  sockets : Sockets;
  endpoints : gmap string Endpoint;
  resync_id : option string;
  resync_recd : option Z;
  resync_expected : value;
  resync_time : option Q;
  endpoint_queue : list Message;
  acl_queue : list Message;
}.

(** What the agent acts on: the wall clock read by [time.time()] (seconds),
    the number of uuids drawn so far, the topics the SUB socket is subscribed
    to, the endpoint suffixes that have rule chains in the packet filter, and
    the calls made so far (oldest first). *)
Record Host := mkHost {
  clock : Q;
  uuid_draws : nat;
  subscribed : gset string;
  rule_chains : gset string;
  effects : list Effect;
}.

Record State := mkState {
  agent : FelixAgent;
  host : Host;
}.

Definition set_sockets (x : Sockets) (a : FelixAgent) : FelixAgent :=
  mkFelixAgent (hostname a) x (endpoints a) (resync_id a) (resync_recd a)
    (resync_expected a) (resync_time a) (endpoint_queue a) (acl_queue a).

Definition set_endpoints (x : gmap string Endpoint) (a : FelixAgent) : FelixAgent :=
  mkFelixAgent (hostname a) (sockets a) x (resync_id a) (resync_recd a)
    (resync_expected a) (resync_time a) (endpoint_queue a) (acl_queue a).

Definition set_resync_id (x : option string) (a : FelixAgent) : FelixAgent :=
  mkFelixAgent (hostname a) (sockets a) (endpoints a) x (resync_recd a)
    (resync_expected a) (resync_time a) (endpoint_queue a) (acl_queue a).

Definition set_resync_recd (x : option Z) (a : FelixAgent) : FelixAgent :=
  mkFelixAgent (hostname a) (sockets a) (endpoints a) (resync_id a) x
    (resync_expected a) (resync_time a) (endpoint_queue a) (acl_queue a).

Definition set_resync_expected (x : value) (a : FelixAgent) : FelixAgent :=
  mkFelixAgent (hostname a) (sockets a) (endpoints a) (resync_id a)
    (resync_recd a) x (resync_time a) (endpoint_queue a) (acl_queue a).

Definition set_resync_time (x : option Q) (a : FelixAgent) : FelixAgent :=
  mkFelixAgent (hostname a) (sockets a) (endpoints a) (resync_id a)
    (resync_recd a) (resync_expected a) x (endpoint_queue a) (acl_queue a).

Definition set_endpoint_queue (x : list Message) (a : FelixAgent) : FelixAgent :=
  mkFelixAgent (hostname a) (sockets a) (endpoints a) (resync_id a)
    (resync_recd a) (resync_expected a) (resync_time a) x (acl_queue a).

Definition set_acl_queue (x : list Message) (a : FelixAgent) : FelixAgent :=
  mkFelixAgent (hostname a) (sockets a) (endpoints a) (resync_id a)
    (resync_recd a) (resync_expected a) (resync_time a) (endpoint_queue a) x.

Definition set_uuid_draws (x : nat) (h : Host) : Host :=
  mkHost (clock h) x (subscribed h) (rule_chains h) (effects h).

Definition set_subscribed (x : gset string) (h : Host) : Host :=
  mkHost (clock h) (uuid_draws h) x (rule_chains h) (effects h).

Definition set_rule_chains (x : gset string) (h : Host) : Host :=
  mkHost (clock h) (uuid_draws h) (subscribed h) x (effects h).

Definition emit (e : Effect) (h : Host) : Host :=
  mkHost (clock h) (uuid_draws h) (subscribed h) (rule_chains h) (effects h ++ [e]).

(** Computations that read and change the state and may raise. *)
Definition M (A : Type) : Type := State → result (A * State).

Definition ret {A} (a : A) : M A := λ st, Ok (a, st).

Definition bind {A B} (m : M A) (k : A → M B) : M B :=
  λ st, match m st with
        | Ok (a, st') => k a st'
        | Raise e => Raise e
        end.

Definition raise {A} (e : exn) : M A := λ _, Raise e.

Definition gets {A} (f : FelixAgent → A) : M A := λ st, Ok (f (agent st), st).

Definition hgets {A} (f : Host → A) : M A := λ st, Ok (f (host st), st).

Definition modify (f : FelixAgent → FelixAgent) : M unit :=
  λ st, Ok (tt, mkState (f (agent st)) (host st)).

Definition hmodify (f : Host → Host) : M unit :=
  λ st, Ok (tt, mkState (agent st) (f (host st))).

Declare Scope felix_scope.
Delimit Scope felix_scope with felix.
Notation "x <- m ;; k" := (bind m (λ x, k))
  (at level 100, m at next level, right associativity) : felix_scope.
Notation "m ;; k" := (bind m (λ _, k))
  (at level 100, right associativity) : felix_scope.
Open Scope felix_scope.

(** [for x in l: body(x)] *)
Fixpoint for_each {A} (l : list A) (body : A → M unit) : M unit :=
  match l with
  | [] => ret tt
  | x :: l' => body x ;; for_each l' body
  end.

Definition when (b : bool) (m : M unit) : M unit :=
  if b then m else ret tt.

(** [d[key]] on a message's fields. *)
Definition field (f : gmap string value) (key : string) : M value :=
  match f !! key with
  | Some v => ret v
  | None => raise KeyError
  end.

(** [v.encode('ascii')] *)
Definition encode_ascii (v : value) : M string :=
  match v with
  | VStr s => if is_ascii s then ret s else raise UnicodeError
  | _ => raise AttributeError
  end.

(** [for x in v]: the items a [for] loop over [v] visits; numbers, booleans
    and [None] are not iterable. *)
Definition items (v : value) : option (list value) :=
  match v with
  | VStr s => Some (chars s)
  | VList l => Some l
  | VDict d => Some ((λ kv, VStr kv.1) <$> d)
  | _ => None
  end.

Definition iterate (v : value) : M (list value) :=
  match items v with
  | Some l => ret l
  | None => raise TypeError
  end.

(** ** The host: clock, uuids, sockets, packet filter *)

(** [time.time()] *)
Definition time_time : M Q := hgets clock.

(** [str(uuid.uuid4())]: a non-empty token, different at every draw. *)
Definition uuid4_str (n : nat) : string := "uuid4-" +:+ pretty n.

Definition uuid_uuid4 : M string :=
  n <- hgets uuid_draws ;;
  hmodify (set_uuid_draws (S n)) ;;
  ret (uuid4_str n).

Definition log (l : LogLevel) : M unit := hmodify (emit (Log l)).

(** Modelled from the spec: [sock.send(msg)] of the socket class, which is
    not part of this file.  It transmits; for REQ roles it marks
    [request_outstanding]. *)
Definition sock_send (t : SocketType) (m : Message) : M unit :=
  hmodify (emit (Send t m)) ;;
  when (bool_decide (t ∈ REQUEST_TYPES))
    (modify (λ a, set_sockets (sockets_set t (mkSocket true) (sockets a)) a)).

(** Modelled from the spec: [sock.receive()] hands over the message that
    arrived, if any; for REQ roles a response clears [request_outstanding]. *)
Definition sock_receive (t : SocketType) (arrived : option Message) : M (option Message) :=
  hmodify (emit (Sock_receive t)) ;;
  when (bool_decide (t ∈ REQUEST_TYPES) && bool_decide (is_Some arrived))
    (modify (λ a, set_sockets (sockets_set t (mkSocket false) (sockets a)) a)) ;;
  ret arrived.

(** Modelled from the spec: [sock.close()] and [sock.communicate(...)] tear
    down and re-establish the connection; the new connection has no request
    outstanding. *)
Definition sock_close (t : SocketType) : M unit := hmodify (emit (Sock_close t)).

Definition sock_communicate (t : SocketType) : M unit :=
  hmodify (emit (Sock_communicate t)) ;;
  modify (λ a, set_sockets (sockets_set t (mkSocket false) (sockets a)) a).

(** [sock._zmq.setsockopt(zmq.SUBSCRIBE, topic)] on the SUB socket. *)
Definition zmq_subscribe (topic : string) : M unit :=
  hmodify (emit (SUBSCRIBE topic)) ;;
  hmodify (λ h, set_subscribed ({[topic]} ∪ subscribed h) h).

Definition zmq_unsubscribe (topic : string) : M unit :=
  hmodify (emit (UNSUBSCRIBE topic)) ;;
  hmodify (λ h, set_subscribed (subscribed h ∖ {[topic]}) h).

(** Modelled from the spec: [futils.list_eps_with_rules()] enumerates the
    endpoint suffixes that have rule chains in the packet filter. *)
Definition futils_list_eps_with_rules : M (gset string) :=
  hmodify (emit Futils_list_eps_with_rules) ;;
  hgets rule_chains.

(** Modelled from the spec: [futils.del_rules(suffix)] removes the rule
    chains of an endpoint suffix. *)
Definition futils_del_rules (id : string) : M unit :=
  hmodify (emit (Futils_del_rules id)) ;;
  hmodify (λ h, set_rule_chains (rule_chains h ∖ {[id]}) h).

(** Modelled from the spec: [futils.set_global_rules()] installs the
    host-global rules; it owns no endpoint chain. *)
Definition futils_set_global_rules : M unit :=
  hmodify (emit Futils_set_global_rules).

(** Modelled from the spec: [ep.remove()] removes the packet-filter rules of
    the endpoint.  It is a method of the endpoint: the registry of the agent
    is out of its reach. *)
Definition ep_remove (ep : Endpoint) : M unit :=
  hmodify (emit (Ep_remove (ep_id ep))) ;;
  hmodify (λ h, set_rule_chains (rule_chains h ∖ {[suffix ep]}) h).

(** Modelled from the spec: [ep.program_endpoint()] installs the
    packet-filter rules of the endpoint. *)
Definition ep_program_endpoint (ep : Endpoint) : M unit :=
  hmodify (emit (Ep_program_endpoint (ep_id ep))) ;;
  hmodify (λ h, set_rule_chains ({[suffix ep]} ∪ rule_chains h) h).

(** Modelled from the spec: [ep.update_acls(acls)] installs the allow and
    deny rules of the endpoint inside its chains. *)
Definition ep_update_acls (ep : Endpoint) (acls : value) : M unit :=
  hmodify (emit (Ep_update_acls (ep_id ep) acls)).

Definition set_clock (x : Q) (h : Host) : Host :=
  mkHost x (uuid_draws h) (subscribed h) (rule_chains h) (effects h).

(** [x > y] on clock readings. *)
Definition Qgtb (x y : Q) : bool := negb (Qle_bool x y).

(** [deque.appendleft(x)] and [deque.pop()]: the queue is a list whose head is
    the left end; [pop] takes from the right end. *)
Definition appendleft (x : Message) (q : list Message) : list Message := x :: q.

Definition pop (q : list Message) : option (Message * list Message) :=
  match reverse q with
  | [] => None
  | x :: r => Some (x, reverse r)
  end.

(** What one pass of the loop gets from outside: the wall-clock time at which
    the poll returns, the sockets that polled readable, in the order in which
    the loop visits them, each with what [receive()] yields on it, and the
    sockets whose [timed_out] flag is set. *)
Record Poll := mkPoll {
  poll_time : Q;
  active_sockets : list (SocketType * option Message);
  timed_out : list SocketType;
}.

Definition all_sockets : list SocketType :=
  [TYPE_EP_REQ; TYPE_EP_REP; TYPE_ACL_REQ; TYPE_ACL_SUB].

Definition SUCCESS_reply : gmap string value :=
  <["rc" := VStr "SUCCESS"]> (<["message" := VStr ""]> ∅).

(** ** The agent *)

Section Felix.

(** Modelled from the spec: the endpoint's suffix is "deterministically
    derived from id" by the endpoint class, and [Config.RESYNC_INT_SEC] is
    the configured number of seconds between periodic resyncs; neither
    definition is part of this file. *)
Context (endpoint_suffix : string → string) (RESYNC_INT_SEC : Q).

(** Modelled from the spec: [Endpoint(endpoint_id, mac)], the constructor
    of the endpoint class.  A new endpoint has no addresses, is not waiting
    for a resync and needs its ACLs. *)
Definition new_Endpoint (endpoint_id : string) (mac : value) : Endpoint :=
  mkEndpoint endpoint_id (endpoint_suffix endpoint_id) mac [] false true.

Definition send_request (message : Message) (socket_type : SocketType) : M unit :=
  if negb (bool_decide (socket_type ∈ REQUEST_TYPES)) then raise AssertionError
  else
    socket <- gets (λ a, sockets_get socket_type (sockets a)) ;;
    if request_outstanding socket then
      if bool_decide (socket_type = TYPE_EP_REQ) then
        modify (λ a, set_endpoint_queue (appendleft message (endpoint_queue a)) a)
      else
        modify (λ a, set_acl_queue (appendleft message (acl_queue a)) a)
    else
      sock_send socket_type message.

Definition RESYNC_request (rid : string) (now : Q) (h : string) : Message :=
  new_Message TYPE_RESYNC
    (<["resync_id" := VStr rid]>
       (<["issued" := VFloat (now * 1000)%Q]>
          (<["hostname" := VStr h]> ∅))).

Definition GET_ACL_request (id : string) (now : Q) : Message :=
  new_Message TYPE_GET_ACL
    (<["endpoint_id" := VStr id]> (<["issued" := VFloat (now * 1000)%Q]> ∅)).

Definition resync_endpoints : M unit :=
  rid <- uuid_uuid4 ;;
  modify (set_resync_id (Some rid)) ;;
  modify (set_resync_recd (Some 0)) ;;
  modify (set_resync_expected (VInt 0)) ;;
  modify (λ a, set_endpoints (set_pending_resync true <$> endpoints a) a) ;;
  modify (set_endpoint_queue []) ;;
  modify (set_acl_queue []) ;;
  now <- time_time ;;
  h <- gets hostname ;;
  send_request (RESYNC_request rid now h) TYPE_EP_REQ.

(** Python does not fix the order in which [self.endpoints.iteritems()]
    yields the items of the dict: the order is the parameter [iteritems]. *)
Definition resync_acls (iteritems : gmap string Endpoint → list (string * Endpoint)) :
    M unit :=
  modify (set_acl_queue []) ;;
  eps <- gets endpoints ;;
  for_each (iteritems eps) (λ item,
    modify (λ a, set_endpoints (alter (set_need_acls true) item.1 (endpoints a)) a) ;;
    now <- time_time ;;
    send_request (GET_ACL_request item.1 now) TYPE_ACL_REQ).

Definition complete_endpoint_resync (successful : bool) : M unit :=
  modify (set_resync_id None) ;;
  modify (set_resync_recd None) ;;
  modify (set_resync_expected VNone) ;;
  now <- time_time ;;
  modify (set_resync_time (Some (now * 1000)%Q)) ;;
  when successful
    (eps <- gets endpoints ;;
     for_each (map_to_list eps).*2 (λ ep,
       when (pending_resync ep) (ep_remove ep))) ;;
  rule_ids <- futils_list_eps_with_rules ;;
  eps <- gets endpoints ;;
  let known_ids : gset string := list_to_set (suffix <$> (map_to_list eps).*2) in
  for_each (elements rule_ids) (λ id,
    when (negb (bool_decide (id ∈ known_ids)))
      (log WARNING ;; futils_del_rules id)).

(** The endpoint object that [_create_endpoint] returns, and that
    [_update_endpoint] is given, is the one stored in the registry: it is
    referred to by its key. *)
Definition _create_endpoint (endpoint_id : string) (mac : value) : M string :=
  modify (λ a, set_endpoints (<[endpoint_id := new_Endpoint endpoint_id mac]> (endpoints a)) a) ;;
  zmq_subscribe endpoint_id ;;
  now <- time_time ;;
  send_request (GET_ACL_request endpoint_id now) TYPE_ACL_REQ ;;
  ret endpoint_id.

Definition _update_endpoint (endpoint : string) (fields : gmap string value) : M unit :=
  mac_field <- field fields "mac" ;;
  mac <- encode_ascii mac_field ;;
  state_field <- field fields "state" ;;
  state <- encode_ascii state_field ;;
  addrs <- iterate (default VNone (fields !! "addrs")) ;;
  modify (λ a, set_endpoints (alter (set_addresses addrs) endpoint (endpoints a)) a) ;;
  modify (λ a, set_endpoints (alter (set_mac (VStr mac)) endpoint (endpoints a)) a) ;;
  eps <- gets endpoints ;;
  match eps !! endpoint with
  | Some ep => ep_program_endpoint ep
  | None => ret tt
  end.

Definition handle_endpointcreated (message : Message) : M unit :=
  endpoint_id <- field (fields message) "endpoint_id" ;;
  msg_resync_id <- field (fields message) "resync_id" ;;
  issued <- field (fields message) "issued" ;;
  mac <- field (fields message) "mac" ;;
  eps <- gets endpoints ;;
  endpoint <-
    match endpoint_id with
    | VStr id =>
        match eps !! id with
        | Some _ => when (negb (is_none msg_resync_id)) (log WARNING) ;; ret id
        | None => _create_endpoint id mac
        end
    | VList _ | VDict _ => raise TypeError
    | _ => raise AttributeError
    end ;;
  _update_endpoint endpoint (fields message) ;;
  sock_send TYPE_EP_REP (new_Message TYPE_EP_CR SUCCESS_reply) ;;
  active <- gets resync_id ;;
  let resync_in_progress := truthy msg_resync_id && eq_opt_str msg_resync_id active in
  (if resync_in_progress then
     recd <- gets resync_recd ;;
     match recd with
     | Some n => modify (set_resync_recd (Some (n + 1)))
     | None => raise TypeError
     end
   else ret tt) ;;
  expected <- gets resync_expected ;;
  recd <- gets resync_recd ;;
  let last_resync := truthy expected && eq_opt_int expected recd in
  when (resync_in_progress && last_resync) (complete_endpoint_resync true).

Definition handle_endpointupdated (message : Message) : M unit :=
  endpoint_id <- field (fields message) "endpoint_id" ;;
  issued <- field (fields message) "issued" ;;
  eps <- gets endpoints ;;
  endpoint <-
    match endpoint_id with
    | VStr id =>
        match eps !! id with
        | Some _ => ret id
        | None => raise KeyError
        end
    | VList _ | VDict _ => raise TypeError
    | _ => raise KeyError
    end ;;
  _update_endpoint endpoint (fields message) ;;
  sock_send TYPE_EP_REP (new_Message TYPE_EP_CR SUCCESS_reply).

Definition handle_endpointdestroyed (message : Message) : M unit :=
  delete_id <- field (fields message) "endpoint_id" ;;
  issued <- field (fields message) "issued" ;;
  eps <- gets endpoints ;;
  match delete_id with
  | VStr id =>
      match eps !! id with
      | Some endpoint =>
          modify (λ a, set_endpoints (delete id (endpoints a)) a) ;;
          zmq_unsubscribe id ;;
          ep_remove endpoint
      | None => log ERROR
      end
  | VList _ | VDict _ => raise TypeError
  | _ => log ERROR
  end.

Definition handle_heartbeat (message : Message) : M unit :=
  sock_send TYPE_EP_REP (new_Message TYPE_HEARTBEAT ∅).

Definition handle_resyncstate (message : Message) : M unit :=
  endpoint_count <- field (fields message) "endpoint_count" ;;
  return_code <- field (fields message) "rc" ;;
  return_str <- field (fields message) "message" ;;
  if negb (eq_str return_code "SUCCESS") then
    log ERROR ;;
    complete_endpoint_resync false
  else
    recd <- gets resync_recd ;;
    if negb (truthy endpoint_count) || eq_opt_int endpoint_count recd then
      complete_endpoint_resync true
    else
      modify (set_resync_expected endpoint_count).

Definition handle_getaclstate (message : Message) : M unit :=
  return_code <- field (fields message) "rc" ;;
  return_str <- field (fields message) "message" ;;
  when (negb (eq_str return_code "SUCCESS")) (log ERROR).

Definition handle_aclupdate (message : Message) : M unit :=
  eps <- gets endpoints ;;
  match endpoint_id message with
  | Some id =>
      match eps !! id with
      | Some endpoint =>
          acls <- field (fields message) "acls" ;;
          ep_update_acls endpoint acls
      | None => raise KeyError
      end
  | None => raise KeyError
  end.

(** [self.handlers], the dispatch table. *)
Definition handlers (t : MessageType) : option (Message → M unit) :=
  match t with
  | TYPE_HEARTBEAT => Some handle_heartbeat
  | TYPE_EP_CR => Some handle_endpointcreated
  | TYPE_EP_UP => Some handle_endpointupdated
  | TYPE_EP_RM => Some handle_endpointdestroyed
  | TYPE_RESYNC => Some handle_resyncstate
  | TYPE_GET_ACL => Some handle_getaclstate
  | TYPE_ACL_UPD => Some handle_aclupdate
  | TYPE_OTHER _ => None
  end.

(** [self.handlers[message.type](message)] *)
Definition dispatch (message : Message) : M unit :=
  match handlers (type message) with
  | Some handler => handler message
  | None => raise KeyError
  end.

Definition read_programmed_state : M unit := futils_set_global_rules.

Definition initialise : M unit := read_programmed_state.

(** The body of [while True] in [run], for one poll. *)
Definition run_iteration (p : Poll) : M unit :=
  hmodify (set_clock (poll_time p)) ;;
  for_each (active_sockets p) (λ sock,
    message <- sock_receive sock.1 sock.2 ;;
    match message with
    | Some m => dispatch m
    | None => ret tt
    end) ;;
  for_each all_sockets (λ t,
    when (bool_decide (t ∈ timed_out p))
      (log WARNING ;;
       sock_close t ;;
       sock_communicate t ;;
       if bool_decide (t = TYPE_EP_REQ) then modify (set_endpoint_queue [])
       else if bool_decide (t = TYPE_ACL_REQ) then modify (set_acl_queue [])
       else ret tt)) ;;
  let ep_timed_out :=
    existsb (λ t, bool_decide (t ∈ timed_out p) && bool_decide (t ∈ EP_TYPES)) all_sockets in
  let acl_resync_needed :=
    existsb (λ t, bool_decide (t ∈ timed_out p) && negb (bool_decide (t ∈ EP_TYPES))) all_sockets in
  socks <- gets sockets ;;
  endpoint_q <- gets endpoint_queue ;;
  match pop endpoint_q with
  | Some (message, rest) =>
      when (negb (request_outstanding (sockets_get TYPE_EP_REQ socks)))
        (modify (set_endpoint_queue rest) ;; sock_send TYPE_EP_REQ message)
  | None => ret tt
  end ;;
  socks <- gets sockets ;;
  acl_q <- gets acl_queue ;;
  match pop acl_q with
  | Some (message, rest) =>
      when (negb (request_outstanding (sockets_get TYPE_ACL_REQ socks)))
        (modify (set_acl_queue rest) ;; sock_send TYPE_ACL_REQ message)
  | None => ret tt
  end ;;
  active <- gets resync_id ;;
  due <-
    match active with
    | None =>
        now <- time_time ;;
        last <- gets resync_time ;;
        match last with
        | Some t => ret (Qgtb (now - t)%Q RESYNC_INT_SEC)
        | None => raise TypeError
        end
    | Some _ => ret false
    end ;;
  let endpoint_resync_needed := ep_timed_out || due in
  if endpoint_resync_needed then resync_endpoints
  else if acl_resync_needed then resync_acls map_to_list
  else ret tt.

(** [run] over the polls of a finite prefix of its endless loop.  The
    loop is left only by an exception. *)
Definition run (polls : list Poll) : M unit :=
  initialise ;;
  for_each polls run_iteration.

(** [__init__]: the attributes, the connections, and the first resync.
    [h] is the host on which the agent starts. *)
Definition blank_agent (name : string) : FelixAgent :=
  mkFelixAgent name
    (mkSockets (mkSocket false) (mkSocket false) (mkSocket false) (mkSocket false))
    ∅ None None VNone None [] [].

Definition connect_to_plugin : M unit :=
  for_each EP_TYPES sock_communicate.

Definition connect_to_acl_manager : M unit :=
  for_each ACL_TYPES sock_communicate.

Definition FelixAgent_init (name : string) (h : Host) : result (unit * State) :=
  (connect_to_plugin ;; connect_to_acl_manager ;; resync_endpoints)
    (mkState (blank_agent name) h).

(** [main]: log that the agent has started, create it and run it.
    [initialise_logging] only configures the log handlers and
    [set_global_state] has an empty body. *)
Definition main (name : string) (polls : list Poll) (h : Host) : result (unit * State) :=
  match FelixAgent_init name (emit (Log ERROR) h) with
  | Ok (_, st) => run polls st
  | Raise e => Raise e
  end.

End Felix.

(** ** Vocabulary of the properties *)

(** [self.endpoints.values()] *)
Definition values (a : FelixAgent) : list Endpoint := (map_to_list (endpoints a)).*2.

(** [{ ep.suffix for ep in self.endpoints.values() }] *)
Definition known_ids (a : FelixAgent) : gset string :=
  list_to_set (suffix <$> values a).

(** The endpoints of the registry whose [pending_resync] is set. *)
Definition pending (a : FelixAgent) : list Endpoint :=
  filter (λ ep, pending_resync ep = true) (values a).

(** The state after [m], when [m] returns. *)
Definition returns (m : M unit) (st st' : State) : Prop := m st = Ok (tt, st').

(** What the two loops of [complete_endpoint_resync] do to the host, one
    element at a time. *)
Definition remove_step (ep : Endpoint) (h : Host) : Host :=
  if pending_resync ep
  then set_rule_chains (rule_chains h ∖ {[suffix ep]}) (emit (Ep_remove (ep_id ep)) h)
  else h.

Definition del_step (known : gset string) (id : string) (h : Host) : Host :=
  if bool_decide (id ∈ known) then h
  else set_rule_chains (rule_chains h ∖ {[id]})
         (emit (Futils_del_rules id) (emit (Log WARNING) h)).

(** The agent and the host after [complete_endpoint_resync], read at wall-clock
    time [now]. *)
Definition completion_agent (now : Q) (a : FelixAgent) : FelixAgent :=
  set_resync_time (Some (now * 1000)%Q)
    (set_resync_expected VNone (set_resync_recd None (set_resync_id None a))).

Definition completion_host (successful : bool) (a : FelixAgent) (h : Host) : Host :=
  let h1 := if successful then foldl (λ h ep, remove_step ep h) h (values a) else h in
  let h2 := emit Futils_list_eps_with_rules h1 in
  foldl (λ h id, del_step (known_ids a) id h) h2 (elements (rule_chains h2)).

(** The endpoints that a completion calls [remove()] on, and the suffixes
    that [list_eps_with_rules()] then reports. *)
Definition removed (successful : bool) (a : FelixAgent) : list Endpoint :=
  if successful then pending a else [].

Definition reported (successful : bool) (st : State) : gset string :=
  rule_chains (host st) ∖ list_to_set (suffix <$> removed successful (agent st)).

(** The state after [send_request] on a request socket. *)
Definition requested (message : Message) (t : SocketType) (st : State) : State :=
  if request_outstanding (sockets_get t (sockets (agent st))) then
    if bool_decide (t = TYPE_EP_REQ) then
      mkState (set_endpoint_queue (appendleft message (endpoint_queue (agent st))) (agent st))
        (host st)
    else
      mkState (set_acl_queue (appendleft message (acl_queue (agent st))) (agent st))
        (host st)
  else
    mkState (set_sockets (sockets_set t (mkSocket true) (sockets (agent st))) (agent st))
      (emit (Send t message) (host st)).

(** The state after [_create_endpoint]. *)
Definition created (endpoint_suffix : string → string) (id : string) (mac : value)
    (st : State) : State :=
  requested (GET_ACL_request id (clock (host st))) TYPE_ACL_REQ
    (mkState
       (set_endpoints (<[id := new_Endpoint endpoint_suffix id mac]> (endpoints (agent st)))
          (agent st))
       (set_subscribed ({[id]} ∪ subscribed (host st)) (emit (SUBSCRIBE id) (host st)))).

(** The state after the first part of [handle_endpointcreated]: a known
    endpoint is kept, with a warning when the message carries a resync
    identifier; an unknown one is created. *)
Definition declared (endpoint_suffix : string → string) (id : string) (rid mac : value)
    (st : State) : State :=
  match endpoints (agent st) !! id with
  | Some _ => if is_none rid then st else mkState (agent st) (emit (Log WARNING) (host st))
  | None => created endpoint_suffix id mac st
  end.

Definition programmed (ep : Endpoint) (h : Host) : Host :=
  set_rule_chains ({[suffix ep]} ∪ rule_chains h) (emit (Ep_program_endpoint (ep_id ep)) h).

(** The state after [_update_endpoint]. *)
Definition updated (id mac : string) (addrs : list value) (st : State) : State :=
  let eps := alter (set_mac (VStr mac)) id
               (alter (set_addresses addrs) id (endpoints (agent st))) in
  mkState (set_endpoints eps (agent st))
    (match eps !! id with
     | Some ep => programmed ep (host st)
     | None => host st
     end).

(** The state after the reply on EP_REP. *)
Definition replied (st : State) : State :=
  mkState (agent st)
    (emit (Send TYPE_EP_REP (new_Message TYPE_EP_CR SUCCESS_reply)) (host st)).

(** The fields that [_update_endpoint] reads: [mac] and [state] are ASCII
    strings and [addrs] can be iterated over. *)
Definition update_fields (f : gmap string value) (mac state : string)
    (addrs : list value) : Prop :=
  f !! "mac" = Some (VStr mac) ∧ is_ascii mac = true ∧
  f !! "state" = Some (VStr state) ∧ is_ascii state = true ∧
  items (default VNone (f !! "addrs")) = Some addrs.

(** The state after [handle_endpointcreated] has stored the endpoint and
    replied, before it looks at the resync counters. *)
Definition stored (endpoint_suffix : string → string) (id : string) (rid : value)
    (mac : string) (addrs : list value) (st : State) : State :=
  replied (updated id mac addrs (declared endpoint_suffix id rid (VStr mac) st)).

(** The last part of [handle_endpointcreated] for a message of the resync
    in progress: count it and, when it is the last one, complete. *)
Definition counted (st : State) : result (unit * State) :=
  match resync_recd (agent st) with
  | Some n =>
      let st' := mkState (set_resync_recd (Some (n + 1)) (agent st)) (host st) in
      if truthy (resync_expected (agent st))
         && eq_opt_int (resync_expected (agent st)) (Some (n + 1))
      then complete_endpoint_resync true st'
      else Ok (tt, st')
  | None => Raise TypeError
  end.

(** Whether a message's [resync_id] is that of the resync in progress. *)
Definition resync_in_progress (rid : value) (a : FelixAgent) : bool :=
  truthy rid && eq_opt_str rid (resync_id a).

(** *** Messages that a handler can process *)

Definition present (f : gmap string value) (key : string) : bool :=
  bool_decide (is_Some (f !! key)).

Definition ascii_string (o : option value) : bool :=
  match o with
  | Some (VStr s) => is_ascii s
  | _ => false
  end.

Definition update_fields_ok (f : gmap string value) : bool :=
  ascii_string (f !! "mac") && ascii_string (f !! "state")
  && bool_decide (is_Some (items (default VNone (f !! "addrs")))).

(** The value can be a dictionary key. *)
Definition hashable (v : value) : bool :=
  match v with
  | VList _ | VDict _ => false
  | _ => true
  end.

Definition known (a : FelixAgent) (id : string) : bool :=
  bool_decide (is_Some (endpoints a !! id)).

(** A message that has the fields its handler reads, of the types the handler
    uses them at, and that, for ENDPOINTUPDATED and ACLUPDATE, is about an
    endpoint of the registry. *)
Definition well_formed (a : FelixAgent) (m : Message) : bool :=
  let f := fields m in
  match type m with
  | TYPE_HEARTBEAT => true
  | TYPE_EP_CR =>
      match f !! "endpoint_id" with
      | Some (VStr _) => present f "resync_id" && present f "issued" && update_fields_ok f
      | _ => false
      end
  | TYPE_EP_UP =>
      match f !! "endpoint_id" with
      | Some (VStr id) => known a id && present f "issued" && update_fields_ok f
      | _ => false
      end
  | TYPE_EP_RM =>
      match f !! "endpoint_id" with
      | Some v => hashable v && present f "issued"
      | None => false
      end
  | TYPE_RESYNC => present f "endpoint_count" && present f "rc" && present f "message"
  | TYPE_GET_ACL => present f "rc" && present f "message"
  | TYPE_ACL_UPD =>
      match endpoint_id m with
      | Some id => known a id && present f "acls"
      | None => false
      end
  | TYPE_OTHER _ => false
  end.

(** The resync attributes go together: while a resync is in progress its
    counter is a number, and when none is, the last completion has left its
    time stamp. *)
Definition consistent (a : FelixAgent) : Prop :=
  (is_Some (resync_id a) → is_Some (resync_recd a)) ∧
  (resync_id a = None → is_Some (resync_time a)).

(** The resync attributes that [consistent] is about are the same in both
    agents. *)
Definition same_resync (a a' : FelixAgent) : Prop :=
  resync_id a' = resync_id a ∧ resync_recd a' = resync_recd a ∧
  resync_time a' = resync_time a.

(** The state after a line was logged. *)
Definition logged (l : LogLevel) (st : State) : State :=
  mkState (agent st) (emit (Log l) (host st)).

(** The identifier is not a key of the registry. *)
Definition absent (a : FelixAgent) (v : value) : Prop :=
  match v with
  | VStr id => endpoints a !! id = None
  | _ => True
  end.

(** The fields that the handler of a message type reads before it does
    anything else. *)
Definition required (t : MessageType) : list string :=
  match t with
  | TYPE_EP_CR => ["endpoint_id"; "resync_id"; "issued"; "mac"]
  | TYPE_EP_UP => ["endpoint_id"; "issued"]
  | TYPE_EP_RM => ["endpoint_id"; "issued"]
  | TYPE_RESYNC => ["endpoint_count"; "rc"; "message"]
  | TYPE_GET_ACL => ["rc"; "message"]
  | _ => []
  end.

(** *** Computations that return *)

(** [m] returns from [st], with a result and a state that satisfy [Q]. *)
Definition wp {A} (m : M A) (Q : A → State → Prop) (st : State) : Prop :=
  match m st with
  | Ok (a, st') => Q a st'
  | Raise _ => False
  end.

(** The state after [sock.receive()]. *)
Definition received (t : SocketType) (arrived : option Message) (st : State) : State :=
  let st1 := mkState (agent st) (emit (Sock_receive t) (host st)) in
  if bool_decide (t ∈ REQUEST_TYPES) && bool_decide (is_Some arrived)
  then mkState (set_sockets (sockets_set t (mkSocket false) (sockets (agent st1))) (agent st1))
         (host st1)
  else st1.

(** Every message that arrives is well-formed for the agent that takes it
    off its socket. *)
Fixpoint arrivals_well_formed (endpoint_suffix : string → string)
    (l : list (SocketType * option Message)) (st : State) : Prop :=
  match l with
  | [] => True
  | (t, None) :: l' => arrivals_well_formed endpoint_suffix l' (received t None st)
  | (t, Some m) :: l' =>
      well_formed (agent st) m = true ∧
      ∀ st', returns (dispatch endpoint_suffix m) (received t (Some m) st) st' →
             arrivals_well_formed endpoint_suffix l' st'
  end.

Fixpoint polls_well_formed (endpoint_suffix : string → string) (RESYNC_INT_SEC : Q)
    (polls : list Poll) (st : State) : Prop :=
  match polls with
  | [] => True
  | p :: polls' =>
      arrivals_well_formed endpoint_suffix (active_sockets p)
        (mkState (agent st) (set_clock (poll_time p) (host st))) ∧
      ∀ st', returns (run_iteration endpoint_suffix RESYNC_INT_SEC p) st st' →
             polls_well_formed endpoint_suffix RESYNC_INT_SEC polls' st'
  end.

(** The state after [resync_endpoints]. *)
Definition started (st : State) : State :=
  let rid := uuid4_str (uuid_draws (host st)) in
  requested (RESYNC_request rid (clock (host st)) (hostname (agent st))) TYPE_EP_REQ
    (mkState
       (set_acl_queue []
          (set_endpoint_queue []
             (set_endpoints (set_pending_resync true <$> endpoints (agent st))
                (set_resync_expected (VInt 0)
                   (set_resync_recd (Some 0)
                      (set_resync_id (Some rid) (agent st)))))))
       (set_uuid_draws (S (uuid_draws (host st))) (host st))).

(** The invariant of the loop. *)
Definition inv (st : State) : Prop := consistent (agent st).

(** ** States and messages used in the examples *)

(** One way to derive a suffix from an identifier: its first eleven
    characters. *)
Definition fixture_suffix (id : string) : string := String.substring 0 11 id.

Definition idle_sockets : Sockets :=
  mkSockets (mkSocket false) (mkSocket false) (mkSocket false) (mkSocket false).

Definition fixture_endpoint (id : string) (pending_resync : bool) : Endpoint :=
  mkEndpoint id (fixture_suffix id) (VStr "aa:bb:cc:00:00:01") [VStr "10.0.0.1"]
    pending_resync false.

(** An agent in the middle of resync [R1] that knows the endpoints of [eps],
    each subscribed and with its rule chains installed, plus the chains of
    [stale]. *)
Definition fixture_state (eps : list Endpoint) (stale : list string)
    (recd : Z) (expected : value) : State :=
  mkState
    (mkFelixAgent "host1" idle_sockets (list_to_map ((λ ep, (ep_id ep, ep)) <$> eps))
       (Some "R1") (Some recd) expected None [] [])
    (mkHost 1415000000%Q 1 (list_to_set (ep_id <$> eps))
       (list_to_set ((suffix <$> eps) ++ stale)) []).

(** The registry holds [e1], which the resync has declared again, and [e2],
    which it has not. *)
Definition st_prune : State :=
  fixture_state [fixture_endpoint "e1" false; fixture_endpoint "e2" true] [] 1 (VInt 1).

(** The registry holds [e1]; the packet filter has its chains and those of a
    suffix that no endpoint owns. *)
Definition st_stale_rules : State :=
  fixture_state [fixture_endpoint "e1" false] ["gone"] 1 (VInt 1).

(** A RESYNCSTATE reply. *)
Definition RESYNC_reply (rc : string) (endpoint_count : Z) : Message :=
  new_Message TYPE_RESYNC
    (<["endpoint_count" := VInt endpoint_count]>
       (<["rc" := VStr rc]> (<["message" := VStr ""]> ∅))).

(** ENDPOINTCREATED for [id], carrying the resync identifier [rid]. *)
Definition ENDPOINTCREATED (id : string) (rid : value) : Message :=
  new_Message TYPE_EP_CR
    (<["endpoint_id" := VStr id]>
       (<["resync_id" := rid]>
          (<["issued" := VFloat 1415000000000%Q]>
             (<["mac" := VStr "aa:bb:cc:00:00:01"]>
                (<["state" := VStr "enabled"]>
                   (<["addrs" := VList [VStr "10.0.0.1"]]> ∅)))))).

(** Resync [R1] is in progress, no ENDPOINTCREATED has been counted yet, and
    the registry holds [e1] from before the resync, marked pending. *)
Definition st_collecting (expected : Z) : State :=
  fixture_state [fixture_endpoint "e1" true] [] 0 (VInt expected).

(** ENDPOINTDESTROYED for [id] without its [issued] field, ENDPOINTUPDATED
    and ACLUPDATE for [id]. *)
Definition ENDPOINTDESTROYED_no_issued (id : string) : Message :=
  new_Message TYPE_EP_RM (<["endpoint_id" := VStr id]> ∅).

Definition ENDPOINTDESTROYED (id : string) : Message :=
  new_Message TYPE_EP_RM
    (<["endpoint_id" := VStr id]> (<["issued" := VFloat 1415000000000%Q]> ∅)).

Definition ENDPOINTUPDATED (id : string) : Message :=
  new_Message TYPE_EP_UP
    (<["endpoint_id" := VStr id]>
       (<["issued" := VFloat 1415000000000%Q]>
          (<["mac" := VStr "aa:bb:cc:00:00:01"]>
             (<["state" := VStr "enabled"]>
                (<["addrs" := VList [VStr "10.0.0.1"]]> ∅))))).

Definition ACLUPDATE (id : string) : Message :=
  mkMessage TYPE_ACL_UPD (<["acls" := VDict []]> ∅) (Some id).

(** A poll at wall-clock time [now] on which one message arrived. *)
Definition one_message (now : Q) (t : SocketType) (m : Message) : Poll :=
  mkPoll now [(t, Some m)] [].

(** A poll that times out with nothing to read, at wall-clock time [now]. *)
Definition quiet (now : Q) : Poll := mkPoll now [] [].

(** The state of [st] when the wall clock reads [now]. *)
Definition at_time (now : Q) (st : State) : State :=
  mkState (agent st) (set_clock now (host st)).

(** A host on which no agent has run yet, except that the packet filter
    still has the chains of [stale]. *)
Definition fresh_host (stale : list string) : Host :=
  mkHost 1415000000%Q 0 ∅ (list_to_set stale) [].

(** HEARTBEAT from the plugin. *)
Definition HEARTBEAT : Message := new_Message TYPE_HEARTBEAT ∅.

(** The polls of a first resync, in which [e1] is declared and the reply
    announces one endpoint, and of a second resync, started by a timeout on
    EP_REP, in which [e1] is declared again and the reply announces one
    endpoint. *)
Definition first_resync : list Poll :=
  [one_message 1415000001 TYPE_EP_REP (ENDPOINTCREATED "e1" (VStr (uuid4_str 0)));
   one_message 1415000002 TYPE_EP_REQ (RESYNC_reply "SUCCESS" 1)].

Definition second_resync : list Poll :=
  [mkPoll 1415000003 [] [TYPE_EP_REP];
   one_message 1415000004 TYPE_EP_REP (ENDPOINTCREATED "e1" (VStr (uuid4_str 1)));
   one_message 1415000005 TYPE_EP_REQ (RESYNC_reply "SUCCESS" 1)].

(** ** Vocabulary of the further properties *)

(** The queue after the messages of [ms] were put on it with [appendleft],
    one after the other, and the messages that [n] calls of [pop] take off
    a queue. *)
Definition enqueue_all (ms : list Message) (q : list Message) : list Message :=
  foldl (λ q m, appendleft m q) q ms.

Fixpoint drain (n : nat) (q : list Message) : list Message :=
  match n with
  | O => []
  | S n' =>
      match pop q with
      | Some (m, rest) => m :: drain n' rest
      | None => []
      end
  end.

(** The state after [handle_endpointdestroyed] for an endpoint of the
    registry. *)
Definition destroyed (id : string) (endpoint : Endpoint) (st : State) : State :=
  mkState (set_endpoints (delete id (endpoints (agent st))) (agent st))
    (set_rule_chains (rule_chains (host st) ∖ {[suffix endpoint]})
       (emit (Ep_remove (ep_id endpoint))
          (set_subscribed (subscribed (host st) ∖ {[id]})
             (emit (UNSUBSCRIBE id) (host st))))).

(** The identifiers of the registry after a message was handled: only
    ENDPOINTCREATED adds one, only ENDPOINTDESTROYED takes one away. *)
Definition registry_after (m : Message) (ids : gset string) : gset string :=
  match type m, fields m !! "endpoint_id" with
  | TYPE_EP_CR, Some (VStr id) => {[id]} ∪ ids
  | TYPE_EP_RM, Some (VStr id) => ids ∖ {[id]}
  | _, _ => ids
  end.

(** The SUB socket is subscribed to the identifiers of the registry, and to
    nothing else. *)
Definition subscribed_to_registry (st : State) : Prop :=
  subscribed (host st) = dom (endpoints (agent st)).

(** What reconnecting sockets and draining the queues leave alone. *)
Definition untouched (st s : State) : Prop :=
  same_resync (agent st) (agent s) ∧
  endpoints (agent s) = endpoints (agent st) ∧
  hostname (agent s) = hostname (agent st) ∧
  uuid_draws (host s) = uuid_draws (host st) ∧
  clock (host s) = clock (host st).

(** The state after one pass of the loop of [resync_acls], and the requests
    that the loop makes for the endpoints of [l] at wall-clock time [now]. *)
Definition acl_requested (st : State) (item : string * Endpoint) : State :=
  requested (GET_ACL_request item.1 (clock (host st))) TYPE_ACL_REQ
    (mkState
       (set_endpoints (alter (set_need_acls true) item.1 (endpoints (agent st))) (agent st))
       (host st)).

Definition acl_requests (now : Q) (l : list (string * Endpoint)) : list Message :=
  (λ item, GET_ACL_request item.1 now) <$> l.

(** *** One request at a time *)

(** [m] keeps [P]: from a state that satisfies [P], [m] raises or returns in
    a state that satisfies [P]. *)
Definition wlp {A} (m : M A) (Q : A → State → Prop) (st : State) : Prop :=
  match m st with
  | Ok (a, st') => Q a st'
  | Raise _ => True
  end.

Definition keeps {A} (P : State → Prop) (m : M A) : Prop :=
  ∀ st, P st → wlp m (λ _, P) st.

(** What the calls made so far say about the request socket [t]:
    [Some true] when the last call on it was a send, [Some false] when it
    was a receive or a reconnect, or when there was none, and [None] when
    two sends on it follow each other with neither in between. *)
Definition request_step (t : SocketType) (s : option bool) (e : Effect) : option bool :=
  match s with
  | None => None
  | Some sent =>
      match e with
      | Send t' _ =>
          if bool_decide (t' = t) then (if sent then None else Some true) else Some sent
      | Sock_receive t' => if bool_decide (t' = t) then Some false else Some sent
      | Sock_communicate t' => if bool_decide (t' = t) then Some false else Some sent
      | _ => Some sent
      end
  end.

Definition in_flight (t : SocketType) (l : list Effect) : option bool :=
  foldl (request_step t) (Some false) l.

(** No request socket was sent on twice in a row, and one whose last call was
    a send has [request_outstanding] set. *)
Definition one_request_at_a_time (st : State) : Prop :=
  ∀ t, t ∈ REQUEST_TYPES →
    ∃ sent, in_flight t (effects (host st)) = Some sent ∧
      (sent = true → request_outstanding (sockets_get t (sockets (agent st))) = true).

(** A call that is not a send, receive or reconnect on a request socket. *)
Definition off_request_sockets (e : Effect) : Prop :=
  ∀ t s, t ∈ REQUEST_TYPES → request_step t s e = s.

(** *** What the other messages leave alone *)

(** The resync attributes, the request queues and the sockets of the agent
    are those of [a], and an endpoint of the registry was in the registry of
    [a] with the same [pending_resync] and [need_acls]. *)
Definition same_bookkeeping (a a' : FelixAgent) : Prop :=
  same_resync a a' ∧
  resync_expected a' = resync_expected a ∧
  endpoint_queue a' = endpoint_queue a ∧
  acl_queue a' = acl_queue a ∧
  sockets a' = sockets a ∧
  ∀ id ep', endpoints a' !! id = Some ep' →
    ∃ ep, endpoints a !! id = Some ep ∧
      pending_resync ep' = pending_resync ep ∧ need_acls ep' = need_acls ep.

(** ** Loops and the completion of a resync *)

Lemma uuid4_str_inj : Inj (=) (=) uuid4_str.
Proof. intros n k H. unfold uuid4_str in H. by simplify_eq/=. Qed.

Lemma uuid4_str_nonempty n : uuid4_str n ≠ "".
Proof. unfold uuid4_str. simpl. discriminate. Qed.

Lemma State_eta st : mkState (agent st) (host st) = st.
Proof. by destruct st. Qed.

(** A loop whose body only acts on the host is a fold over the host. *)
Lemma for_each_host {A} (f : A → Host → Host) (body : A → M unit) (l : list A) st :
  (∀ x s, body x s = Ok (tt, mkState (agent s) (f x (host s)))) →
  for_each l body st = Ok (tt, mkState (agent st) (foldl (λ h x, f x h) (host st) l)).
Proof.
  intros Hbody. revert st.
  induction l as [|x l IH]; intros st; simpl.
  - unfold ret. by rewrite State_eta.
  - unfold bind. rewrite Hbody, IH. reflexivity.
Qed.

Lemma remove_loop (l : list Endpoint) st :
  for_each l (λ ep, when (pending_resync ep) (ep_remove ep)) st
  = Ok (tt, mkState (agent st) (foldl (λ h ep, remove_step ep h) (host st) l)).
Proof.
  apply for_each_host. intros ep s. unfold remove_step, when.
  destruct (pending_resync ep); [reflexivity|].
  unfold ret. by rewrite State_eta.
Qed.

Lemma del_loop (known : gset string) (l : list string) st :
  for_each l (λ id, when (negb (bool_decide (id ∈ known)))
                      (log WARNING ;; futils_del_rules id)) st
  = Ok (tt, mkState (agent st) (foldl (λ h id, del_step known id h) (host st) l)).
Proof.
  apply for_each_host. intros id s. unfold del_step, when.
  destruct (bool_decide (id ∈ known)); simpl; [|reflexivity].
  unfold ret. by rewrite State_eta.
Qed.

Lemma remove_fold_rule_chains (l : list Endpoint) h :
  rule_chains (foldl (λ h ep, remove_step ep h) h l)
  = rule_chains h ∖ list_to_set (suffix <$> filter (λ ep, pending_resync ep = true) l).
Proof.
  revert h. induction l as [|ep l IH]; intros h; simpl.
  - set_solver.
  - rewrite IH. unfold remove_step. rewrite filter_cons.
    destruct (pending_resync ep) eqn:E; simpl; [|done].
    set_solver.
Qed.

Lemma remove_fold_effects (l : list Endpoint) h :
  effects (foldl (λ h ep, remove_step ep h) h l)
  = effects h ++ (Ep_remove ∘ ep_id <$> filter (λ ep, pending_resync ep = true) l).
Proof.
  revert h. induction l as [|ep l IH]; intros h; simpl.
  - by rewrite app_nil_r.
  - rewrite IH. unfold remove_step. rewrite filter_cons.
    destruct (pending_resync ep) eqn:E; simpl; [|done].
    by rewrite <- app_assoc.
Qed.

Lemma remove_fold_frame (l : list Endpoint) h :
  let h' := foldl (λ h ep, remove_step ep h) h l in
  clock h' = clock h ∧ uuid_draws h' = uuid_draws h ∧ subscribed h' = subscribed h.
Proof.
  revert h. induction l as [|ep l IH]; intros h; simpl; [done|].
  destruct (IH (remove_step ep h)) as (-> & -> & ->).
  unfold remove_step. by destruct (pending_resync ep).
Qed.

Lemma del_fold_rule_chains (known : gset string) (l : list string) h :
  rule_chains (foldl (λ h id, del_step known id h) h l)
  = rule_chains h ∖ list_to_set (filter (λ id, id ∉ known) l).
Proof.
  revert h. induction l as [|id l IH]; intros h; simpl.
  - set_solver.
  - rewrite IH. unfold del_step. rewrite filter_cons.
    destruct (decide (id ∈ known)) as [Hin|Hin].
    + rewrite bool_decide_true by done. rewrite decide_False by tauto. done.
    + rewrite bool_decide_false by done. rewrite decide_True by done.
      simpl. set_solver.
Qed.

Lemma del_fold_effects (known : gset string) (l : list string) h :
  effects (foldl (λ h id, del_step known id h) h l)
  = effects h ++ flat_map (λ id, [Log WARNING; Futils_del_rules id])
                   (filter (λ id, id ∉ known) l).
Proof.
  revert h. induction l as [|id l IH]; intros h; simpl.
  - by rewrite app_nil_r.
  - rewrite IH. unfold del_step. rewrite filter_cons.
    destruct (decide (id ∈ known)) as [Hin|Hin].
    + rewrite bool_decide_true by done. rewrite decide_False by tauto. done.
    + rewrite bool_decide_false by done. rewrite decide_True by done.
      simpl. by rewrite <- !app_assoc.
Qed.

Lemma del_fold_frame (known : gset string) (l : list string) h :
  let h' := foldl (λ h id, del_step known id h) h l in
  clock h' = clock h ∧ uuid_draws h' = uuid_draws h ∧ subscribed h' = subscribed h.
Proof.
  revert h. induction l as [|id l IH]; intros h; simpl; [done|].
  destruct (IH (del_step known id h)) as (-> & -> & ->).
  unfold del_step. by destruct (bool_decide (id ∈ known)).
Qed.

Lemma complete_endpoint_resync_eq (successful : bool) st :
  complete_endpoint_resync successful st
  = Ok (tt, mkState (completion_agent (clock (host st)) (agent st))
                    (completion_host successful (agent st) (host st))).
Proof.
  unfold complete_endpoint_resync, completion_agent, completion_host.
  unfold bind at 1 2 3 4 5. simpl.
  unfold bind at 1.
  destruct successful; simpl.
  - unfold bind at 1. simpl. rewrite remove_loop. simpl.
    unfold bind at 1. simpl. unfold bind at 1. simpl.
    rewrite del_loop. reflexivity.
  - unfold bind at 1. simpl. unfold bind at 1. simpl.
    rewrite del_loop. reflexivity.
Qed.

Lemma removed_rule_chains (successful : bool) (a : FelixAgent) (h : Host) :
  rule_chains (if successful then foldl (λ h ep, remove_step ep h) h (values a) else h)
  = rule_chains h ∖ list_to_set (suffix <$> removed successful a).
Proof.
  destruct successful; simpl.
  - apply remove_fold_rule_chains.
  - set_solver.
Qed.

Lemma completion_host_rule_chains (successful : bool) (a : FelixAgent) (h : Host) (id : string) :
  id ∈ rule_chains (completion_host successful a h)
  ↔ id ∈ rule_chains h ∖ list_to_set (suffix <$> removed successful a) ∧ id ∈ known_ids a.
Proof.
  unfold completion_host. cbv zeta.
  rewrite del_fold_rule_chains. simpl. rewrite removed_rule_chains.
  rewrite elem_of_difference, elem_of_list_to_set, list_elem_of_filter, elem_of_elements.
  split.
  - intros [Hin Hnot]. split; [done|].
    destruct (decide (id ∈ known_ids a)); [done|]. destruct Hnot. done.
  - intros [Hin Hk]. split; [done|]. intros [Hnk _]. done.
Qed.

Lemma completion_host_effects (successful : bool) (a : FelixAgent) (h : Host) :
  effects (completion_host successful a h)
  = effects h ++ (Ep_remove ∘ ep_id <$> removed successful a)
    ++ Futils_list_eps_with_rules
       :: flat_map (λ id, [Log WARNING; Futils_del_rules id])
            (filter (λ id, id ∉ known_ids a)
               (elements (rule_chains h ∖ list_to_set (suffix <$> removed successful a)))).
Proof.
  unfold completion_host. cbv zeta.
  rewrite del_fold_effects. simpl. rewrite removed_rule_chains.
  destruct successful; simpl.
  - rewrite remove_fold_effects. by rewrite <- !app_assoc.
  - by rewrite <- !app_assoc.
Qed.

Lemma completion_host_frame (successful : bool) (a : FelixAgent) (h : Host) :
  let h' := completion_host successful a h in
  clock h' = clock h ∧ uuid_draws h' = uuid_draws h ∧ subscribed h' = subscribed h.
Proof.
  unfold completion_host. cbv zeta.
  match goal with |- context [foldl ?f ?h0 ?l] =>
    destruct (del_fold_frame (known_ids a) l h0) as (-> & -> & ->) end.
  simpl. destruct successful; [|done].
  apply remove_fold_frame.
Qed.

Lemma del_rules_in_effects (l : list string) (id : string) :
  id ∈ l →
  Futils_del_rules id ∈ flat_map (λ id, [Log WARNING; Futils_del_rules id]) l.
Proof.
  intros Hin. apply list_elem_of_In, in_flat_map. exists id.
  split; [by apply list_elem_of_In|]. simpl. tauto.
Qed.

(** ** Completion of a resync *)

(** C10: every completion, successful or not, stamps [resync_time], asks the
    packet filter for the suffixes that have rule chains and calls
    [del_rules] on each of them that no endpoint of the registry owns; a
    failed completion differs only in that it calls [remove()] on no
    endpoint. *)
Theorem completion_always_reconciles (successful : bool) (st : State) :
  ∃ st', returns (complete_endpoint_resync successful) st st' ∧
    resync_id (agent st') = None ∧
    resync_time (agent st') = Some (clock (host st) * 1000)%Q ∧
    effects (host st')
    = effects (host st) ++ (Ep_remove ∘ ep_id <$> removed successful (agent st))
      ++ Futils_list_eps_with_rules
         :: flat_map (λ id, [Log WARNING; Futils_del_rules id])
              (filter (λ id, id ∉ known_ids (agent st))
                 (elements (reported successful st))) ∧
    (∀ id, id ∈ reported successful st → id ∉ known_ids (agent st) →
           Futils_del_rules id ∈ effects (host st') ∧ id ∉ rule_chains (host st')) ∧
    removed false (agent st) = [] ∧
    reported false st = rule_chains (host st).
Proof.
  eexists. split; [apply complete_endpoint_resync_eq|]. simpl.
  split; [done|]. split; [done|].
  split; [apply completion_host_effects|].
  split.
  - intros id Hrep Hknown. split.
    + rewrite completion_host_effects.
      apply elem_of_app; right. apply elem_of_app; right.
      apply list_elem_of_further, del_rules_in_effects.
      apply list_elem_of_filter. split; [done|]. by apply elem_of_elements.
    + rewrite completion_host_rule_chains. tauto.
  - split; [done|]. unfold reported, removed. simpl. set_solver.
Qed.

(** A completion installs no chains: after a successful completion every
    suffix with rule chains belongs to an endpoint of the registry, and the
    two sets are equal when no endpoint was pending and every endpoint of the
    registry had its chains. *)
Lemma completion_rules_within_registry (st : State) :
  ∃ st', returns (complete_endpoint_resync true) st st' ∧
    rule_chains (host st') ⊆ known_ids (agent st') ∧
    (pending (agent st) = [] →
     known_ids (agent st) ⊆ rule_chains (host st) →
     rule_chains (host st') = known_ids (agent st')).
Proof.
  eexists. split; [apply complete_endpoint_resync_eq|]. simpl.
  change (known_ids (completion_agent (clock (host st)) (agent st)))
    with (known_ids (agent st)).
  split.
  - intros id Hin. apply completion_host_rule_chains in Hin. tauto.
  - intros Hnone Hinst. apply set_eq. intros id.
    rewrite completion_host_rule_chains. unfold removed. rewrite Hnone. simpl.
    set_solver.
Qed.

(** C2: the agent is started and goes through two resyncs, in each of which
    the plugin declares the endpoint [e1].  After the first successful
    completion the suffixes with rule chains are those of the registry.  The
    second successful completion calls [remove()] on [e1], which the second
    resync has marked and the ENDPOINTCREATED has not unmarked, and deletes
    no rules: [e1] is in the registry and has no rule chains. *)
Theorem second_completion_leaves_endpoint_without_rules :
  ∃ st1 st2,
    main fixture_suffix 1800 "host1" first_resync (fresh_host []) = Ok (tt, st1) ∧
    resync_id (agent st1) = None ∧
    rule_chains (host st1) = known_ids (agent st1) ∧
    main fixture_suffix 1800 "host1" (first_resync ++ second_resync) (fresh_host [])
    = Ok (tt, st2) ∧
    resync_id (agent st2) = None ∧
    resync_time (agent st2) = Some (1415000005 * 1000)%Q ∧
    [Sock_receive TYPE_EP_REQ; Ep_remove "e1"; Futils_list_eps_with_rules]
      `suffix_of` effects (host st2) ∧
    dom (endpoints (agent st2)) = {["e1"]} ∧
    known_ids (agent st2) = {[fixture_suffix "e1"]} ∧
    rule_chains (host st2) = ∅ ∧
    rule_chains (host st2) ≠ known_ids (agent st2).
Proof.
  eexists. eexists.
  split; [vm_compute; reflexivity|].
  split; [vm_compute; reflexivity|].
  split; [vm_compute; reflexivity|].
  split; [vm_compute; reflexivity|].
  split; [vm_compute; reflexivity|].
  split; [vm_compute; reflexivity|].
  split.
  { match goal with |- _ `suffix_of` ?l => exists (take 22 l) end.
    vm_compute. reflexivity. }
  split; [vm_compute; reflexivity|].
  split; [vm_compute; reflexivity|].
  split; [vm_compute; reflexivity|].
  vm_compute. discriminate.
Qed.

(** C1: in a successful completion the endpoint [e2], still pending, has
    [remove()] called on it, but it stays in the registry, still pending,
    and stays subscribed on the SUB socket. *)
Theorem completion_keeps_pending_endpoint :
  ∃ st', returns (complete_endpoint_resync true) st_prune st' ∧
    effects (host st') = [Ep_remove "e2"; Futils_list_eps_with_rules] ∧
    endpoints (agent st') !! "e2" = Some (fixture_endpoint "e2" true) ∧
    pending (agent st') = [fixture_endpoint "e2" true] ∧
    subscribed (host st') = {["e1"; "e2"]}.
Proof.
  eexists. split; [vm_compute; reflexivity|].
  split; [vm_compute; reflexivity|].
  split; [vm_compute; reflexivity|].
  split; [vm_compute; reflexivity|].
  vm_compute. reflexivity.
Qed.

(** ** Starting a resync *)

(** C6: [resync_endpoints] draws a new identifier, zeroes the counters,
    marks every endpoint of the registry, empties both queues and sends one
    RESYNC request on EP_REQ, or queues it when a request is outstanding. *)
Theorem resync_endpoints_starts_resync (st : State) :
  let rid := uuid4_str (uuid_draws (host st)) in
  let request := RESYNC_request rid (clock (host st)) (hostname (agent st)) in
  ∃ st', returns resync_endpoints st st' ∧
    resync_id (agent st') = Some rid ∧
    rid ≠ "" ∧
    (∀ k, (k < uuid_draws (host st))%nat → uuid4_str k ≠ rid) ∧
    uuid_draws (host st') = S (uuid_draws (host st)) ∧
    resync_recd (agent st') = Some 0 ∧
    resync_expected (agent st') = VInt 0 ∧
    dom (endpoints (agent st')) = dom (endpoints (agent st)) ∧
    (∀ id ep, endpoints (agent st') !! id = Some ep → pending_resync ep = true) ∧
    acl_queue (agent st') = [] ∧
    type request = TYPE_RESYNC ∧
    if request_outstanding (sockets_get TYPE_EP_REQ (sockets (agent st)))
    then endpoint_queue (agent st') = [request] ∧
         effects (host st') = effects (host st)
    else endpoint_queue (agent st') = [] ∧
         effects (host st') = effects (host st) ++ [Send TYPE_EP_REQ request].
Proof.
  intros rid request.
  assert (∀ k, (k < uuid_draws (host st))%nat → uuid4_str k ≠ rid) as Hfresh.
  { intros k Hk Heq. apply uuid4_str_inj in Heq. lia. }
  assert (∀ (eps : gmap string Endpoint) id ep,
            (set_pending_resync true <$> eps) !! id = Some ep →
            pending_resync ep = true) as Hmarked.
  { intros eps id ep. rewrite lookup_fmap.
    destruct (eps !! id); simpl; [|done]. by intros [= <-]. }
  unfold returns, resync_endpoints, send_request.
  unfold bind, uuid_uuid4, bind, hgets, hmodify, modify, gets, ret, time_time, hgets.
  simpl.
  destruct (request_outstanding (ep_req (sockets (agent st)))) eqn:E; simpl.
  - eexists. split; [reflexivity|]. simpl.
    repeat split; try done; try apply uuid4_str_nonempty.
    + apply dom_fmap_L.
    + apply Hmarked.
  - unfold sock_send, bind, hmodify, when, modify. simpl.
    eexists. split; [reflexivity|]. simpl.
    repeat split; try done; try apply uuid4_str_nonempty.
    + apply dom_fmap_L.
    + apply Hmarked.
Qed.

(** ** The RESYNCSTATE reply *)

Lemma eq_str_false (v : value) (s : string) : v ≠ VStr s → eq_str v s = false.
Proof.
  intros Hne. destruct v; simpl; try done.
  apply bool_decide_eq_false. congruence.
Qed.

Lemma eq_str_true (s : string) : eq_str (VStr s) s = true.
Proof. simpl. by apply bool_decide_eq_true. Qed.

Lemma eq_opt_int_spec (n : Z) (o : option Z) :
  eq_opt_int (VInt n) o = bool_decide (o = Some n).
Proof.
  destruct o as [m|]; unfold eq_opt_int, eq_int, is_none.
  - destruct (Z.eqb_spec n m) as [->|Hne].
    + by rewrite bool_decide_true.
    + rewrite bool_decide_false; [done|]. congruence.
  - by rewrite bool_decide_false.
Qed.

(** C4: a RESYNCSTATE reply whose [rc] is not SUCCESS runs the completion
    with [successful = False]; a SUCCESS reply whose [endpoint_count] is zero
    or equals [resync_recd] runs it with [True]; any other SUCCESS reply
    stores [endpoint_count] in [resync_expected] and does nothing else. *)
Theorem handle_resyncstate_cases (message : Message) (st : State)
    (endpoint_count : Z) (rc text : value)
    (Hcount : fields message !! "endpoint_count" = Some (VInt endpoint_count))
    (Hrc : fields message !! "rc" = Some rc)
    (Htext : fields message !! "message" = Some text) :
  (rc ≠ VStr "SUCCESS" →
   handle_resyncstate message st
   = complete_endpoint_resync false (mkState (agent st) (emit (Log ERROR) (host st)))) ∧
  (rc = VStr "SUCCESS" →
   endpoint_count = 0 ∨ resync_recd (agent st) = Some endpoint_count →
   handle_resyncstate message st = complete_endpoint_resync true st) ∧
  (rc = VStr "SUCCESS" →
   endpoint_count ≠ 0 → resync_recd (agent st) ≠ Some endpoint_count →
   handle_resyncstate message st
   = Ok (tt, mkState (set_resync_expected (VInt endpoint_count) (agent st)) (host st))).
Proof.
  unfold handle_resyncstate, bind, field. rewrite Hcount, Hrc, Htext. simpl.
  unfold ret. simpl.
  split; [|split].
  - intros Hne. rewrite eq_str_false by done. reflexivity.
  - intros -> Hdone. rewrite eq_str_true. simpl. unfold gets. simpl.
    rewrite eq_opt_int_spec.
    destruct Hdone as [->|Hrecd].
    + reflexivity.
    + rewrite (bool_decide_true _ Hrecd). by rewrite orb_true_r.
  - intros -> Hnz Hne. rewrite eq_str_true. simpl. unfold gets. simpl.
    rewrite eq_opt_int_spec, (bool_decide_false _ Hne).
    destruct (Z.eqb_spec endpoint_count 0) as [?|_]; [done|]. reflexivity.
Qed.

Lemma handle_resyncstate_cases_witness :
  handle_resyncstate (RESYNC_reply "SUCCESS" 1) st_prune
  = complete_endpoint_resync true st_prune
  ∧ handle_resyncstate (RESYNC_reply "SUCCESS" 2) st_prune
    = Ok (tt, mkState (set_resync_expected (VInt 2) (agent st_prune)) (host st_prune))
  ∧ handle_resyncstate (RESYNC_reply "REFUSED" 1) st_prune
    = complete_endpoint_resync false
        (mkState (agent st_prune) (emit (Log ERROR) (host st_prune))).
Proof.
  split; [|split].
  - apply (handle_resyncstate_cases (RESYNC_reply "SUCCESS" 1) st_prune 1
             (VStr "SUCCESS") (VStr "")); try reflexivity.
    right. reflexivity.
  - apply (handle_resyncstate_cases (RESYNC_reply "SUCCESS" 2) st_prune 2
             (VStr "SUCCESS") (VStr "")); try reflexivity; discriminate.
  - apply (handle_resyncstate_cases (RESYNC_reply "REFUSED" 1) st_prune 1
             (VStr "REFUSED") (VStr "")); try reflexivity; discriminate.
Defined.

(** ** ENDPOINTCREATED *)

Lemma send_request_eq (message : Message) (t : SocketType) st :
  t ∈ REQUEST_TYPES →
  send_request message t st = Ok (tt, requested message t st).
Proof.
  intros Ht. unfold send_request, requested.
  rewrite (bool_decide_true _ Ht). simpl.
  unfold bind, gets. simpl.
  destruct (request_outstanding (sockets_get t (sockets (agent st)))); simpl.
  - by destruct (bool_decide (t = TYPE_EP_REQ)).
  - unfold sock_send, bind, hmodify, when. simpl.
    by rewrite (bool_decide_true _ Ht).
Qed.

Lemma _create_endpoint_eq (endpoint_suffix : string → string) id mac st :
  _create_endpoint endpoint_suffix id mac st
  = Ok (id, created endpoint_suffix id mac st).
Proof.
  unfold _create_endpoint, created.
  unfold bind at 1. simpl. unfold bind at 1.
  unfold zmq_subscribe, bind at 1. simpl. unfold bind at 1. simpl.
  unfold bind at 1. rewrite send_request_eq by (unfold REQUEST_TYPES; set_solver).
  reflexivity.
Qed.

Lemma _update_endpoint_eq id f mac state addrs st :
  update_fields f mac state addrs →
  _update_endpoint id f st = Ok (tt, updated id mac addrs st).
Proof.
  intros (Hmac & Hamac & Hstate & Hastate & Haddrs).
  unfold _update_endpoint, updated, bind, field, encode_ascii, iterate.
  rewrite Hmac. simpl. rewrite Hamac. simpl.
  rewrite Hstate. simpl. rewrite Hastate. simpl.
  rewrite Haddrs. simpl.
  destruct (alter _ id _ !! id); reflexivity.
Qed.

Lemma sock_send_rep_eq (message : Message) st :
  sock_send TYPE_EP_REP message st
  = Ok (tt, mkState (agent st) (emit (Send TYPE_EP_REP message) (host st))).
Proof.
  unfold sock_send, bind, hmodify, when.
  rewrite bool_decide_false by (unfold REQUEST_TYPES; set_solver).
  reflexivity.
Qed.

Lemma handle_endpointcreated_eq (endpoint_suffix : string → string)
    (message : Message) (id : string) (rid issued : value)
    (mac state : string) (addrs : list value) st :
  fields message !! "endpoint_id" = Some (VStr id) →
  fields message !! "resync_id" = Some rid →
  fields message !! "issued" = Some issued →
  update_fields (fields message) mac state addrs →
  handle_endpointcreated endpoint_suffix message st
  = let st1 := stored endpoint_suffix id rid mac addrs st in
    if resync_in_progress rid (agent st1) then counted st1 else Ok (tt, st1).
Proof.
  intros Hid Hrid Hissued Hupd.
  pose proof Hupd as (Hmac & _).
  unfold handle_endpointcreated, stored, declared.
  unfold bind at 1, field. rewrite Hid. unfold ret at 1.
  unfold bind at 1. rewrite Hrid. unfold ret at 1.
  unfold bind at 1. rewrite Hissued. unfold ret at 1.
  unfold bind at 1. rewrite Hmac. unfold ret at 1.
  unfold bind at 1, gets at 1.
  unfold bind at 1.
  assert (∀ st0, _update_endpoint id (fields message) st0
                 = Ok (tt, updated id mac addrs st0)) as Hup.
  { intros st0. by apply _update_endpoint_eq with state. }
  assert (∀ st1 : State,
    (bind (_update_endpoint id (fields message)) (λ _,
      bind (sock_send TYPE_EP_REP (new_Message TYPE_EP_CR SUCCESS_reply)) (λ _,
      bind (gets resync_id) (λ active,
      bind (if truthy rid && eq_opt_str rid active
            then bind (gets resync_recd) (λ recd,
                   match recd with
                   | Some n => modify (set_resync_recd (Some (n + 1)))
                   | None => raise TypeError
                   end)
            else ret tt) (λ _,
      bind (gets resync_expected) (λ expected,
      bind (gets resync_recd) (λ recd,
        when (truthy rid && eq_opt_str rid active
              && (truthy expected && eq_opt_int expected recd))
          (complete_endpoint_resync true)))))))) st1
    = if resync_in_progress rid (agent (replied (updated id mac addrs st1)))
      then counted (replied (updated id mac addrs st1))
      else Ok (tt, replied (updated id mac addrs st1))) as Htail.
  { intros st1. unfold bind at 1. rewrite Hup.
    unfold bind at 1. rewrite sock_send_rep_eq.
    fold (replied (updated id mac addrs st1)).
    generalize (replied (updated id mac addrs st1)). intros st2.
    unfold bind at 1, gets at 1. unfold resync_in_progress, counted.
    destruct (truthy rid && eq_opt_str rid (resync_id (agent st2))) eqn:Hprog.
    - unfold bind at 1. unfold bind at 1, gets at 1.
      destruct (resync_recd (agent st2)) as [n|] eqn:Hrecd; [|reflexivity].
      unfold modify at 1. unfold bind at 1, gets at 1. unfold bind at 1, gets at 1.
      simpl. unfold when.
      destruct (truthy (resync_expected (agent st2))
                && eq_int (resync_expected (agent st2)) (n + 1));
        reflexivity.
    - unfold bind at 1, ret at 1. unfold bind at 1, gets at 1.
      unfold bind at 1, gets at 1. simpl. unfold when, ret. reflexivity. }
  cbv zeta.
  destruct (endpoints (agent st) !! id) as [ep|] eqn:Hep.
  - destruct (is_none rid); rewrite <- Htail; reflexivity.
  - rewrite _create_endpoint_eq. rewrite Htail. reflexivity.
Qed.

Lemma stored_resync_fields (endpoint_suffix : string → string) id rid mac addrs st :
  let a' := agent (stored endpoint_suffix id rid mac addrs st) in
  resync_id a' = resync_id (agent st) ∧
  resync_recd a' = resync_recd (agent st) ∧
  resync_expected a' = resync_expected (agent st) ∧
  resync_time a' = resync_time (agent st).
Proof.
  unfold stored, replied, updated, declared, created, requested. simpl.
  destruct (endpoints (agent st) !! id); [by destruct (is_none rid)|].
  simpl. by destruct (request_outstanding (acl_req (sockets (agent st)))).
Qed.

Lemma declared_endpoints (endpoint_suffix : string → string) id rid mac st :
  endpoints (agent (declared endpoint_suffix id rid mac st))
  = match endpoints (agent st) !! id with
    | Some _ => endpoints (agent st)
    | None => <[id := new_Endpoint endpoint_suffix id mac]> (endpoints (agent st))
    end.
Proof.
  unfold declared, created, requested.
  destruct (endpoints (agent st) !! id); [by destruct (is_none rid)|].
  simpl. by destruct (request_outstanding (acl_req (sockets (agent st)))).
Qed.

Lemma declared_effects (endpoint_suffix : string → string) id rid mac st :
  ∃ pre, effects (host (declared endpoint_suffix id rid mac st)) = effects (host st) ++ pre ∧
    (pre = [] ∨ pre = [Log WARNING] ∨ pre = [SUBSCRIBE id] ∨
     pre = [SUBSCRIBE id; Send TYPE_ACL_REQ (GET_ACL_request id (clock (host st)))]).
Proof.
  unfold declared, created, requested.
  destruct (endpoints (agent st) !! id).
  - destruct (is_none rid); simpl.
    + exists []. rewrite app_nil_r. tauto.
    + exists [Log WARNING]. tauto.
  - simpl. destruct (request_outstanding (acl_req (sockets (agent st)))); simpl.
    + exists [SUBSCRIBE id]. tauto.
    + exists [SUBSCRIBE id; Send TYPE_ACL_REQ (GET_ACL_request id (clock (host st)))].
      rewrite <- app_assoc. tauto.
Qed.

(** The endpoint that the message is about, as [stored] leaves it. *)
Lemma stored_endpoint (endpoint_suffix : string → string) id rid mac addrs st :
  let ep0 := default (new_Endpoint endpoint_suffix id (VStr mac)) (endpoints (agent st) !! id) in
  let ep := set_mac (VStr mac) (set_addresses addrs ep0) in
  let st' := stored endpoint_suffix id rid mac addrs st in
  endpoints (agent st') !! id = Some ep ∧
  (∀ j, j ≠ id → endpoints (agent st') !! j = endpoints (agent st) !! j) ∧
  ∃ pre, effects (host st')
         = effects (host st) ++ pre
           ++ [Ep_program_endpoint (ep_id ep);
               Send TYPE_EP_REP (new_Message TYPE_EP_CR SUCCESS_reply)] ∧
    (pre = [] ∨ pre = [Log WARNING] ∨ pre = [SUBSCRIBE id] ∨
     pre = [SUBSCRIBE id; Send TYPE_ACL_REQ (GET_ACL_request id (clock (host st)))]).
Proof.
  intros ep0 ep st'.
  assert (endpoints (agent (declared endpoint_suffix id rid (VStr mac) st)) !! id = Some ep0)
    as Hdecl.
  { rewrite declared_endpoints. unfold ep0.
    destruct (endpoints (agent st) !! id) eqn:E; simpl; [done|].
    by rewrite lookup_insert_eq. }
  assert (endpoints (agent st') !! id = Some ep) as Hep.
  { unfold st', stored, replied, updated. simpl.
    rewrite !lookup_alter_eq, Hdecl. reflexivity. }
  split; [exact Hep|]. split.
  - intros j Hj. unfold st', stored, replied, updated. simpl.
    rewrite !lookup_alter_ne by done. rewrite declared_endpoints.
    destruct (endpoints (agent st) !! id); [done|]. by rewrite lookup_insert_ne.
  - destruct (declared_effects endpoint_suffix id rid (VStr mac) st) as (pre & Hpre & Hshape).
    exists pre. split; [|exact Hshape].
    unfold st', stored, replied, updated. simpl.
    rewrite !lookup_alter_eq, Hdecl. simpl. rewrite Hpre.
    rewrite <- !app_assoc. reflexivity.
Qed.

Lemma stale_not_in_progress (rid : value) (a : FelixAgent) :
  (∀ r, resync_id a = Some r → rid ≠ VStr r) →
  resync_in_progress rid a = false.
Proof.
  intros Hstale. unfold resync_in_progress.
  destruct (resync_id a) as [r|]; simpl.
  - rewrite eq_str_false; [apply andb_false_r|]. by apply Hstale.
  - destruct rid; simpl; try reflexivity; apply andb_false_r.
Qed.

(** C5: an ENDPOINTCREATED whose [resync_id] is not that of a resync in
    progress is handled as an update: the endpoint is in the registry with
    the new data, the reply is the last thing sent, and the resync state
    is as before, so nothing was counted and no completion ran. *)
Theorem stale_created_is_plain_update (endpoint_suffix : string → string)
    (message : Message) (id : string) (rid issued : value)
    (mac_str state_str : string) (addrs : list value) (st : State)
    (Hid : fields message !! "endpoint_id" = Some (VStr id))
    (Hrid : fields message !! "resync_id" = Some rid)
    (Hissued : fields message !! "issued" = Some issued)
    (Hupdate : update_fields (fields message) mac_str state_str addrs)
    (Hstale : ∀ r, resync_id (agent st) = Some r → rid ≠ VStr r) :
  ∃ st', returns (handle_endpointcreated endpoint_suffix message) st st' ∧
    resync_id (agent st') = resync_id (agent st) ∧
    resync_recd (agent st') = resync_recd (agent st) ∧
    resync_expected (agent st') = resync_expected (agent st) ∧
    resync_time (agent st') = resync_time (agent st) ∧
    (∃ ep, endpoints (agent st') !! id = Some ep ∧
           mac ep = VStr mac_str ∧ addresses ep = addrs ∧
           ∃ pre, effects (host st')
                  = effects (host st) ++ pre
                    ++ [Ep_program_endpoint (ep_id ep);
                        Send TYPE_EP_REP (new_Message TYPE_EP_CR SUCCESS_reply)] ∧
             (pre = [] ∨ pre = [Log WARNING] ∨ pre = [SUBSCRIBE id] ∨
              pre = [SUBSCRIBE id;
                     Send TYPE_ACL_REQ (GET_ACL_request id (clock (host st)))])).
Proof.
  exists (stored endpoint_suffix id rid mac_str addrs st).
  destruct (stored_resync_fields endpoint_suffix id rid mac_str addrs st)
    as (Hrid' & Hrecd & Hexp & Htime).
  split.
  - unfold returns.
    rewrite (handle_endpointcreated_eq endpoint_suffix message id rid issued
               mac_str state_str addrs) by done.
    cbv zeta. rewrite stale_not_in_progress; [done|]. by rewrite Hrid'.
  - repeat (split; [done|]).
    destruct (stored_endpoint endpoint_suffix id rid mac_str addrs st) as (Hep & _ & Heff).
    eexists. split; [exact Hep|]. split; [done|]. split; [done|]. exact Heff.
Qed.

Lemma stale_created_is_plain_update_witness :
  ∃ st', returns (handle_endpointcreated fixture_suffix (ENDPOINTCREATED "e2" (VStr "R0")))
           (st_collecting 2) st' ∧
    resync_id (agent st') = Some "R1" ∧
    resync_recd (agent st') = Some 0 ∧
    resync_time (agent st') = None ∧
    is_Some (endpoints (agent st') !! "e2").
Proof.
  destruct (stale_created_is_plain_update fixture_suffix
              (ENDPOINTCREATED "e2" (VStr "R0")) "e2" (VStr "R0")
              (VFloat 1415000000000%Q) "aa:bb:cc:00:00:01" "enabled" [VStr "10.0.0.1"]
              (st_collecting 2))
    as (st' & Hret & Hid & Hrecd & _ & Htime & ep & Hep & _).
  - reflexivity.
  - reflexivity.
  - reflexivity.
  - repeat split; reflexivity.
  - intros r [= <-]. discriminate.
  - exists st'. split; [exact Hret|]. split; [exact Hid|]. split; [exact Hrecd|].
    split; [exact Htime|]. exists ep. exact Hep.
Defined.

(** C3: an ENDPOINTCREATED of the resync in progress, for an endpoint that
    the resync has marked, is counted, but the endpoint's [pending_resync]
    stays set.  When the message is the last one expected, the completion
    that it triggers therefore calls [remove()] on this very endpoint. *)
Theorem created_leaves_pending_resync :
  (∃ st', returns (handle_endpointcreated fixture_suffix (ENDPOINTCREATED "e1" (VStr "R1")))
            (st_collecting 2) st' ∧
     resync_recd (agent st') = Some 1 ∧
     pending_resync <$> endpoints (agent st') !! "e1" = Some true) ∧
  (∃ st', returns (handle_endpointcreated fixture_suffix (ENDPOINTCREATED "e1" (VStr "R1")))
            (st_collecting 1) st' ∧
     resync_id (agent st') = None ∧
     pending_resync <$> endpoints (agent st') !! "e1" = Some true ∧
     effects (host st')
     = [Log WARNING; Ep_program_endpoint "e1";
        Send TYPE_EP_REP (new_Message TYPE_EP_CR SUCCESS_reply);
        Ep_remove "e1"; Futils_list_eps_with_rules] ∧
     rule_chains (host st') = ∅).
Proof.
  split.
  - eexists. split; [vm_compute; reflexivity|].
    split; vm_compute; reflexivity.
  - eexists. split; [vm_compute; reflexivity|].
    repeat split; vm_compute; reflexivity.
Qed.

(** ** ACLUPDATE *)

Lemma handle_aclupdate_unknown (message : Message) (id : string) st :
  endpoint_id message = Some id →
  endpoints (agent st) !! id = None →
  handle_aclupdate message st = Raise KeyError.
Proof.
  intros Hid Hnone. unfold handle_aclupdate, bind, gets.
  by rewrite Hid, Hnone.
Qed.

(** C8: an ACLUPDATE for [e9], which the registry does not hold, makes the
    handler raise [KeyError]; nothing catches it, so [run] ends with it. *)
Theorem aclupdate_unknown_endpoint_raises :
  endpoints (agent st_stale_rules) !! "e9" = None ∧
  handle_aclupdate (ACLUPDATE "e9") st_stale_rules = Raise KeyError ∧
  dispatch fixture_suffix (ACLUPDATE "e9") st_stale_rules = Raise KeyError ∧
  run fixture_suffix 1800
    [one_message 1415000001 TYPE_ACL_SUB (ACLUPDATE "e9")] st_stale_rules
  = Raise KeyError.
Proof.
  repeat split; vm_compute; reflexivity.
Qed.

(** ** Messages that are handled without an exception *)

Lemma same_resync_consistent (a a' : FelixAgent) :
  same_resync a a' → consistent a → consistent a'.
Proof. intros (Hid & Hrecd & Htime) [H1 H2]. split; rewrite Hid, ?Hrecd, ?Htime; done. Qed.

Lemma same_resync_refl (a : FelixAgent) : same_resync a a.
Proof. done. Qed.

Lemma present_spec (f : gmap string value) (key : string) :
  present f key = true → ∃ v, f !! key = Some v.
Proof. intros H. apply bool_decide_eq_true in H. exact H. Qed.

Lemma ascii_string_spec (o : option value) :
  ascii_string o = true → ∃ s, o = Some (VStr s) ∧ is_ascii s = true.
Proof. destruct o as [[]|]; simpl; try done. eauto. Qed.

Lemma update_fields_ok_spec (f : gmap string value) :
  update_fields_ok f = true → ∃ mac_str state_str addrs, update_fields f mac_str state_str addrs.
Proof.
  unfold update_fields_ok. rewrite !andb_true_iff.
  intros [[Hmac Hstate] Haddrs].
  apply ascii_string_spec in Hmac as (m & Hm & Ham).
  apply ascii_string_spec in Hstate as (s & Hs & Has).
  apply bool_decide_eq_true in Haddrs as [l Hl].
  exists m, s, l. done.
Qed.

Lemma handle_heartbeat_eq (message : Message) st :
  handle_heartbeat message st
  = Ok (tt, mkState (agent st) (emit (Send TYPE_EP_REP (new_Message TYPE_HEARTBEAT ∅)) (host st))).
Proof. apply sock_send_rep_eq. Qed.

Lemma handle_endpointupdated_eq (message : Message) (id : string) (issued : value)
    (mac_str state_str : string) (addrs : list value) st :
  fields message !! "endpoint_id" = Some (VStr id) →
  fields message !! "issued" = Some issued →
  is_Some (endpoints (agent st) !! id) →
  update_fields (fields message) mac_str state_str addrs →
  handle_endpointupdated message st = Ok (tt, replied (updated id mac_str addrs st)).
Proof.
  intros Hid Hissued [ep Hep] Hupd.
  unfold handle_endpointupdated, bind, field, gets. rewrite Hid, Hissued. simpl.
  rewrite Hep. simpl.
  rewrite (_update_endpoint_eq id (fields message) mac_str state_str addrs) by done.
  rewrite sock_send_rep_eq. reflexivity.
Qed.

Lemma handle_endpointdestroyed_ok (message : Message) (v issued : value) st :
  fields message !! "endpoint_id" = Some v →
  hashable v = true →
  fields message !! "issued" = Some issued →
  ∃ st', returns (handle_endpointdestroyed message) st st' ∧
    same_resync (agent st) (agent st') ∧
    (absent (agent st) v → st' = logged ERROR st).
Proof.
  intros Hid Hhash Hissued.
  unfold returns, handle_endpointdestroyed, bind, field, gets.
  rewrite Hid, Hissued. simpl.
  destruct v; try done; try (by eexists; split; [reflexivity|]).
  destruct (endpoints (agent st) !! s) as [ep|] eqn:Hep.
  - eexists. split; [reflexivity|]. split; [done|].
    simpl. congruence.
  - eexists. split; [reflexivity|]. done.
Qed.

Lemma handle_resyncstate_ok (message : Message) st :
  present (fields message) "endpoint_count" = true →
  present (fields message) "rc" = true →
  present (fields message) "message" = true →
  ∃ st', returns (handle_resyncstate message) st st' ∧
    (same_resync (agent st) (agent st') ∨
     (resync_id (agent st') = None ∧ is_Some (resync_time (agent st')))).
Proof.
  intros (count & Hcount)%present_spec (rc & Hrc)%present_spec (text & Htext)%present_spec.
  unfold returns, handle_resyncstate, bind, field.
  rewrite Hcount, Hrc, Htext. simpl. unfold ret.
  destruct (eq_str rc "SUCCESS"); simpl.
  - unfold gets. simpl.
    destruct (negb (truthy count) || eq_opt_int count (resync_recd (agent st))).
    + rewrite complete_endpoint_resync_eq. eexists. split; [reflexivity|].
      right. simpl. eauto.
    + eexists. split; [reflexivity|]. by left.
  - rewrite complete_endpoint_resync_eq. eexists. split; [reflexivity|].
    right. simpl. eauto.
Qed.

Lemma handle_getaclstate_ok (message : Message) st :
  present (fields message) "rc" = true →
  present (fields message) "message" = true →
  ∃ st', returns (handle_getaclstate message) st st' ∧ agent st' = agent st.
Proof.
  intros (rc & Hrc)%present_spec (text & Htext)%present_spec.
  unfold returns, handle_getaclstate, bind, field. rewrite Hrc, Htext. simpl.
  unfold when. destruct (eq_str rc "SUCCESS"); simpl; eexists; split; reflexivity.
Qed.

Lemma handle_aclupdate_ok (message : Message) (id : string) st :
  endpoint_id message = Some id →
  is_Some (endpoints (agent st) !! id) →
  present (fields message) "acls" = true →
  ∃ st', returns (handle_aclupdate message) st st' ∧ agent st' = agent st.
Proof.
  intros Hid [ep Hep] (acls & Hacls)%present_spec.
  unfold returns, handle_aclupdate, bind, gets, field. rewrite Hid, Hep, Hacls. simpl.
  eexists. split; reflexivity.
Qed.

Lemma updated_same_resync id mac_str addrs st :
  same_resync (agent st) (agent (replied (updated id mac_str addrs st))).
Proof. done. Qed.

Lemma handle_endpointcreated_ok (endpoint_suffix : string → string)
    (message : Message) (id : string) st :
  fields message !! "endpoint_id" = Some (VStr id) →
  present (fields message) "resync_id" = true →
  present (fields message) "issued" = true →
  update_fields_ok (fields message) = true →
  consistent (agent st) →
  ∃ st', returns (handle_endpointcreated endpoint_suffix message) st st' ∧
    consistent (agent st').
Proof.
  intros Hid (rid & Hrid)%present_spec (issued & Hissued)%present_spec
    (mac_str & state_str & addrs & Hupd)%update_fields_ok_spec Hcons.
  unfold returns.
  rewrite (handle_endpointcreated_eq endpoint_suffix message id rid issued
             mac_str state_str addrs) by done.
  cbv zeta.
  destruct (stored_resync_fields endpoint_suffix id rid mac_str addrs st)
    as (Hrid' & Hrecd & Hexp & Htime).
  set (st1 := stored endpoint_suffix id rid mac_str addrs st) in *.
  assert (consistent (agent st1)) as Hcons1.
  { apply (same_resync_consistent (agent st)); done. }
  clearbody st1.
  destruct (resync_in_progress rid (agent st1)) eqn:Hprog.
  - unfold resync_in_progress in Hprog. apply andb_true_iff in Hprog as [Htruthy Hactive].
    destruct (resync_id (agent st1)) as [r|] eqn:Hr.
    + destruct Hcons1 as [Hsome _]. destruct Hsome as [n Hn]; [by rewrite Hr; eauto|].
      unfold counted. rewrite Hn. cbv zeta.
      destruct (truthy _ && eq_opt_int _ _).
      * rewrite complete_endpoint_resync_eq. eexists. split; [reflexivity|].
        split; simpl; [by intros [? [=]]|eauto].
      * eexists. split; [reflexivity|]. split; simpl; [eauto|].
        rewrite Hr. done.
    + unfold eq_opt_str in Hactive. by destruct rid.
  - eexists. split; [reflexivity|]. exact Hcons1.
Qed.

Lemma field_cases (f : gmap string value) (key : string) st :
  (∃ v, f !! key = Some v ∧ field f key st = Ok (v, st)) ∨
  (f !! key = None ∧ field f key st = @Raise (value * State) KeyError).
Proof. unfold field. destruct (f !! key); [left; eauto|right; done]. Qed.

Lemma missing_required_field_raises (endpoint_suffix : string → string)
    (message : Message) (key : string) st :
  key ∈ required (type message) →
  fields message !! key = None →
  dispatch endpoint_suffix message st = Raise KeyError.
Proof.
  intros Hkey Hnone. unfold dispatch, handlers.
  destruct (type message); simpl in Hkey;
    repeat (apply elem_of_cons in Hkey as [->|Hkey]); try (by apply elem_of_nil in Hkey).
  all: unfold handle_endpointcreated, handle_endpointupdated, handle_endpointdestroyed,
         handle_resyncstate, handle_getaclstate.
  all: repeat (unfold bind at 1;
               match goal with
               | |- context [field ?f ?k ?s] =>
                   destruct (field_cases f k s) as [(? & ? & ->)|[? ->]];
                   [|reflexivity]
               end).
  all: congruence.
Qed.

Lemma dispatch_well_formed (endpoint_suffix : string → string)
    (message : Message) (st : State) :
  well_formed (agent st) message = true → consistent (agent st) →
  ∃ st', returns (dispatch endpoint_suffix message) st st' ∧
    consistent (agent st') ∧
    (type message = TYPE_EP_RM →
     ∀ v, fields message !! "endpoint_id" = Some v → absent (agent st) v →
          st' = logged ERROR st).
Proof.
  intros Hwf Hcons. unfold well_formed in Hwf. unfold returns, dispatch.
  destruct (type message) eqn:Htype; cbn [handlers].
  - rewrite handle_heartbeat_eq. eexists. split; [reflexivity|]. done.
  - destruct (fields message !! "endpoint_id") as [[]|] eqn:Hid; try done.
    apply andb_true_iff in Hwf as [[Hrid Hissued]%andb_true_iff Hupd].
    destruct (handle_endpointcreated_ok endpoint_suffix message s st)
      as (st' & Hret & Hcons'); try done.
    exists st'. done.
  - destruct (fields message !! "endpoint_id") as [[]|] eqn:Hid; try done.
    apply andb_true_iff in Hwf as [[Hknown Hissued]%andb_true_iff Hupd].
    apply present_spec in Hissued as (issued & Hissued).
    apply update_fields_ok_spec in Hupd as (mac_str & state_str & addrs & Hupd).
    apply bool_decide_eq_true in Hknown.
    rewrite (handle_endpointupdated_eq message s issued mac_str state_str addrs) by done.
    eexists. split; [reflexivity|]. split; [|done].
    by apply (same_resync_consistent (agent st)).
  - destruct (fields message !! "endpoint_id") as [v|] eqn:Hid; try done.
    apply andb_true_iff in Hwf as [Hhash (issued & Hissued)%present_spec].
    destruct (handle_endpointdestroyed_ok message v issued st)
      as (st' & Hret & Hsame & Hlog); try done.
    exists st'. split; [done|]. split.
    + by apply (same_resync_consistent (agent st)).
    + intros _ v' [= <-]. exact Hlog.
  - apply andb_true_iff in Hwf as [[Hcount Hrc]%andb_true_iff Htext].
    destruct (handle_resyncstate_ok message st) as (st' & Hret & Hres); try done.
    exists st'. split; [done|]. split; [|done].
    destruct Hres as [Hsame|[Hnone Htime]].
    + by apply (same_resync_consistent (agent st)).
    + split; [|done]. rewrite Hnone. by intros [? [=]].
  - apply andb_true_iff in Hwf as [Hrc Htext].
    destruct (handle_getaclstate_ok message st) as (st' & Hret & Hagent); try done.
    exists st'. split; [done|]. by rewrite Hagent.
  - destruct (endpoint_id message) as [id|] eqn:Hid; try done.
    apply andb_true_iff in Hwf as [Hknown Hacls].
    apply bool_decide_eq_true in Hknown.
    destruct (handle_aclupdate_ok message id st) as (st' & Hret & Hagent); try done.
    exists st'. split; [done|]. by rewrite Hagent.
  - done.
Qed.

(** C9 (as amended): a well-formed message is handled without an exception,
    and an ENDPOINTDESTROYED for an identifier that the registry does not hold
    is only logged; a message that lacks one of the fields its handler reads
    first makes the handler raise [KeyError]. *)
Theorem well_formed_message_is_handled (endpoint_suffix : string → string)
    (message : Message) (st : State) :
  (well_formed (agent st) message = true → consistent (agent st) →
   ∃ st', returns (dispatch endpoint_suffix message) st st' ∧
     consistent (agent st') ∧
     (type message = TYPE_EP_RM →
      ∀ v, fields message !! "endpoint_id" = Some v → absent (agent st) v →
           st' = logged ERROR st)) ∧
  (∀ key, key ∈ required (type message) → fields message !! key = None →
          dispatch endpoint_suffix message st = Raise KeyError).
Proof.
  split.
  - apply dispatch_well_formed.
  - intros key. apply missing_required_field_raises.
Qed.

Lemma well_formed_message_is_handled_witness :
  (∃ st', returns (dispatch fixture_suffix (ENDPOINTDESTROYED "e9")) st_stale_rules st' ∧
          st' = logged ERROR st_stale_rules) ∧
  dispatch fixture_suffix (ENDPOINTDESTROYED_no_issued "e1") st_stale_rules = Raise KeyError.
Proof.
  split.
  - destruct (well_formed_message_is_handled fixture_suffix (ENDPOINTDESTROYED "e9")
                st_stale_rules) as [Hok _].
    destruct Hok as (st' & Hret & _ & Hlog).
    + reflexivity.
    + split; [intros _; exists 1; reflexivity|discriminate].
    + exists st'. split; [exact Hret|].
      apply (Hlog eq_refl (VStr "e9")); reflexivity.
  - destruct (well_formed_message_is_handled fixture_suffix
                (ENDPOINTDESTROYED_no_issued "e1") st_stale_rules) as [_ Hraise].
    apply (Hraise "issued").
    + apply (bool_decide_unpack _). vm_compute. exact I.
    + reflexivity.
Defined.

(** C9 (as stated) fails: an ENDPOINTDESTROYED without its [issued] field
    makes the handler raise [KeyError], and the loop ends with it. *)
Lemma missing_field_ends_the_loop :
  dispatch fixture_suffix (ENDPOINTDESTROYED_no_issued "e1") st_stale_rules
  = Raise KeyError ∧
  run fixture_suffix 1800
    [one_message 1415000001 TYPE_EP_REP (ENDPOINTDESTROYED_no_issued "e1")]
    st_stale_rules
  = Raise KeyError.
Proof. split; vm_compute; reflexivity. Qed.

(** ENDPOINTUPDATED for an identifier that the registry does not hold
    raises as well, unlike ENDPOINTDESTROYED, which catches the [KeyError]. *)
Example endpointupdated_unknown_endpoint_raises :
  dispatch fixture_suffix (ENDPOINTUPDATED "e9") st_stale_rules = Raise KeyError ∧
  dispatch fixture_suffix (ENDPOINTDESTROYED "e9") st_stale_rules
  = Ok (tt, logged ERROR st_stale_rules).
Proof. split; vm_compute; reflexivity. Qed.

(** ** The periodic resync *)

(** An iteration in which nothing arrives, no socket has timed out and the
    queues are empty does only the check for the periodic resync: it compares
    the clock, in seconds, with [resync_time]. *)
Lemma quiet_iteration_eq (endpoint_suffix : string → string) (RESYNC_INT_SEC : Q)
    (now last : Q) st :
  resync_id (agent st) = None →
  resync_time (agent st) = Some last →
  endpoint_queue (agent st) = [] →
  acl_queue (agent st) = [] →
  run_iteration endpoint_suffix RESYNC_INT_SEC (quiet now) st
  = if Qgtb (now - last)%Q RESYNC_INT_SEC
    then resync_endpoints (at_time now st)
    else Ok (tt, at_time now st).
Proof.
  intros Hid Htime Hepq Haclq.
  unfold run_iteration, quiet, at_time. simpl.
  unfold bind, hmodify, gets, when, ret, time_time, hgets. simpl.
  rewrite Hepq. simpl. rewrite Haclq. simpl. rewrite Hid. simpl. rewrite Htime.
  destruct (Qgtb (now - last) RESYNC_INT_SEC); reflexivity.
Qed.

(** C7: a resync completes when the clock reads 1415000000 s; 1801 s later,
    with [RESYNC_INT_SEC] = 1800 and no resync in progress, the loop does not
    start a resync: [resync_time] holds milliseconds and is subtracted from
    seconds.  The resync starts only when the clock reads more than
    1415000000000 + 1800. *)
Theorem periodic_resync_not_started :
  ∃ st1 st2 st3,
    returns (complete_endpoint_resync true) st_stale_rules st1 ∧
    resync_id (agent st1) = None ∧
    resync_time (agent st1) = Some (1415000000 * 1000)%Q ∧
    returns (run_iteration fixture_suffix 1800 (quiet (1415000000 + 1801))) st1 st2 ∧
    resync_id (agent st2) = None ∧
    effects (host st2) = effects (host st1) ∧
    returns (run_iteration fixture_suffix 1800 (quiet (1415000000000 + 1801))) st1 st3 ∧
    resync_id (agent st3) = Some (uuid4_str 1).
Proof.
  eexists _, _, _.
  split; [vm_compute; reflexivity|].
  split; [reflexivity|]. split; [reflexivity|].
  split; [vm_compute; reflexivity|].
  split; [reflexivity|]. split; [reflexivity|].
  split; [vm_compute; reflexivity|].
  vm_compute. reflexivity.
Qed.

(** ** The loop does not raise on well-formed messages *)

Lemma wp_bind {A B} (m : M A) (k : A → M B) (Q : B → State → Prop) st :
  wp m (λ a st', wp (k a) Q st') st → wp (bind m k) Q st.
Proof. unfold wp, bind. by destruct (m st) as [[a st']|]. Qed.

Lemma wp_ret {A} (a : A) (Q : A → State → Prop) st : Q a st → wp (ret a) Q st.
Proof. done. Qed.

Lemma wp_mono {A} (m : M A) (Q Q' : A → State → Prop) st :
  (∀ a s, Q a s → Q' a s) → wp m Q st → wp m Q' st.
Proof. intros HQ. unfold wp. destruct (m st) as [[a st']|]; [apply HQ|done]. Qed.

Lemma wp_returns (m : M unit) (Q : unit → State → Prop) st :
  wp m Q st ↔ ∃ st', returns m st st' ∧ Q tt st'.
Proof.
  unfold wp, returns. destruct (m st) as [[[] st']|].
  - split; [eauto|]. by intros (? & [= <-] & ?).
  - split; [done|]. by intros (? & ? & ?).
Qed.

Lemma wp_of_eq {A} (m : M A) (a : A) (Q : A → State → Prop) st st' :
  m st = Ok (a, st') → Q a st' → wp m Q st.
Proof. intros Heq HQ. unfold wp. by rewrite Heq. Qed.

Lemma wp_for_each {A} (I : State → Prop) (body : A → M unit) (l : list A) st :
  (∀ x s, I s → wp (body x) (λ _, I) s) → I st → wp (for_each l body) (λ _, I) st.
Proof.
  intros Hbody. revert st. induction l as [|x l IH]; intros st Hst; simpl.
  - by apply wp_ret.
  - apply wp_bind. apply (wp_mono _ (λ _, I)); [|by apply Hbody].
    intros _ s Hs. by apply IH.
Qed.

Lemma wp_when (b : bool) (m : M unit) (Q : unit → State → Prop) st :
  (b = true → wp m Q st) → (b = false → Q tt st) → wp (when b m) Q st.
Proof. destruct b; simpl; intros H1 H2; [by apply H1|by apply H2]. Qed.

Lemma wp_modify (f : FelixAgent → FelixAgent) (Q : unit → State → Prop) st :
  Q tt (mkState (f (agent st)) (host st)) → wp (modify f) Q st.
Proof. done. Qed.

Lemma wp_hmodify (f : Host → Host) (Q : unit → State → Prop) st :
  Q tt (mkState (agent st) (f (host st))) → wp (hmodify f) Q st.
Proof. done. Qed.

Lemma wp_gets {A} (f : FelixAgent → A) (Q : A → State → Prop) st :
  Q (f (agent st)) st → wp (gets f) Q st.
Proof. done. Qed.

Lemma wp_hgets {A} (f : Host → A) (Q : A → State → Prop) st :
  Q (f (host st)) st → wp (hgets f) Q st.
Proof. done. Qed.

(** What is done to the host or to the sockets and queues keeps the
    invariant. *)
Lemma inv_hmodify (f : Host → Host) st : inv st → wp (hmodify f) (λ _, inv) st.
Proof. done. Qed.

Lemma inv_modify (f : FelixAgent → FelixAgent) st :
  same_resync (agent st) (f (agent st)) → inv st → wp (modify f) (λ _, inv) st.
Proof. intros Hsame Hinv. unfold wp, modify, inv. simpl. by eapply same_resync_consistent. Qed.

Lemma inv_sock_send (t : SocketType) (m : Message) st :
  inv st → wp (sock_send t m) (λ _, inv) st.
Proof.
  intros Hinv. unfold sock_send. apply wp_bind, wp_when; intros _; [|done].
  by apply inv_modify.
Qed.

Lemma inv_requested (m : Message) (t : SocketType) st :
  inv st → inv (requested m t st).
Proof.
  unfold inv, requested.
  destruct (request_outstanding _); [by destruct (bool_decide _)|done].
Qed.

Lemma inv_send_request (m : Message) (t : SocketType) st :
  t ∈ REQUEST_TYPES → inv st → wp (send_request m t) (λ _, inv) st.
Proof.
  intros Ht Hinv. eapply wp_of_eq; [by apply send_request_eq|].
  by apply inv_requested.
Qed.

Lemma resync_endpoints_eq st : resync_endpoints st = Ok (tt, started st).
Proof.
  unfold resync_endpoints, started.
  unfold bind at 1, uuid_uuid4, bind at 1, hgets at 1. unfold bind at 1, hmodify at 1.
  unfold ret at 1. repeat (unfold bind at 1, modify at 1).
  unfold bind at 1, time_time, hgets at 1. unfold bind at 1, gets at 1.
  rewrite send_request_eq by (unfold REQUEST_TYPES; set_solver).
  reflexivity.
Qed.

Lemma inv_started st : inv (started st).
Proof.
  unfold started. apply inv_requested. unfold inv. simpl.
  split; simpl; [eauto|done].
Qed.

Lemma inv_resync_acls (iteritems : gmap string Endpoint → list (string * Endpoint)) st :
  inv st → wp (resync_acls iteritems) (λ _, inv) st.
Proof.
  intros Hinv. unfold resync_acls.
  apply wp_bind, wp_modify, wp_bind, wp_gets.
  apply wp_for_each; [|done].
  intros [id ep] s Hs. simpl.
  apply wp_bind, wp_modify, wp_bind, wp_hgets.
  apply inv_send_request; [unfold REQUEST_TYPES; set_solver|done].
Qed.

Lemma sock_receive_eq (t : SocketType) (arrived : option Message) st :
  sock_receive t arrived st = Ok (arrived, received t arrived st).
Proof.
  unfold sock_receive, received, bind, hmodify, when. simpl.
  by destruct (bool_decide (t ∈ REQUEST_TYPES) && bool_decide (is_Some arrived)).
Qed.

Lemma received_agent (t : SocketType) (arrived : option Message) st :
  endpoints (agent (received t arrived st)) = endpoints (agent st) ∧
  same_resync (agent st) (agent (received t arrived st)).
Proof. unfold received. by destruct (_ && _). Qed.

Lemma well_formed_endpoints (a a' : FelixAgent) (m : Message) :
  endpoints a' = endpoints a → well_formed a' m = well_formed a m.
Proof. intros Heq. unfold well_formed, known. by rewrite Heq. Qed.

Lemma inv_arrivals (endpoint_suffix : string → string)
    (l : list (SocketType * option Message)) st :
  inv st → arrivals_well_formed endpoint_suffix l st →
  wp (for_each l (λ sock,
        message <- sock_receive sock.1 sock.2 ;;
        match message with
        | Some m => dispatch endpoint_suffix m
        | None => ret tt
        end)) (λ _, inv) st.
Proof.
  revert st. induction l as [|[t [m|]] l IH]; intros st Hinv Hwf; simpl.
  - by apply wp_ret.
  - destruct Hwf as [Hwf Hrest].
    destruct (received_agent t (Some m) st) as [Heps Hsame].
    apply wp_bind, wp_bind. eapply wp_of_eq; [apply sock_receive_eq|].
    destruct (dispatch_well_formed endpoint_suffix m (received t (Some m) st))
      as (st' & Hret & Hcons & _).
    { by rewrite (well_formed_endpoints (agent st)). }
    { by apply (same_resync_consistent (agent st)). }
    eapply wp_of_eq; [exact Hret|]. apply IH; [done|]. by apply Hrest.
  - destruct (received_agent t None st) as [Heps Hsame].
    apply wp_bind, wp_bind. eapply wp_of_eq; [apply sock_receive_eq|].
    apply wp_ret. apply IH; [|done].
    by apply (same_resync_consistent (agent st)).
Qed.

Lemma inv_timed_out (t : SocketType) st :
  inv st →
  wp (log WARNING ;;
      sock_close t ;;
      sock_communicate t ;;
      if bool_decide (t = TYPE_EP_REQ) then modify (set_endpoint_queue [])
      else if bool_decide (t = TYPE_ACL_REQ) then modify (set_acl_queue [])
      else ret tt) (λ _, inv) st.
Proof.
  intros Hinv.
  apply wp_bind, wp_hmodify, wp_bind, wp_hmodify, wp_bind.
  unfold sock_communicate. apply wp_bind, wp_hmodify, wp_modify.
  destruct (bool_decide (t = TYPE_EP_REQ)); [by apply inv_modify|].
  destruct (bool_decide (t = TYPE_ACL_REQ)); [by apply inv_modify|done].
Qed.

Lemma inv_drain (t : SocketType) (q : list Message) (outstanding : bool)
    (set_queue : list Message → FelixAgent → FelixAgent) st :
  (∀ rest a, same_resync a (set_queue rest a)) →
  inv st →
  wp match pop q with
     | Some (message, rest) =>
         when (negb outstanding) (modify (set_queue rest) ;; sock_send t message)
     | None => ret tt
     end (λ _, inv) st.
Proof.
  intros Hset Hinv. destruct (pop q) as [[message rest]|]; [|done].
  apply wp_when; intros _; [|done].
  apply wp_bind, wp_modify, inv_sock_send.
  unfold inv. simpl. by eapply same_resync_consistent.
Qed.

Lemma inv_run_iteration (endpoint_suffix : string → string) (RESYNC_INT_SEC : Q)
    (p : Poll) st :
  inv st →
  arrivals_well_formed endpoint_suffix (active_sockets p)
    (mkState (agent st) (set_clock (poll_time p) (host st))) →
  wp (run_iteration endpoint_suffix RESYNC_INT_SEC p) (λ _, inv) st.
Proof.
  intros Hinv Hwf. unfold run_iteration.
  apply wp_bind, wp_hmodify.
  apply wp_bind. apply (wp_mono _ (λ _, inv)); [|by apply inv_arrivals].
  intros _ s1 Hs1.
  apply wp_bind. apply (wp_mono _ (λ _, inv)).
  2:{ apply wp_for_each; [|done]. intros t s Hs.
      apply wp_when; intros _; [|done]. by apply inv_timed_out. }
  intros _ s2 Hs2. cbv zeta.
  apply wp_bind, wp_gets, wp_bind, wp_gets, wp_bind.
  apply (wp_mono _ (λ _, inv)); [|by apply inv_drain].
  intros _ s3 Hs3.
  apply wp_bind, wp_gets, wp_bind, wp_gets, wp_bind.
  apply (wp_mono _ (λ _, inv)); [|by apply inv_drain].
  intros _ s4 Hs4.
  apply wp_bind, wp_gets, wp_bind.
  apply (wp_mono _ (λ _ s, s = s4)).
  2:{ destruct (resync_id (agent s4)) eqn:Hid; [done|].
      apply wp_bind, wp_hgets, wp_bind, wp_gets.
      destruct Hs4 as [_ Htime]. destruct (Htime Hid) as [last ->]. done. }
  intros due s ->.
  destruct (_ || due).
  - eapply wp_of_eq; [apply resync_endpoints_eq|]. apply inv_started.
  - destruct (existsb _ _); [by apply inv_resync_acls|done].
Qed.

(** As long as every message is well-formed when it arrives, the loop of
    [run] goes on: no iteration raises. *)
Lemma run_well_formed (endpoint_suffix : string → string) (RESYNC_INT_SEC : Q)
    (polls : list Poll) st :
  consistent (agent st) →
  polls_well_formed endpoint_suffix RESYNC_INT_SEC polls
    (mkState (agent st) (emit Futils_set_global_rules (host st))) →
  ∃ st', returns (run endpoint_suffix RESYNC_INT_SEC polls) st st' ∧
         consistent (agent st').
Proof.
  intros Hcons Hwf. apply (wp_returns _ (λ _, inv)).
  unfold run, initialise, read_programmed_state, futils_set_global_rules.
  apply wp_bind, wp_hmodify.
  set (st0 := mkState (agent st) (emit Futils_set_global_rules (host st))) in *.
  assert (inv st0) as Hinv by done. clearbody st0.
  revert st0 Hinv Hwf. induction polls as [|p polls IH]; intros st0 Hinv Hwf; simpl.
  - done.
  - destruct Hwf as [Harr Hrest].
    apply wp_bind.
    pose proof (inv_run_iteration endpoint_suffix RESYNC_INT_SEC p st0 Hinv Harr) as Hwp.
    apply wp_returns in Hwp as (st1 & Hret & Hinv1).
    eapply wp_of_eq; [exact Hret|]. apply IH; [done|]. by apply Hrest.
Qed.

(** The agent that [__init__] builds is in the middle of its first resync. *)
Lemma FelixAgent_init_consistent (name : string) (h : Host) :
  ∃ st, FelixAgent_init name h = Ok (tt, st) ∧
    consistent (agent st) ∧
    endpoints (agent st) = ∅ ∧
    resync_id (agent st) = Some (uuid4_str (uuid_draws h)).
Proof.
  unfold FelixAgent_init, connect_to_plugin, connect_to_acl_manager.
  unfold bind at 1. simpl. unfold bind at 1. simpl.
  rewrite resync_endpoints_eq. eexists. split; [reflexivity|].
  split; [apply inv_started|]. split; reflexivity.
Qed.

(** ** What the defects rest on *)

(** No completion changes the registry or the subscriptions. *)
Lemma completion_keeps_registry (successful : bool) st st' :
  returns (complete_endpoint_resync successful) st st' →
  endpoints (agent st') = endpoints (agent st) ∧
  subscribed (host st') = subscribed (host st).
Proof.
  unfold returns. rewrite complete_endpoint_resync_eq. intros [= <-]. simpl.
  split; [done|]. apply completion_host_frame.
Qed.

(** ENDPOINTCREATED leaves the [pending_resync] of a known endpoint as it
    was, whatever its [resync_id]. *)
Lemma created_keeps_pending_resync (endpoint_suffix : string → string)
    (message : Message) (id : string) (rid issued : value)
    (mac_str state_str : string) (addrs : list value) (ep : Endpoint) st st' :
  fields message !! "endpoint_id" = Some (VStr id) →
  fields message !! "resync_id" = Some rid →
  fields message !! "issued" = Some issued →
  update_fields (fields message) mac_str state_str addrs →
  endpoints (agent st) !! id = Some ep →
  returns (handle_endpointcreated endpoint_suffix message) st st' →
  pending_resync <$> endpoints (agent st') !! id = Some (pending_resync ep).
Proof.
  intros Hid Hrid Hissued Hupd Hep. unfold returns.
  rewrite (handle_endpointcreated_eq endpoint_suffix message id rid issued
             mac_str state_str addrs) by done.
  cbv zeta.
  pose proof (stored_endpoint endpoint_suffix id rid mac_str addrs st) as Hst.
  cbv zeta in Hst. destruct Hst as (Hst & _ & _). rewrite Hep in Hst.
  set (st1 := stored endpoint_suffix id rid mac_str addrs st) in *. clearbody st1.
  simpl in Hst.
  destruct (resync_in_progress rid (agent st1)).
  - unfold counted. destruct (resync_recd (agent st1)); [|done]. cbv zeta.
    destruct (_ && _).
    + intros Hret. apply completion_keeps_registry in Hret as [-> _]. simpl.
      by rewrite Hst.
    + intros [= <-]. simpl. by rewrite Hst.
  - intros [= <-]. by rewrite Hst.
Qed.

(** After a completion at wall-clock time [t0], an idle iteration at time
    [now] starts the periodic resync exactly when
    [now - 1000 * t0 > RESYNC_INT_SEC]. *)
Lemma periodic_check_after_completion (endpoint_suffix : string → string)
    (RESYNC_INT_SEC : Q) (successful : bool) (now : Q) st st1 :
  returns (complete_endpoint_resync successful) st st1 →
  endpoint_queue (agent st) = [] →
  acl_queue (agent st) = [] →
  run_iteration endpoint_suffix RESYNC_INT_SEC (quiet now) st1
  = if Qgtb (now - clock (host st) * 1000)%Q RESYNC_INT_SEC
    then resync_endpoints (at_time now st1)
    else Ok (tt, at_time now st1).
Proof.
  unfold returns. rewrite complete_endpoint_resync_eq. intros [= <-] Hepq Haclq.
  by apply quiet_iteration_eq.
Qed.

(** ** Scenarios *)

(** Start with no endpoints: the reply to the first RESYNC announces none,
    the resync completes, and the chains left in the packet filter go. *)
Example scenario_empty_fleet :
  ∃ st, main fixture_suffix 1800 "host1"
          [one_message 1415000001 TYPE_EP_REQ (RESYNC_reply "SUCCESS" 0)]
          (fresh_host ["gone"]) = Ok (tt, st) ∧
    resync_id (agent st) = None ∧
    endpoints (agent st) = ∅ ∧
    rule_chains (host st) = ∅ ∧
    effects (host st)
    = [Log ERROR;
       Sock_communicate TYPE_EP_REQ; Sock_communicate TYPE_EP_REP;
       Sock_communicate TYPE_ACL_REQ; Sock_communicate TYPE_ACL_SUB;
       Send TYPE_EP_REQ (RESYNC_request (uuid4_str 0) 1415000000 "host1");
       Futils_set_global_rules;
       Sock_receive TYPE_EP_REQ;
       Futils_list_eps_with_rules; Log WARNING; Futils_del_rules "gone"].
Proof.
  eexists. split; [vm_compute; reflexivity|].
  repeat split; vm_compute; reflexivity.
Qed.

(** An endpoint is declared during the resync, then the reply announces one
    endpoint: the resync completes on the reply and the endpoint stays. *)
Example scenario_create_then_reply :
  ∃ st, main fixture_suffix 1800 "host1"
          [one_message 1415000001 TYPE_EP_REP (ENDPOINTCREATED "e1" (VStr (uuid4_str 0)));
           one_message 1415000002 TYPE_EP_REQ (RESYNC_reply "SUCCESS" 1)]
          (fresh_host []) = Ok (tt, st) ∧
    resync_id (agent st) = None ∧
    pending_resync <$> endpoints (agent st) !! "e1" = Some false ∧
    subscribed (host st) = {["e1"]} ∧
    rule_chains (host st) = {[fixture_suffix "e1"]}.
Proof.
  eexists. split; [vm_compute; reflexivity|].
  repeat split; vm_compute; reflexivity.
Qed.

(** The reply comes first: the resync completes on the ENDPOINTCREATED, with
    the same registry, subscriptions and chains. *)
Example scenario_reply_then_create :
  ∃ st, main fixture_suffix 1800 "host1"
          [one_message 1415000001 TYPE_EP_REQ (RESYNC_reply "SUCCESS" 1);
           one_message 1415000002 TYPE_EP_REP (ENDPOINTCREATED "e1" (VStr (uuid4_str 0)))]
          (fresh_host []) = Ok (tt, st) ∧
    resync_id (agent st) = None ∧
    pending_resync <$> endpoints (agent st) !! "e1" = Some false ∧
    subscribed (host st) = {["e1"]} ∧
    rule_chains (host st) = {[fixture_suffix "e1"]}.
Proof.
  eexists. split; [vm_compute; reflexivity|].
  repeat split; vm_compute; reflexivity.
Qed.

(** A HEARTBEAT is answered with an empty HEARTBEAT on EP_REP and changes
    nothing in the agent. *)
Example scenario_heartbeat :
  handle_heartbeat HEARTBEAT st_prune
  = Ok (tt, mkState (agent st_prune)
              (emit (Send TYPE_EP_REP (new_Message TYPE_HEARTBEAT ∅)) (host st_prune))).
Proof. apply handle_heartbeat_eq. Qed.

(** ** The request queues *)

Lemma enqueue_all_reverse (ms q : list Message) :
  enqueue_all ms q = reverse ms ++ q.
Proof.
  revert q. induction ms as [|m ms IH]; intros q; simpl; [done|].
  unfold enqueue_all in *. simpl. rewrite IH. unfold appendleft.
  rewrite reverse_cons, <- app_assoc. done.
Qed.

Lemma pop_snoc (q : list Message) (m : Message) : pop (q ++ [m]) = Some (m, q).
Proof. unfold pop. rewrite reverse_snoc. simpl. by rewrite reverse_involutive. Qed.

Lemma drain_reverse (ms : list Message) : drain (length ms) (reverse ms) = ms.
Proof.
  induction ms as [|m ms IH]; simpl; [done|].
  rewrite reverse_cons, pop_snoc. by rewrite IH.
Qed.

(** X1: the request queues are first in, first out: messages put on an empty
    queue with [appendleft], as [send_request] does, come off with [pop], as
    the loop does, in the order in which they were put on. *)
Theorem queue_first_in_first_out (ms : list Message) :
  drain (length ms) (enqueue_all ms []) = ms ∧
  pop (enqueue_all ms []) = (λ m, (m, enqueue_all (tail ms) [])) <$> head ms.
Proof.
  rewrite enqueue_all_reverse, app_nil_r. split; [apply drain_reverse|].
  destruct ms as [|m ms]; simpl; [done|].
  rewrite reverse_cons, pop_snoc. by rewrite enqueue_all_reverse, app_nil_r.
Qed.

(** ** Completing twice *)

Lemma completed_rules_known (successful : bool) (a : FelixAgent) (h : Host) :
  rule_chains (completion_host successful a h) ⊆ known_ids a.
Proof. intros id Hin. apply completion_host_rule_chains in Hin. tauto. Qed.

Lemma filter_unknown_nil (known : gset string) (l : list string) :
  (∀ id, id ∈ l → id ∈ known) → filter (λ id, id ∉ known) l = [].
Proof.
  intros Hall. induction l as [|id l IH]; [done|].
  rewrite filter_cons, decide_False.
  - apply IH. intros id' Hin. apply Hall. by right.
  - intros Hnot. apply Hnot, Hall. by left.
Qed.

(** X2: a completion that follows a completion with the same [successful]
    finds nothing to delete: it calls [del_rules] on no suffix and leaves the
    rule chains, the registry and the subscriptions as the first left them. *)
Theorem completion_twice (successful : bool) (st : State) :
  ∃ st1 st2,
    returns (complete_endpoint_resync successful) st st1 ∧
    returns (complete_endpoint_resync successful) st1 st2 ∧
    rule_chains (host st2) = rule_chains (host st1) ∧
    endpoints (agent st2) = endpoints (agent st1) ∧
    subscribed (host st2) = subscribed (host st1) ∧
    effects (host st2)
    = effects (host st1) ++ (Ep_remove ∘ ep_id <$> removed successful (agent st))
      ++ [Futils_list_eps_with_rules].
Proof.
  eexists _, _. split; [apply complete_endpoint_resync_eq|].
  split; [apply complete_endpoint_resync_eq|]. simpl.
  set (a := agent st). set (h1 := completion_host successful a (host st)).
  change (completion_agent (clock (host st)) a) with
    (set_resync_time (Some (clock (host st) * 1000)%Q)
       (set_resync_expected VNone (set_resync_recd None (set_resync_id None a)))).
  assert (∀ b, removed b (set_resync_time (Some (clock (host st) * 1000)%Q)
                 (set_resync_expected VNone (set_resync_recd None (set_resync_id None a))))
               = removed b a) as Hrem by done.
  assert (known_ids (set_resync_time (Some (clock (host st) * 1000)%Q)
                 (set_resync_expected VNone (set_resync_recd None (set_resync_id None a))))
          = known_ids a) as Hknown by done.
  pose proof (completed_rules_known successful a (host st)) as Hsub. fold h1 in Hsub.
  split; [|split; [done|split]].
  - apply set_eq. intros id. rewrite completion_host_rule_chains, Hrem, Hknown.
    split; [set_solver|]. intros Hin. split; [|by apply Hsub].
    apply elem_of_difference. split; [done|].
    subst h1. apply completion_host_rule_chains in Hin as [Hin _]. set_solver.
  - match goal with
    | |- subscribed (completion_host ?b ?a' ?h) = _ =>
        by destruct (completion_host_frame b a' h) as (_ & _ & ->)
    end.
  - rewrite completion_host_effects, Hrem, Hknown.
    rewrite filter_unknown_nil; [done|].
    intros id Hin. apply elem_of_elements in Hin. apply Hsub. set_solver.
Qed.

(** ** Counting the endpoints of a resync *)




(** ** Creating and destroying an endpoint *)

Lemma stored_registry (endpoint_suffix : string → string) id rid mac_str addrs st :
  let ep0 := default (new_Endpoint endpoint_suffix id (VStr mac_str))
               (endpoints (agent st) !! id) in
  let st' := stored endpoint_suffix id rid mac_str addrs st in
  endpoints (agent st')
  = <[id := set_mac (VStr mac_str) (set_addresses addrs ep0)]> (endpoints (agent st)) ∧
  subscribed (host st')
  = match endpoints (agent st) !! id with
    | Some _ => subscribed (host st)
    | None => {[id]} ∪ subscribed (host st)
    end.
Proof.
  intros ep0 st'.
  pose proof (stored_endpoint endpoint_suffix id rid mac_str addrs st) as Hst.
  cbv zeta in Hst. destruct Hst as (Hep & Hother & _). split.
  - apply map_eq. intros j. destruct (decide (j = id)) as [->|Hne].
    + by rewrite lookup_insert_eq.
    + rewrite lookup_insert_ne by done. by apply Hother.
  - unfold st', stored, replied, updated, declared, created, requested. simpl.
    destruct (alter _ _ _ !! id); simpl;
      (destruct (endpoints (agent st) !! id); simpl;
       [by destruct (is_none rid)|by destruct (request_outstanding _)]).
Qed.

(** Whatever [handle_endpointcreated] does after it has stored the endpoint
    leaves the registry and the subscriptions alone. *)
Lemma created_registry (endpoint_suffix : string → string)
    (message : Message) (id : string) (rid issued : value)
    (mac_str state_str : string) (addrs : list value) st st' :
  fields message !! "endpoint_id" = Some (VStr id) →
  fields message !! "resync_id" = Some rid →
  fields message !! "issued" = Some issued →
  update_fields (fields message) mac_str state_str addrs →
  returns (handle_endpointcreated endpoint_suffix message) st st' →
  endpoints (agent st') = endpoints (agent (stored endpoint_suffix id rid mac_str addrs st)) ∧
  subscribed (host st') = subscribed (host (stored endpoint_suffix id rid mac_str addrs st)).
Proof.
  intros Hid Hrid Hissued Hupd. unfold returns.
  rewrite (handle_endpointcreated_eq endpoint_suffix message id rid issued
             mac_str state_str addrs) by done.
  cbv zeta.
  generalize (stored endpoint_suffix id rid mac_str addrs st). intros st1.
  destruct (resync_in_progress rid (agent st1)); [|by intros [= <-]].
  unfold counted. destruct (resync_recd (agent st1)); [|done]. cbv zeta.
  destruct (_ && _).
  - intros Hret. by apply completion_keeps_registry in Hret.
  - by intros [= <-].
Qed.

Lemma handle_endpointdestroyed_eq (message : Message) (id : string) (issued : value)
    (endpoint : Endpoint) st :
  fields message !! "endpoint_id" = Some (VStr id) →
  fields message !! "issued" = Some issued →
  endpoints (agent st) !! id = Some endpoint →
  handle_endpointdestroyed message st = Ok (tt, destroyed id endpoint st).
Proof.
  intros Hid Hissued Hep.
  unfold handle_endpointdestroyed, bind, field, gets. rewrite Hid, Hissued. simpl.
  by rewrite Hep.
Qed.

(** X4: an endpoint that ENDPOINTCREATED has added is taken away again by
    ENDPOINTDESTROYED: the registry is as before the creation, the identifier
    is no longer subscribed, and the rule chains of its suffix are gone. *)
Theorem create_then_destroy (endpoint_suffix : string → string)
    (create destroy : Message) (id : string) (rid issued issued' : value)
    (mac_str state_str : string) (addrs : list value) (st st1 : State)
    (Hid : fields create !! "endpoint_id" = Some (VStr id))
    (Hrid : fields create !! "resync_id" = Some rid)
    (Hissued : fields create !! "issued" = Some issued)
    (Hupdate : update_fields (fields create) mac_str state_str addrs)
    (Hnew : endpoints (agent st) !! id = None)
    (Hcreated : returns (handle_endpointcreated endpoint_suffix create) st st1)
    (Hid' : fields destroy !! "endpoint_id" = Some (VStr id))
    (Hissued' : fields destroy !! "issued" = Some issued') :
  is_Some (endpoints (agent st1) !! id) ∧
  id ∈ subscribed (host st1) ∧
  ∃ st2, returns (handle_endpointdestroyed destroy) st1 st2 ∧
    endpoints (agent st2) = endpoints (agent st) ∧
    subscribed (host st2) = subscribed (host st) ∖ {[id]} ∧
    ¬ (endpoint_suffix id ∈ rule_chains (host st2)) ∧
    same_resync (agent st1) (agent st2).
Proof.
  destruct (created_registry endpoint_suffix create id rid issued mac_str state_str
              addrs st st1) as [Heps Hsub]; try done.
  pose proof (stored_registry endpoint_suffix id rid mac_str addrs st) as Hst.
  cbv zeta in Hst. destruct Hst as [Heps1 Hsub1].
  rewrite Heps1 in Heps. rewrite Hsub1, Hnew in Hsub. rewrite Hnew in Heps. simpl in Heps.
  set (ep := set_mac (VStr mac_str)
               (set_addresses addrs (new_Endpoint endpoint_suffix id (VStr mac_str)))) in *.
  assert (endpoints (agent st1) !! id = Some ep) as Hep.
  { by rewrite Heps, lookup_insert_eq. }
  split; [by rewrite Hep|]. split; [rewrite Hsub; set_solver|].
  exists (destroyed id ep st1). split.
  { by apply (handle_endpointdestroyed_eq destroy id issued'). }
  simpl. split; [by rewrite Heps, delete_insert_id|].
  split; [rewrite Hsub; set_solver|]. split; [|done].
  set_solver.
Qed.

Lemma create_then_destroy_witness :
  ∃ st1 st2,
    returns (handle_endpointcreated fixture_suffix (ENDPOINTCREATED "e2" (VStr "R1")))
      (st_collecting 2) st1 ∧
    returns (handle_endpointdestroyed (ENDPOINTDESTROYED "e2")) st1 st2 ∧
    endpoints (agent st2) = endpoints (agent (st_collecting 2)).
Proof.
  assert (∃ st1, returns (handle_endpointcreated fixture_suffix
                            (ENDPOINTCREATED "e2" (VStr "R1"))) (st_collecting 2) st1)
    as [st1 Hcreated].
  { eexists. vm_compute. reflexivity. }
  destruct (create_then_destroy fixture_suffix (ENDPOINTCREATED "e2" (VStr "R1"))
              (ENDPOINTDESTROYED "e2") "e2" (VStr "R1") (VFloat 1415000000000%Q)
              (VFloat 1415000000000%Q) "aa:bb:cc:00:00:01" "enabled" [VStr "10.0.0.1"]
              (st_collecting 2) st1)
    as (_ & _ & st2 & Hdestroyed & Heps & _).
  - reflexivity.
  - reflexivity.
  - reflexivity.
  - repeat split; reflexivity.
  - reflexivity.
  - exact Hcreated.
  - reflexivity.
  - reflexivity.
  - exists st1, st2. split; [exact Hcreated|]. split; [exact Hdestroyed|exact Heps].
Defined.

(** ** The messages that are handled are the well-formed ones *)

Lemma bind_inv {A B} (m : M A) (k : A → M B) st r :
  bind m k st = Ok r → ∃ a st1, m st = Ok (a, st1) ∧ k a st1 = Ok r.
Proof. unfold bind. destruct (m st) as [[a st1]|]; [eauto|done]. Qed.

Lemma field_inv (f : gmap string value) (key : string) st v st1 :
  field f key st = Ok (v, st1) → f !! key = Some v ∧ st1 = st.
Proof. unfold field. destruct (f !! key); [|done]. by intros [= <- <-]. Qed.

Lemma gets_inv {A} (f : FelixAgent → A) st a st1 :
  gets f st = Ok (a, st1) → a = f (agent st) ∧ st1 = st.
Proof. by intros [= <- <-]. Qed.

Lemma present_intro (f : gmap string value) (key : string) v :
  f !! key = Some v → present f key = true.
Proof. intros H. apply bool_decide_eq_true. by rewrite H. Qed.

Lemma _update_endpoint_inv id (f : gmap string value) st r :
  _update_endpoint id f st = Ok r → update_fields_ok f = true.
Proof.
  unfold _update_endpoint, update_fields_ok, ascii_string, bind, field, encode_ascii, iterate.
  destruct (f !! "mac") as [[]|]; try done. simpl.
  destruct (is_ascii s); try done. simpl.
  destruct (f !! "state") as [[]|]; try done. simpl.
  destruct (is_ascii s0); try done. simpl.
  destruct (items (default VNone (f !! "addrs"))); try done.
Qed.

Ltac invert_bind H :=
  let a := fresh "a" in
  let s := fresh "s" in
  let H1 := fresh H in
  apply bind_inv in H as (a & s & H1 & H).

Ltac invert_field H :=
  let a := fresh "v" in
  let s := fresh "s" in
  let H1 := fresh "Hfield" in
  apply bind_inv in H as (a & s & H1 & H);
  apply field_inv in H1 as [H1 ->].

Lemma handle_endpointcreated_inv (endpoint_suffix : string → string)
    (message : Message) st r :
  handle_endpointcreated endpoint_suffix message st = Ok r →
  well_formed (agent st) (mkMessage TYPE_EP_CR (fields message) (endpoint_id message)) = true.
Proof.
  intros H. unfold handle_endpointcreated in H.
  invert_field H. invert_field H. invert_field H. invert_field H.
  invert_bind H. apply gets_inv in H0 as [-> ->].
  invert_bind H. invert_bind H. apply _update_endpoint_inv in H1.
  unfold well_formed. simpl. rewrite Hfield.
  destruct v; try done.
  by rewrite (present_intro _ _ _ Hfield0), (present_intro _ _ _ Hfield1), H1.
Qed.

Lemma handle_endpointupdated_inv (message : Message) st r :
  handle_endpointupdated message st = Ok r →
  well_formed (agent st) (mkMessage TYPE_EP_UP (fields message) (endpoint_id message)) = true.
Proof.
  intros H. unfold handle_endpointupdated in H.
  invert_field H. invert_field H.
  invert_bind H. apply gets_inv in H0 as [-> ->].
  invert_bind H. invert_bind H. apply _update_endpoint_inv in H1.
  unfold well_formed, known. simpl. rewrite Hfield.
  destruct v; try done.
  destruct (endpoints (agent st) !! s1) eqn:Hep; [|done].
  rewrite bool_decide_true by eauto.
  by rewrite (present_intro _ _ _ Hfield0), H1.
Qed.

Lemma handle_endpointdestroyed_inv (message : Message) st r :
  handle_endpointdestroyed message st = Ok r →
  well_formed (agent st) (mkMessage TYPE_EP_RM (fields message) (endpoint_id message)) = true.
Proof.
  intros H. unfold handle_endpointdestroyed in H.
  invert_field H. invert_field H.
  unfold well_formed. simpl. rewrite Hfield, (present_intro _ _ _ Hfield0).
  invert_bind H. by destruct v.
Qed.

Lemma handle_resyncstate_inv (message : Message) st r :
  handle_resyncstate message st = Ok r →
  well_formed (agent st) (mkMessage TYPE_RESYNC (fields message) (endpoint_id message)) = true.
Proof.
  intros H. unfold handle_resyncstate in H.
  invert_field H. invert_field H. invert_field H.
  unfold well_formed. simpl.
  by rewrite (present_intro _ _ _ Hfield), (present_intro _ _ _ Hfield0),
    (present_intro _ _ _ Hfield1).
Qed.

Lemma handle_getaclstate_inv (message : Message) st r :
  handle_getaclstate message st = Ok r →
  well_formed (agent st) (mkMessage TYPE_GET_ACL (fields message) (endpoint_id message)) = true.
Proof.
  intros H. unfold handle_getaclstate in H.
  invert_field H. invert_field H.
  unfold well_formed. simpl.
  by rewrite (present_intro _ _ _ Hfield), (present_intro _ _ _ Hfield0).
Qed.

Lemma handle_aclupdate_inv (message : Message) st r :
  handle_aclupdate message st = Ok r →
  well_formed (agent st) (mkMessage TYPE_ACL_UPD (fields message) (endpoint_id message)) = true.
Proof.
  intros H. unfold handle_aclupdate in H.
  invert_bind H. apply gets_inv in H0 as [-> ->].
  unfold well_formed, known. simpl.
  destruct (endpoint_id message) as [id|]; [|done].
  destruct (endpoints (agent st) !! id) eqn:Hep; [|done].
  rewrite bool_decide_true by eauto.
  invert_field H. by rewrite (present_intro _ _ _ Hfield).
Qed.

Lemma well_formed_type (a : FelixAgent) (m : Message) (t : MessageType) :
  type m = t →
  well_formed a (mkMessage t (fields m) (endpoint_id m)) = well_formed a m.
Proof. intros <-. by destruct m. Qed.

Lemma dispatch_returns_well_formed (endpoint_suffix : string → string)
    (message : Message) st r :
  dispatch endpoint_suffix message st = Ok r → well_formed (agent st) message = true.
Proof.
  unfold dispatch. destruct (type message) eqn:Htype; cbn [handlers]; intros H.
  - unfold well_formed. by rewrite Htype.
  - rewrite <- (well_formed_type _ _ _ Htype). by eapply handle_endpointcreated_inv.
  - rewrite <- (well_formed_type _ _ _ Htype). by eapply handle_endpointupdated_inv.
  - rewrite <- (well_formed_type _ _ _ Htype). by eapply handle_endpointdestroyed_inv.
  - rewrite <- (well_formed_type _ _ _ Htype). by eapply handle_resyncstate_inv.
  - rewrite <- (well_formed_type _ _ _ Htype). by eapply handle_getaclstate_inv.
  - rewrite <- (well_formed_type _ _ _ Htype). by eapply handle_aclupdate_inv.
  - done.
Qed.

(** X5: while the resync attributes are consistent, the handler of a message
    returns exactly when the message is well-formed; every other message
    makes it raise, and with it the loop. *)
Theorem handled_iff_well_formed (endpoint_suffix : string → string)
    (message : Message) (st : State)
    (Hconsistent : consistent (agent st)) :
  (∃ st', returns (dispatch endpoint_suffix message) st st')
  ↔ well_formed (agent st) message = true.
Proof.
  split.
  - intros [st' Hret]. by eapply dispatch_returns_well_formed.
  - intros Hwf.
    destruct (dispatch_well_formed endpoint_suffix message st Hwf Hconsistent)
      as (st' & Hret & _).
    by exists st'.
Qed.

Lemma handled_iff_well_formed_witness :
  (∃ st', returns (dispatch fixture_suffix (ENDPOINTUPDATED "e1")) st_stale_rules st') ∧
  ¬ (∃ st', returns (dispatch fixture_suffix (ENDPOINTUPDATED "e9")) st_stale_rules st').
Proof.
  assert (consistent (agent st_stale_rules)) as Hcons.
  { split; [intros _; exists 1; reflexivity|discriminate]. }
  split.
  - apply (handled_iff_well_formed fixture_suffix (ENDPOINTUPDATED "e1") st_stale_rules Hcons).
    reflexivity.
  - intros Hret.
    apply (handled_iff_well_formed fixture_suffix (ENDPOINTUPDATED "e9") st_stale_rules Hcons)
      in Hret.
    discriminate Hret.
Defined.

(** ** Who changes the registry *)

Lemma well_formed_created_fields (a : FelixAgent) (f : gmap string value) o :
  well_formed a (mkMessage TYPE_EP_CR f o) = true →
  ∃ id rid issued mac_str state_str addrs,
    f !! "endpoint_id" = Some (VStr id) ∧ f !! "resync_id" = Some rid ∧
    f !! "issued" = Some issued ∧ update_fields f mac_str state_str addrs.
Proof.
  unfold well_formed. simpl.
  destruct (f !! "endpoint_id") as [[]|]; try done.
  intros [[(rid & Hrid)%present_spec (issued & Hissued)%present_spec]%andb_true_iff
           (m & s' & l & Hupd)%update_fields_ok_spec]%andb_true_iff.
  by exists s, rid, issued, m, s', l.
Qed.

Lemma well_formed_updated_fields (a : FelixAgent) (f : gmap string value) o :
  well_formed a (mkMessage TYPE_EP_UP f o) = true →
  ∃ id issued mac_str state_str addrs,
    f !! "endpoint_id" = Some (VStr id) ∧ is_Some (endpoints a !! id) ∧
    f !! "issued" = Some issued ∧ update_fields f mac_str state_str addrs.
Proof.
  unfold well_formed. simpl.
  destruct (f !! "endpoint_id") as [[]|]; try done.
  intros [[Hknown%bool_decide_eq_true (issued & Hissued)%present_spec]%andb_true_iff
           (m & s' & l & Hupd)%update_fields_ok_spec]%andb_true_iff.
  by exists s, issued, m, s', l.
Qed.

Lemma created_ids (endpoint_suffix : string → string) (message : Message) st st' :
  returns (handle_endpointcreated endpoint_suffix message) st st' →
  ∃ id, fields message !! "endpoint_id" = Some (VStr id) ∧
    dom (endpoints (agent st')) = {[id]} ∪ dom (endpoints (agent st)) ∧
    subscribed (host st')
    = match endpoints (agent st) !! id with
      | Some _ => subscribed (host st)
      | None => {[id]} ∪ subscribed (host st)
      end.
Proof.
  intros Hret. pose proof Hret as Hwf. apply handle_endpointcreated_inv in Hwf.
  apply well_formed_created_fields in Hwf
    as (id & rid & issued & mac_str & state_str & addrs & Hid & Hrid & Hissued & Hupd).
  destruct (created_registry endpoint_suffix message id rid issued mac_str state_str
              addrs st st') as [Heps Hsub]; try done.
  pose proof (stored_registry endpoint_suffix id rid mac_str addrs st) as Hst.
  cbv zeta in Hst. destruct Hst as [Heps1 Hsub1].
  exists id. split; [done|]. rewrite Heps, Heps1, Hsub, Hsub1.
  split; [apply dom_insert_L|done].
Qed.

Lemma updated_ids (message : Message) st st' :
  returns (handle_endpointupdated message) st st' →
  dom (endpoints (agent st')) = dom (endpoints (agent st)) ∧
  subscribed (host st') = subscribed (host st).
Proof.
  intros Hret. pose proof Hret as Hwf. apply handle_endpointupdated_inv in Hwf.
  apply well_formed_updated_fields in Hwf
    as (id & issued & mac_str & state_str & addrs & Hid & Hknown & Hissued & Hupd).
  unfold returns in Hret.
  rewrite (handle_endpointupdated_eq message id issued mac_str state_str addrs) in Hret
    by done.
  injection Hret as <-. unfold replied, updated. simpl.
  split; [by rewrite !dom_alter_L|].
  by destruct (alter _ _ _ !! id).
Qed.

Lemma destroyed_ids (message : Message) st st' :
  returns (handle_endpointdestroyed message) st st' →
  ∃ v, fields message !! "endpoint_id" = Some v ∧
    match v with
    | VStr id =>
        dom (endpoints (agent st')) = dom (endpoints (agent st)) ∖ {[id]} ∧
        subscribed (host st')
        = match endpoints (agent st) !! id with
          | Some _ => subscribed (host st) ∖ {[id]}
          | None => subscribed (host st)
          end
    | _ =>
        endpoints (agent st') = endpoints (agent st) ∧
        subscribed (host st') = subscribed (host st)
    end.
Proof.
  unfold returns, handle_endpointdestroyed. intros H.
  invert_field H. invert_field H. invert_bind H. apply gets_inv in H0 as [-> ->].
  exists v. split; [done|].
  destruct v as [| | | |id| |]; try done; try (by injection H as <-).
  destruct (endpoints (agent st) !! id) eqn:Hep.
  - injection H as <-. simpl. by rewrite dom_delete_L.
  - injection H as <-. simpl. split; [|done].
    apply not_elem_of_dom in Hep. set_solver.
Qed.

Lemma resyncstate_ids (message : Message) st st' :
  returns (handle_resyncstate message) st st' →
  endpoints (agent st') = endpoints (agent st) ∧
  subscribed (host st') = subscribed (host st).
Proof.
  unfold returns, handle_resyncstate. intros H.
  invert_field H. invert_field H. invert_field H.
  destruct (negb (eq_str v0 "SUCCESS")).
  - invert_bind H. injection H0 as <- <-.
    apply (completion_keeps_registry false) in H. exact H.
  - invert_bind H. apply gets_inv in H0 as [-> ->].
    destruct (_ || _).
    + by apply (completion_keeps_registry true) in H.
    + by injection H as <-.
Qed.

Lemma getaclstate_ids (message : Message) st st' :
  returns (handle_getaclstate message) st st' →
  agent st' = agent st ∧ subscribed (host st') = subscribed (host st) ∧
  rule_chains (host st') = rule_chains (host st).
Proof.
  unfold returns, handle_getaclstate. intros H.
  invert_field H. invert_field H.
  destruct (negb (eq_str v "SUCCESS")); by injection H as <-.
Qed.

Lemma aclupdate_ids (message : Message) st st' :
  returns (handle_aclupdate message) st st' →
  agent st' = agent st ∧ subscribed (host st') = subscribed (host st) ∧
  rule_chains (host st') = rule_chains (host st).
Proof.
  unfold returns, handle_aclupdate. intros H.
  invert_bind H. apply gets_inv in H0 as [-> ->].
  destruct (endpoint_id message) as [id|]; [|done].
  destruct (endpoints (agent st) !! id); [|done].
  invert_field H. by injection H as <-.
Qed.

(** X6: handling a message changes the identifiers of the registry only by
    adding that of an ENDPOINTCREATED or taking away that of an
    ENDPOINTDESTROYED; in particular no RESYNCSTATE reply and no completion
    takes an endpoint out.  If the SUB socket was subscribed to exactly the
    identifiers of the registry, it still is. *)
Theorem registry_and_subscriptions (endpoint_suffix : string → string)
    (message : Message) (st st' : State)
    (Hreturns : returns (dispatch endpoint_suffix message) st st') :
  dom (endpoints (agent st')) = registry_after message (dom (endpoints (agent st))) ∧
  (subscribed_to_registry st → subscribed_to_registry st').
Proof.
  unfold returns, dispatch, registry_after, subscribed_to_registry in *.
  destruct (type message) eqn:Htype; cbn [handlers] in Hreturns.
  - rewrite handle_heartbeat_eq in Hreturns. injection Hreturns as <-.
    simpl. by destruct (fields message !! "endpoint_id") as [[]|].
  - apply created_ids in Hreturns as (id & -> & Hdom & Hsub).
    split; [done|]. intros Hinv. rewrite Hdom, Hsub.
    destruct (endpoints (agent st) !! id) eqn:Hep; [|by rewrite Hinv].
    rewrite Hinv. apply (elem_of_dom_2 (D := gset string)) in Hep. set_solver.
  - apply updated_ids in Hreturns as [-> ->].
    by destruct (fields message !! "endpoint_id") as [[]|].
  - apply destroyed_ids in Hreturns as (v & -> & Hpost).
    destruct v as [| | | |id| |]; try (destruct Hpost as [-> ->]; done).
    destruct Hpost as [-> ->]. split; [done|]. intros ->.
    destruct (endpoints (agent st) !! id) eqn:Hep; [done|].
    apply (not_elem_of_dom (D := gset string)) in Hep. set_solver.
  - apply resyncstate_ids in Hreturns as [-> ->].
    by destruct (fields message !! "endpoint_id") as [[]|].
  - apply getaclstate_ids in Hreturns as (-> & -> & _).
    by destruct (fields message !! "endpoint_id") as [[]|].
  - apply aclupdate_ids in Hreturns as (-> & -> & _).
    by destruct (fields message !! "endpoint_id") as [[]|].
  - done.
Qed.

Lemma registry_and_subscriptions_witness :
  ∃ st', returns (dispatch fixture_suffix (ENDPOINTDESTROYED "e1")) st_stale_rules st' ∧
    dom (endpoints (agent st')) = ∅ ∧
    subscribed_to_registry st'.
Proof.
  assert (∃ st', returns (dispatch fixture_suffix (ENDPOINTDESTROYED "e1"))
                   st_stale_rules st') as [st' Hret].
  { eexists. vm_compute. reflexivity. }
  destruct (registry_and_subscriptions fixture_suffix (ENDPOINTDESTROYED "e1")
              st_stale_rules st' Hret) as [Hdom Hinv].
  exists st'. split; [exact Hret|]. split.
  - rewrite Hdom. vm_compute. reflexivity.
  - apply Hinv. vm_compute. reflexivity.
Defined.

(** ** Exceptions and the loop *)

Lemma for_each_app {A} (body : A → M unit) (l1 l2 : list A) st :
  for_each (l1 ++ l2) body st
  = match for_each l1 body st with
    | Ok (_, st1) => for_each l2 body st1
    | Raise e => Raise e
    end.
Proof.
  revert st. induction l1 as [|x l1 IH]; intros st; simpl; [done|].
  unfold bind. destruct (body x st) as [[[] st1]|]; [apply IH|done].
Qed.

Lemma run_app (endpoint_suffix : string → string) (RESYNC_INT_SEC : Q)
    (polls1 polls2 : list Poll) st st1 :
  returns (run endpoint_suffix RESYNC_INT_SEC polls1) st st1 →
  run endpoint_suffix RESYNC_INT_SEC (polls1 ++ polls2) st
  = for_each polls2 (run_iteration endpoint_suffix RESYNC_INT_SEC) st1.
Proof.
  unfold returns, run, bind.
  destruct (initialise st) as [[[] st0]|]; [|done].
  rewrite for_each_app. by intros ->.
Qed.

Lemma run_iteration_raises (endpoint_suffix : string → string) (RESYNC_INT_SEC : Q)
    (p : Poll) (t : SocketType) (m : Message) rest (e : exn) st :
  active_sockets p = (t, Some m) :: rest →
  dispatch endpoint_suffix m (received t (Some m) (at_time (poll_time p) st)) = Raise e →
  run_iteration endpoint_suffix RESYNC_INT_SEC p st = Raise e.
Proof.
  intros Hactive Hraise. unfold run_iteration. rewrite Hactive.
  unfold bind at 1. unfold hmodify at 1. fold (at_time (poll_time p) st).
  unfold bind at 1. simpl for_each.
  unfold bind at 1. unfold bind at 1. rewrite sock_receive_eq. by rewrite Hraise.
Qed.

(** X7: what a handler raises ends the loop: when the first message of a
    poll makes its handler raise, [run] raises the same exception, whatever
    the polls after it hold. *)
Theorem handler_exception_ends_run (endpoint_suffix : string → string)
    (RESYNC_INT_SEC : Q) (polls1 polls2 : list Poll) (p : Poll)
    (t : SocketType) (m : Message) (rest : list (SocketType * option Message))
    (e : exn) (st st1 : State)
    (Hbefore : returns (run endpoint_suffix RESYNC_INT_SEC polls1) st st1)
    (Hactive : active_sockets p = (t, Some m) :: rest)
    (Hraise : dispatch endpoint_suffix m (received t (Some m) (at_time (poll_time p) st1))
              = Raise e) :
  run endpoint_suffix RESYNC_INT_SEC (polls1 ++ p :: polls2) st = Raise e.
Proof.
  rewrite (run_app _ _ _ _ _ _ Hbefore). simpl. unfold bind.
  by rewrite (run_iteration_raises endpoint_suffix RESYNC_INT_SEC p t m rest e st1).
Qed.

Lemma handler_exception_ends_run_witness :
  run fixture_suffix 1800
    ([quiet 1415000001]
     ++ one_message 1415000002 TYPE_EP_REP (ENDPOINTUPDATED "e9")
     :: [one_message 1415000003 TYPE_EP_REP HEARTBEAT]) st_stale_rules
  = Raise KeyError.
Proof.
  assert (∃ st1, returns (run fixture_suffix 1800 [quiet 1415000001]) st_stale_rules st1)
    as [st1 Hbefore].
  { eexists. vm_compute. reflexivity. }
  apply (handler_exception_ends_run fixture_suffix 1800 [quiet 1415000001]
           [one_message 1415000003 TYPE_EP_REP HEARTBEAT]
           (one_message 1415000002 TYPE_EP_REP (ENDPOINTUPDATED "e9"))
           TYPE_EP_REP (ENDPOINTUPDATED "e9") [] KeyError st_stale_rules st1 Hbefore).
  - reflexivity.
  - unfold returns in Hbefore. vm_compute in Hbefore. injection Hbefore as <-.
    vm_compute. reflexivity.
Defined.

(** X8: the agent that [__init__] builds runs through every sequence of
    polls whose messages are well-formed on arrival: [main] returns from each
    finite part of the loop, with consistent resync attributes. *)
Theorem main_handles_well_formed (endpoint_suffix : string → string)
    (RESYNC_INT_SEC : Q) (name : string) (polls : list Poll) (h : Host)
    (Hwf : ∀ st0, FelixAgent_init name (emit (Log ERROR) h) = Ok (tt, st0) →
                  polls_well_formed endpoint_suffix RESYNC_INT_SEC polls
                    (mkState (agent st0) (emit Futils_set_global_rules (host st0)))) :
  ∃ st', main endpoint_suffix RESYNC_INT_SEC name polls h = Ok (tt, st') ∧
         consistent (agent st').
Proof.
  unfold main.
  destruct (FelixAgent_init_consistent name (emit (Log ERROR) h))
    as (st0 & Hinit & Hcons & _).
  rewrite Hinit.
  destruct (run_well_formed endpoint_suffix RESYNC_INT_SEC polls st0 Hcons (Hwf st0 Hinit))
    as (st' & Hret & Hcons').
  by exists st'.
Qed.

Lemma main_handles_well_formed_witness :
  ∃ st', main fixture_suffix 1800 "host1"
           [one_message 1415000001 TYPE_EP_REP (ENDPOINTCREATED "e1" (VStr (uuid4_str 0)));
            one_message 1415000002 TYPE_EP_REP (ENDPOINTUPDATED "e1")]
           (fresh_host []) = Ok (tt, st') ∧
         consistent (agent st').
Proof.
  apply main_handles_well_formed.
  intros st0 Hinit. vm_compute in Hinit. injection Hinit as <-.
  split.
  - split; [reflexivity|]. intros st' _. exact I.
  - intros st1 Hret. unfold returns in Hret. vm_compute in Hret. injection Hret as <-.
    split; [|intros st' _; exact I].
    split; [reflexivity|]. intros st' _. exact I.
Defined.

(** ** Socket timeouts *)

Lemma untouched_refl st : untouched st st.
Proof. done. Qed.

Lemma untouched_sock_send st0 (t : SocketType) (m : Message) s :
  untouched st0 s → wp (sock_send t m) (λ _, untouched st0) s.
Proof.
  intros Hs. unfold sock_send. apply wp_bind, wp_hmodify, wp_when; intros _; [|done].
  by apply wp_modify.
Qed.

Lemma untouched_timed_out st0 (t : SocketType) s :
  untouched st0 s →
  wp (log WARNING ;;
      sock_close t ;;
      sock_communicate t ;;
      if bool_decide (t = TYPE_EP_REQ) then modify (set_endpoint_queue [])
      else if bool_decide (t = TYPE_ACL_REQ) then modify (set_acl_queue [])
      else ret tt) (λ _, untouched st0) s.
Proof.
  intros Hs.
  apply wp_bind, wp_hmodify, wp_bind, wp_hmodify, wp_bind.
  unfold sock_communicate. apply wp_bind, wp_hmodify, wp_modify.
  destruct (bool_decide (t = TYPE_EP_REQ)); [by apply wp_modify|].
  destruct (bool_decide (t = TYPE_ACL_REQ)); [by apply wp_modify|done].
Qed.

Lemma untouched_drain st0 (t : SocketType) (q : list Message) (outstanding : bool)
    (set_queue : list Message → FelixAgent → FelixAgent) s :
  (∀ rest a, same_resync a (set_queue rest a) ∧
             endpoints (set_queue rest a) = endpoints a ∧
             hostname (set_queue rest a) = hostname a) →
  untouched st0 s →
  wp match pop q with
     | Some (message, rest) =>
         when (negb outstanding) (modify (set_queue rest) ;; sock_send t message)
     | None => ret tt
     end (λ _, untouched st0) s.
Proof.
  intros Hset Hs. destruct (pop q) as [[message rest]|]; [|done].
  apply wp_when; intros _; [|done].
  apply wp_bind, wp_modify, untouched_sock_send.
  destruct (Hset rest (agent s)) as ((H1 & H2 & H3) & H4 & H5).
  destruct Hs as ((G1 & G2 & G3) & G4 & G5 & G6 & G7).
  unfold untouched, same_resync. simpl.
  rewrite H1, H2, H3, H4, H5. done.
Qed.

Lemma timed_out_endpoint_socket (p : Poll) (t : SocketType) :
  t ∈ timed_out p → t ∈ EP_TYPES →
  existsb (λ t, bool_decide (t ∈ timed_out p) && bool_decide (t ∈ EP_TYPES)) all_sockets
  = true.
Proof.
  intros Ht Hep. apply existsb_exists. exists t. split.
  - apply list_elem_of_In. unfold all_sockets. destruct t; set_solver.
  - by rewrite !bool_decide_true.
Qed.

Lemma started_fields st :
  let rid := uuid4_str (uuid_draws (host st)) in
  let a' := agent (started st) in
  resync_id a' = Some rid ∧ resync_recd a' = Some 0 ∧ resync_expected a' = VInt 0 ∧
  endpoints a' = set_pending_resync true <$> endpoints (agent st) ∧
  acl_queue a' = [] ∧
  (endpoint_queue a' = [] ∨
   endpoint_queue a' = [RESYNC_request rid (clock (host st)) (hostname (agent st))]).
Proof.
  unfold started, requested. simpl.
  destruct (request_outstanding (ep_req (sockets (agent st)))); simpl; tauto.
Qed.

(** X9: when a socket of the endpoint API has timed out, the iteration that
    notices it starts a new resync at once: a new [resync_id], zeroed
    counters, every endpoint marked, the ACL queue empty and the endpoint
    queue holding at most the new RESYNC request. *)
Theorem endpoint_socket_timeout_starts_resync (endpoint_suffix : string → string)
    (RESYNC_INT_SEC : Q) (p : Poll) (t : SocketType) (st : State)
    (Hconsistent : consistent (agent st))
    (Hquiet : active_sockets p = [])
    (Htimed_out : t ∈ timed_out p)
    (Hendpoint : t ∈ EP_TYPES) :
  let rid := uuid4_str (uuid_draws (host st)) in
  ∃ st', returns (run_iteration endpoint_suffix RESYNC_INT_SEC p) st st' ∧
    resync_id (agent st') = Some rid ∧
    resync_recd (agent st') = Some 0 ∧
    resync_expected (agent st') = VInt 0 ∧
    endpoints (agent st') = set_pending_resync true <$> endpoints (agent st) ∧
    acl_queue (agent st') = [] ∧
    (endpoint_queue (agent st') = [] ∨
     endpoint_queue (agent st')
     = [RESYNC_request rid (poll_time p) (hostname (agent st))]).
Proof.
  intros rid.
  apply (wp_returns _ (λ _ st',
    resync_id (agent st') = Some rid ∧
    resync_recd (agent st') = Some 0 ∧
    resync_expected (agent st') = VInt 0 ∧
    endpoints (agent st') = set_pending_resync true <$> endpoints (agent st) ∧
    acl_queue (agent st') = [] ∧
    (endpoint_queue (agent st') = [] ∨
     endpoint_queue (agent st')
     = [RESYNC_request rid (poll_time p) (hostname (agent st))]))).
  unfold run_iteration. rewrite Hquiet.
  apply wp_bind, wp_hmodify.
  set (st0 := mkState (agent st) (set_clock (poll_time p) (host st))).
  assert (untouched st0 st0) as H0 by done.
  assert (∀ s, untouched st0 s →
             resync_id (agent s) = None → is_Some (resync_time (agent s))) as Htime.
  { intros s ((-> & _ & ->) & _) Hnone. by apply Hconsistent. }
  apply wp_bind, wp_ret.
  apply wp_bind. apply (wp_mono _ (λ _, untouched st0)).
  2:{ apply wp_for_each; [|done]. intros t' s Hs.
      apply wp_when; intros _; [|done]. by apply untouched_timed_out. }
  intros _ s2 Hs2. cbv zeta.
  apply wp_bind, wp_gets, wp_bind, wp_gets, wp_bind.
  apply (wp_mono _ (λ _, untouched st0)); [|by apply untouched_drain].
  intros _ s3 Hs3.
  apply wp_bind, wp_gets, wp_bind, wp_gets, wp_bind.
  apply (wp_mono _ (λ _, untouched st0)); [|by apply untouched_drain].
  intros _ s4 Hs4.
  apply wp_bind, wp_gets, wp_bind.
  apply (wp_mono _ (λ _ s, s = s4)).
  2:{ destruct (resync_id (agent s4)) eqn:Hid; [done|].
      apply wp_bind, wp_hgets, wp_bind, wp_gets.
      destruct (Htime s4 Hs4 Hid) as [last ->]. done. }
  intros due s ->.
  rewrite (timed_out_endpoint_socket p t) by done. simpl.
  eapply wp_of_eq; [apply resync_endpoints_eq|].
  pose proof (started_fields s4) as Hstarted. cbv zeta in Hstarted.
  destruct Hs4 as (_ & Heps & Hname & Hdraws & Hclock).
  rewrite Heps, Hname, Hdraws, Hclock in Hstarted. exact Hstarted.
Qed.

Lemma endpoint_socket_timeout_starts_resync_witness :
  ∃ st', returns (run_iteration fixture_suffix 1800 (mkPoll 1415000001 [] [TYPE_EP_REP]))
           st_prune st' ∧
    resync_id (agent st') = Some (uuid4_str 1) ∧
    resync_recd (agent st') = Some 0.
Proof.
  destruct (endpoint_socket_timeout_starts_resync fixture_suffix 1800
              (mkPoll 1415000001 [] [TYPE_EP_REP]) TYPE_EP_REP st_prune)
    as (st' & Hret & Hid & Hrecd & _).
  - split; [intros _; exists 1; reflexivity|discriminate].
  - reflexivity.
  - apply (bool_decide_unpack _). vm_compute. exact I.
  - apply (bool_decide_unpack _). vm_compute. exact I.
  - exists st'. split; [exact Hret|]. split; [exact Hid|exact Hrecd].
Defined.

(** ** Resynchronising the ACLs *)

Lemma for_each_fold {A} (f : State → A → State) (body : A → M unit) (l : list A) st :
  (∀ x s, body x s = Ok (tt, f s x)) →
  for_each l body st = Ok (tt, foldl f st l).
Proof.
  intros Hbody. revert st. induction l as [|x l IH]; intros st; simpl; [done|].
  unfold bind. by rewrite Hbody, IH.
Qed.

Lemma resync_acls_eq (iteritems : gmap string Endpoint → list (string * Endpoint)) st :
  resync_acls iteritems st
  = Ok (tt, foldl acl_requested (mkState (set_acl_queue [] (agent st)) (host st))
              (iteritems (endpoints (agent st)))).
Proof.
  unfold resync_acls. unfold bind at 1, modify at 1. unfold bind at 1, gets at 1.
  apply for_each_fold. intros item s.
  unfold bind at 1, modify at 1. unfold bind at 1, time_time, hgets.
  rewrite send_request_eq by (unfold REQUEST_TYPES; set_solver).
  reflexivity.
Qed.

(** Once a request is outstanding on ACL_REQ, every further pass queues. *)
Lemma acl_requested_queued (l : list (string * Endpoint)) s :
  request_outstanding (acl_req (sockets (agent s))) = true →
  let s' := foldl acl_requested s l in
  acl_queue (agent s') = reverse (acl_requests (clock (host s)) l) ++ acl_queue (agent s) ∧
  host s' = host s ∧
  sockets (agent s') = sockets (agent s) ∧
  endpoint_queue (agent s') = endpoint_queue (agent s) ∧
  same_resync (agent s) (agent s') ∧
  resync_expected (agent s') = resync_expected (agent s).
Proof.
  revert s. induction l as [|item l IH]; intros s Hout; simpl; [done|].
  assert (acl_requested s item
          = mkState (set_acl_queue
                       (GET_ACL_request item.1 (clock (host s)) :: acl_queue (agent s))
                       (set_endpoints
                          (alter (set_need_acls true) item.1 (endpoints (agent s)))
                          (agent s)))
              (host s)) as Hstep.
  { unfold acl_requested, requested. simpl. by rewrite Hout. }
  rewrite Hstep.
  match goal with |- context [foldl acl_requested ?s1 l] =>
    destruct (IH s1 Hout) as (Hq & Hh & Hs & He & Hr & Hx) end.
  simpl in *. rewrite Hq, Hh, Hs, He, Hx. unfold acl_requests. simpl.
  rewrite reverse_cons, <- app_assoc. done.
Qed.

Lemma acl_requested_endpoints (l : list (string * Endpoint)) s :
  endpoints (agent (foldl acl_requested s l))
  = foldl (λ m item, alter (set_need_acls true) item.1 m) (endpoints (agent s)) l.
Proof.
  revert s. induction l as [|item l IH]; intros s; simpl; [done|].
  rewrite IH. f_equal. unfold acl_requested, requested. simpl.
  by destruct (request_outstanding (acl_req (sockets (agent s)))).
Qed.

Lemma alter_all_lookup (l : list (string * Endpoint)) (m : gmap string Endpoint) i :
  foldl (λ m item, alter (set_need_acls true) item.1 m) m l !! i
  = if decide (i ∈ l.*1) then set_need_acls true <$> m !! i else m !! i.
Proof.
  revert m. induction l as [|[k ep] l IH]; intros m; simpl; [done|].
  rewrite IH. destruct (decide (i = k)) as [->|Hne].
  - rewrite lookup_alter_eq.
    match goal with |- _ = (if ?d then _ else _) => destruct d as [_|Hnot] end.
    + destruct (decide (k ∈ l.*1)); [|done]. by destruct (m !! k).
    + destruct Hnot. by left.
  - rewrite lookup_alter_ne by done.
    match goal with |- _ = (if ?d then _ else _) => destruct d as [Hin|Hnot] end.
    + apply elem_of_cons in Hin as [?|Hin]; [done|]. by rewrite decide_True.
    + rewrite decide_False; [done|]. intros Hin. apply Hnot. by right.
Qed.

Lemma alter_all_fmap (m : gmap string Endpoint) :
  foldl (λ m item, alter (set_need_acls true) item.1 m) m (map_to_list m)
  = set_need_acls true <$> m.
Proof.
  apply map_eq. intros i. rewrite alter_all_lookup, lookup_fmap.
  destruct (decide (i ∈ (map_to_list m).*1)) as [Hin|Hnot]; [done|].
  destruct (m !! i) as [ep|] eqn:Hep; [|done].
  destruct Hnot. apply list_elem_of_fmap. exists (i, ep).
  split; [done|]. by apply elem_of_map_to_list.
Qed.

Lemma alter_all_fmap_order (m : gmap string Endpoint) (l : list (string * Endpoint)) :
  l ≡ₚ map_to_list m →
  foldl (λ m item, alter (set_need_acls true) item.1 m) m l = set_need_acls true <$> m.
Proof.
  intros Hperm. apply map_eq. intros i. rewrite alter_all_lookup, lookup_fmap.
  destruct (decide (i ∈ l.*1)) as [Hin|Hnot]; [done|].
  destruct (m !! i) as [ep|] eqn:Hep; [|done].
  destruct Hnot. apply list_elem_of_fmap. exists (i, ep).
  split; [done|]. rewrite Hperm. by apply elem_of_map_to_list.
Qed.

(** X10: in whatever order [iteritems] yields the items of the registry,
    [resync_acls] marks every endpoint as needing its ACLs and makes one
    GETACLSTATE request per endpoint, of which at most one goes out: if
    ACL_REQ is idle the request for the first item is sent and the others
    wait in the ACL queue, which held nothing else, in the order of the
    items; if a request is outstanding all wait.  The endpoint queue and the
    resync attributes are left alone. *)
Theorem resync_acls_requests
    (iteritems : gmap string Endpoint → list (string * Endpoint)) (st : State)
    (Horder : iteritems (endpoints (agent st)) ≡ₚ map_to_list (endpoints (agent st))) :
  let requests := acl_requests (clock (host st)) (iteritems (endpoints (agent st))) in
  ∃ st', returns (resync_acls iteritems) st st' ∧
    endpoints (agent st') = set_need_acls true <$> endpoints (agent st) ∧
    endpoint_queue (agent st') = endpoint_queue (agent st) ∧
    same_resync (agent st) (agent st') ∧
    if request_outstanding (acl_req (sockets (agent st)))
    then acl_queue (agent st') = reverse requests ∧
         effects (host st') = effects (host st)
    else acl_queue (agent st') = reverse (tail requests) ∧
         effects (host st') = effects (host st) ++ (Send TYPE_ACL_REQ <$> take 1 requests).
Proof.
  intros requests. eexists. split; [apply resync_acls_eq|].
  split.
  { rewrite acl_requested_endpoints. simpl. by apply alter_all_fmap_order. }
  subst requests. clear Horder.
  generalize (iteritems (endpoints (agent st))). intros l.
  set (s0 := mkState (set_acl_queue [] (agent st)) (host st)).
  destruct (request_outstanding (acl_req (sockets (agent st)))) eqn:Hout.
  - destruct (acl_requested_queued l s0) as (Hq & Hh & _ & He & Hr & _); [done|].
    cbv zeta in *. rewrite Hq, Hh, He. simpl. by rewrite app_nil_r.
  - destruct l as [|item l]; simpl; [by rewrite app_nil_r|].
    assert (acl_requested s0 item
            = mkState (set_sockets (sockets_set TYPE_ACL_REQ (mkSocket true)
                                      (sockets (agent st)))
                         (set_endpoints
                            (alter (set_need_acls true) item.1 (endpoints (agent st)))
                            (set_acl_queue [] (agent st))))
                (emit (Send TYPE_ACL_REQ (GET_ACL_request item.1 (clock (host st))))
                   (host st))) as Hstep.
    { unfold acl_requested, requested. simpl. by rewrite Hout. }
    rewrite Hstep.
    match goal with |- context [foldl acl_requested ?s1 l] =>
      destruct (acl_requested_queued l s1) as (Hq & Hh & _ & He & Hr & _); [done|] end.
    cbv zeta in *. rewrite Hq, Hh, He. simpl. rewrite app_nil_r.
    split; [done|]. split; [|done].
    destruct Hr as (H1 & H2 & H3). by split; [|split].
Qed.

Lemma resync_acls_requests_witness :
  ∃ st', returns (resync_acls (λ eps, reverse (map_to_list eps))) st_prune st' ∧
    effects (host st') = [Send TYPE_ACL_REQ (GET_ACL_request "e2" 1415000000)] ∧
    acl_queue (agent st') = [GET_ACL_request "e1" 1415000000].
Proof.
  destruct (resync_acls_requests (λ eps, reverse (map_to_list eps)) st_prune)
    as (st' & Hret & _ & _ & _ & Hsent).
  - apply reverse_Permutation.
  - exists st'. split; [exact Hret|].
    change (request_outstanding (acl_req (sockets (agent st_prune)))) with false in Hsent.
    cbv iota in Hsent. destruct Hsent as [Hqueue Heffects].
    rewrite Hqueue, Heffects. split; vm_compute; reflexivity.
Defined.

(** ** One request at a time *)

Lemma wlp_bind {A B} (m : M A) (k : A → M B) (Q : B → State → Prop) st :
  wlp m (λ a st', wlp (k a) Q st') st → wlp (bind m k) Q st.
Proof. unfold wlp, bind. by destruct (m st) as [[a st']|]. Qed.

Lemma wlp_of_eq {A} (m : M A) (a : A) (Q : A → State → Prop) st st' :
  m st = Ok (a, st') → Q a st' → wlp m Q st.
Proof. intros Heq HQ. unfold wlp. by rewrite Heq. Qed.

Lemma wlp_returns {A} (m : M A) (Q : A → State → Prop) st a st' :
  wlp m Q st → m st = Ok (a, st') → Q a st'.
Proof. unfold wlp. intros H Heq. by rewrite Heq in H. Qed.

Lemma keeps_bind {A B} (P : State → Prop) (m : M A) (k : A → M B) :
  keeps P m → (∀ a, keeps P (k a)) → keeps P (bind m k).
Proof.
  intros Hm Hk st Hst. apply wlp_bind. specialize (Hm st Hst).
  unfold wlp in *. destruct (m st) as [[a st']|]; [by apply Hk|done].
Qed.

Lemma keeps_ret {A} (P : State → Prop) (a : A) : keeps P (ret a).
Proof. by intros st Hst. Qed.

Lemma keeps_raise {A} (P : State → Prop) (e : exn) : keeps P (@raise A e).
Proof. by intros st Hst. Qed.

Lemma keeps_gets {A} (P : State → Prop) (f : FelixAgent → A) : keeps P (gets f).
Proof. by intros st Hst. Qed.

Lemma keeps_hgets {A} (P : State → Prop) (f : Host → A) : keeps P (hgets f).
Proof. by intros st Hst. Qed.

Lemma keeps_field (P : State → Prop) (f : gmap string value) (key : string) :
  keeps P (field f key).
Proof. intros st Hst. unfold wlp, field. by destruct (f !! key). Qed.

Lemma keeps_encode_ascii (P : State → Prop) (v : value) : keeps P (encode_ascii v).
Proof.
  intros st Hst. unfold wlp, encode_ascii.
  destruct v; try done. by destruct (is_ascii s).
Qed.

Lemma keeps_iterate (P : State → Prop) (v : value) : keeps P (iterate v).
Proof. intros st Hst. unfold wlp, iterate. by destruct (items v). Qed.

Lemma keeps_when (P : State → Prop) (b : bool) (m : M unit) :
  keeps P m → keeps P (when b m).
Proof. intros Hm. destruct b; [done|apply keeps_ret]. Qed.

Lemma keeps_for_each {A} (P : State → Prop) (body : A → M unit) (l : list A) :
  (∀ x, keeps P (body x)) → keeps P (for_each l body).
Proof.
  intros Hbody. induction l as [|x l IH]; simpl; [apply keeps_ret|].
  apply keeps_bind; [apply Hbody|done].
Qed.

Lemma keeps_of_eq {A} (P : State → Prop) (m : M A) (f : State → A * State) :
  (∀ st, m st = Ok (f st)) → (∀ st, P st → P (f st).2) → keeps P m.
Proof.
  intros Heq Hf st Hst. unfold wlp. rewrite (Heq st).
  specialize (Hf st Hst). by destruct (f st).
Qed.

Lemma in_flight_snoc (t : SocketType) (l : list Effect) (e : Effect) :
  in_flight t (l ++ [e]) = request_step t (in_flight t l) e.
Proof. unfold in_flight. by rewrite foldl_snoc. Qed.

Lemma in_flight_app_off (t : SocketType) (l l' : list Effect) :
  t ∈ REQUEST_TYPES → Forall off_request_sockets l' →
  in_flight t (l ++ l') = in_flight t l.
Proof.
  intros Ht Hoff. unfold in_flight. rewrite foldl_app.
  generalize (foldl (request_step t) (Some false) l). intros s.
  induction Hoff as [|e l' He _ IH]; simpl; [done|]. by rewrite He.
Qed.

Lemma one_request_frame st st' (l : list Effect) :
  sockets (agent st') = sockets (agent st) →
  effects (host st') = effects (host st) ++ l →
  Forall off_request_sockets l →
  one_request_at_a_time st → one_request_at_a_time st'.
Proof.
  intros Hsock Heff Hoff Hst t Ht. destruct (Hst t Ht) as (sent & Hsent & Hout).
  exists sent. rewrite Heff, in_flight_app_off, Hsock by done. done.
Qed.

Lemma off_request_sockets_other (e : Effect) :
  match e with
  | Send t _ => t ∉ REQUEST_TYPES
  | Sock_receive t | Sock_communicate t => t ∉ REQUEST_TYPES
  | _ => True
  end → off_request_sockets e.
Proof.
  intros He t s Ht. destruct s as [sent|]; [|done].
  destruct e; simpl; try done;
    (rewrite bool_decide_false; [done|]; intros ->; done).
Qed.

Lemma keeps_emit (e : Effect) :
  off_request_sockets e → keeps one_request_at_a_time (hmodify (emit e)).
Proof.
  intros He st Hst. unfold wlp, hmodify.
  apply (one_request_frame st _ [e]); try done. by constructor.
Qed.

Lemma keeps_hmodify_quiet (f : Host → Host) :
  (∀ h, effects (f h) = effects h) → keeps one_request_at_a_time (hmodify f).
Proof.
  intros Hf st Hst. unfold wlp, hmodify.
  apply (one_request_frame st _ []); try done. simpl. by rewrite Hf, app_nil_r.
Qed.

Lemma keeps_modify_quiet (f : FelixAgent → FelixAgent) :
  (∀ a, sockets (f a) = sockets a) → keeps one_request_at_a_time (modify f).
Proof.
  intros Hf st Hst. unfold wlp, modify.
  apply (one_request_frame st _ []); try done; simpl; [apply Hf|by rewrite app_nil_r].
Qed.

Lemma sockets_get_set (t t' : SocketType) (x : Socket) (s : Sockets) :
  sockets_get t (sockets_set t' x s) = if bool_decide (t = t') then x else sockets_get t s.
Proof. by destruct t, t'. Qed.

(** Sending on a request socket that has no request outstanding. *)
Lemma one_request_sent (t : SocketType) (m : Message) st :
  request_outstanding (sockets_get t (sockets (agent st))) = false →
  one_request_at_a_time st →
  one_request_at_a_time
    (mkState (set_sockets (sockets_set t (mkSocket true) (sockets (agent st))) (agent st))
       (emit (Send t m) (host st))).
Proof.
  intros Hidle Hst t0 Ht0. destruct (Hst t0 Ht0) as (sent & Hsent & Hout).
  simpl. rewrite in_flight_snoc, Hsent, sockets_get_set. simpl.
  destruct (decide (t0 = t)) as [->|Hne].
  - rewrite !bool_decide_true by done.
    destruct sent; [|by exists true].
    rewrite Hout in Hidle; done.
  - rewrite (bool_decide_false (t = t0)) by done.
    rewrite (bool_decide_false (t0 = t)) by done. by exists sent.
Qed.

(** A receive or a reconnect on any socket. *)
Lemma one_request_cleared (t : SocketType) (e : Effect) (x : Socket) (b : bool) st :
  e = Sock_receive t ∨ e = Sock_communicate t →
  one_request_at_a_time st →
  one_request_at_a_time
    (mkState (if b then set_sockets (sockets_set t x (sockets (agent st))) (agent st)
              else agent st)
       (emit e (host st))).
Proof.
  intros He Hst t0 Ht0. destruct (Hst t0 Ht0) as (sent & Hsent & Hout).
  simpl. rewrite in_flight_snoc, Hsent.
  destruct (decide (t0 = t)) as [->|Hne].
  - exists false. split; [|done].
    destruct He as [-> | ->]; simpl; by rewrite bool_decide_true.
  - exists sent. split.
    + destruct He as [-> | ->]; simpl; by rewrite bool_decide_false.
    + intros Hs. destruct b; simpl; [|by apply Hout].
      rewrite sockets_get_set, bool_decide_false by done. by apply Hout.
Qed.

Lemma one_request_requested (m : Message) (t : SocketType) st :
  one_request_at_a_time st → one_request_at_a_time (requested m t st).
Proof.
  intros Hst. unfold requested.
  destruct (request_outstanding (sockets_get t (sockets (agent st)))) eqn:Hout.
  - destruct (bool_decide (t = TYPE_EP_REQ));
      (apply (one_request_frame st _ []); [done|by rewrite app_nil_r|done|done]).
  - by apply one_request_sent.
Qed.

Lemma keeps_send_request (m : Message) (t : SocketType) :
  keeps one_request_at_a_time (send_request m t).
Proof.
  intros st Hst. destruct (decide (t ∈ REQUEST_TYPES)) as [Ht|Ht].
  - eapply wlp_of_eq; [by apply send_request_eq|]. by apply one_request_requested.
  - unfold wlp, send_request. by rewrite (bool_decide_false _ Ht).
Qed.

Lemma keeps_sock_send_rep (m : Message) :
  keeps one_request_at_a_time (sock_send TYPE_EP_REP m).
Proof.
  intros st Hst. eapply wlp_of_eq; [apply sock_send_rep_eq|].
  apply (one_request_frame st _ [Send TYPE_EP_REP m]); try done.
  constructor; [|done]. apply off_request_sockets_other.
  unfold REQUEST_TYPES. set_solver.
Qed.

Lemma keeps_log (l : LogLevel) : keeps one_request_at_a_time (log l).
Proof. by apply keeps_emit, off_request_sockets_other. Qed.

Lemma wlp_seq {A B} (P : State → Prop) (m : M A) (k : A → M B)
    (Q : B → State → Prop) st :
  keeps P m → P st → (∀ a s, P s → wlp (k a) Q s) → wlp (bind m k) Q st.
Proof.
  intros Hm Hst Hk. apply wlp_bind. specialize (Hm st Hst).
  unfold wlp in *. destruct (m st) as [[a st']|]; [by apply Hk|done].
Qed.

Lemma wlp_gets {A} (f : FelixAgent → A) (Q : A → State → Prop) st :
  Q (f (agent st)) st → wlp (gets f) Q st.
Proof. done. Qed.

Lemma wlp_then {A B} (P : State → Prop) (m : M A) (k : A → M B)
    (Q : B → State → Prop) st :
  wlp m (λ _, P) st → (∀ a s, P s → wlp (k a) Q s) → wlp (bind m k) Q st.
Proof.
  intros Hm Hk. apply wlp_bind.
  unfold wlp in *. destruct (m st) as [[a st']|]; [by apply Hk|done].
Qed.

Ltac keeps_step :=
  first
    [ apply keeps_ret | apply keeps_raise | apply keeps_gets | apply keeps_hgets
    | apply keeps_field | apply keeps_encode_ascii | apply keeps_iterate
    | apply keeps_log | apply keeps_send_request | apply keeps_sock_send_rep
    | apply keeps_bind; [|intros ?]
    | apply keeps_when
    | apply keeps_for_each; intros ?
    | apply keeps_modify_quiet; done
    | apply keeps_hmodify_quiet; done
    | apply keeps_emit, off_request_sockets_other; done
    | match goal with |- keeps _ (match ?x with _ => _ end) => destruct x end ].

Lemma keeps_complete_endpoint_resync (successful : bool) :
  keeps one_request_at_a_time (complete_endpoint_resync successful).
Proof.
  unfold complete_endpoint_resync, time_time, futils_list_eps_with_rules,
    futils_del_rules, ep_remove.
  repeat keeps_step.
Qed.

Lemma keeps__create_endpoint (endpoint_suffix : string → string) id mac :
  keeps one_request_at_a_time (_create_endpoint endpoint_suffix id mac).
Proof.
  unfold _create_endpoint, zmq_subscribe, time_time. repeat keeps_step.
Qed.

Lemma keeps__update_endpoint id f :
  keeps one_request_at_a_time (_update_endpoint id f).
Proof.
  unfold _update_endpoint, ep_program_endpoint. repeat keeps_step.
Qed.

Lemma keeps_handle_endpointcreated (endpoint_suffix : string → string) message :
  keeps one_request_at_a_time (handle_endpointcreated endpoint_suffix message).
Proof.
  unfold handle_endpointcreated.
  repeat first [ apply keeps__create_endpoint | apply keeps__update_endpoint
               | apply keeps_complete_endpoint_resync | keeps_step ].
Qed.

Lemma keeps_handle_endpointupdated message :
  keeps one_request_at_a_time (handle_endpointupdated message).
Proof.
  unfold handle_endpointupdated.
  repeat first [ apply keeps__update_endpoint | keeps_step ].
Qed.

Lemma keeps_handle_endpointdestroyed message :
  keeps one_request_at_a_time (handle_endpointdestroyed message).
Proof.
  unfold handle_endpointdestroyed, zmq_unsubscribe, ep_remove. repeat keeps_step.
Qed.

Lemma keeps_handle_resyncstate message :
  keeps one_request_at_a_time (handle_resyncstate message).
Proof.
  unfold handle_resyncstate.
  repeat first [ apply keeps_complete_endpoint_resync | keeps_step ].
Qed.

Lemma keeps_handle_getaclstate message :
  keeps one_request_at_a_time (handle_getaclstate message).
Proof. unfold handle_getaclstate. repeat keeps_step. Qed.

Lemma keeps_handle_aclupdate message :
  keeps one_request_at_a_time (handle_aclupdate message).
Proof. unfold handle_aclupdate, ep_update_acls. repeat keeps_step. Qed.

Lemma keeps_dispatch (endpoint_suffix : string → string) message :
  keeps one_request_at_a_time (dispatch endpoint_suffix message).
Proof.
  unfold dispatch. destruct (type message); cbn [handlers].
  - apply keeps_sock_send_rep.
  - apply keeps_handle_endpointcreated.
  - apply keeps_handle_endpointupdated.
  - apply keeps_handle_endpointdestroyed.
  - apply keeps_handle_resyncstate.
  - apply keeps_handle_getaclstate.
  - apply keeps_handle_aclupdate.
  - apply keeps_raise.
Qed.

Lemma keeps_sock_receive (t : SocketType) (arrived : option Message) :
  keeps one_request_at_a_time (sock_receive t arrived).
Proof.
  intros st Hst. eapply wlp_of_eq; [apply sock_receive_eq|].
  unfold received.
  destruct (bool_decide (t ∈ REQUEST_TYPES) && bool_decide (is_Some arrived)).
  - by apply (one_request_cleared t (Sock_receive t) (mkSocket false) true st); [left|].
  - by apply (one_request_cleared t (Sock_receive t) (mkSocket false) false st); [left|].
Qed.

Lemma keeps_sock_communicate (t : SocketType) :
  keeps one_request_at_a_time (sock_communicate t).
Proof.
  intros st Hst. unfold wlp, sock_communicate, bind, hmodify, modify. simpl.
  by apply (one_request_cleared t (Sock_communicate t) (mkSocket false) true st); [right|].
Qed.

Lemma keeps_resync_endpoints : keeps one_request_at_a_time resync_endpoints.
Proof.
  unfold resync_endpoints, uuid_uuid4, time_time. repeat keeps_step.
Qed.

Lemma keeps_resync_acls (iteritems : gmap string Endpoint → list (string * Endpoint)) :
  keeps one_request_at_a_time (resync_acls iteritems).
Proof. unfold resync_acls, time_time. repeat keeps_step. Qed.

(** The loop sends a queued message only on an idle socket. *)
Lemma one_request_drained (t : SocketType) (q : list Message)
    (set_queue : list Message → FelixAgent → FelixAgent) st :
  t ∈ REQUEST_TYPES →
  (∀ rest a, sockets (set_queue rest a) = sockets a) →
  one_request_at_a_time st →
  wlp match pop q with
      | Some (message, rest) =>
          when (negb (request_outstanding (sockets_get t (sockets (agent st)))))
            (modify (set_queue rest) ;; sock_send t message)
      | None => ret tt
      end (λ _, one_request_at_a_time) st.
Proof.
  intros Ht Hset Hst. destruct (pop q) as [[message rest]|]; [|done].
  destruct (request_outstanding (sockets_get t (sockets (agent st)))) eqn:Hidle; [done|].
  unfold wlp, when, negb, bind, modify, sock_send, bind, hmodify, when.
  rewrite (bool_decide_true _ Ht). simpl.
  apply (one_request_sent t message
           (mkState (set_queue rest (agent st)) (host st))).
  - simpl. by rewrite Hset.
  - apply (one_request_frame st _ []); try done; simpl; [apply Hset|by rewrite app_nil_r].
Qed.

Lemma keeps_run_iteration (endpoint_suffix : string → string) (RESYNC_INT_SEC : Q)
    (p : Poll) :
  keeps one_request_at_a_time (run_iteration endpoint_suffix RESYNC_INT_SEC p).
Proof.
  intros st Hst. unfold run_iteration.
  apply (wlp_seq one_request_at_a_time); [by apply keeps_hmodify_quiet|done|].
  intros _ s1 Hs1.
  apply (wlp_seq one_request_at_a_time); [|done|].
  { apply keeps_for_each. intros sock. apply keeps_bind; [apply keeps_sock_receive|].
    intros [m|]; [apply keeps_dispatch|apply keeps_ret]. }
  intros _ s2 Hs2.
  apply (wlp_seq one_request_at_a_time); [|done|].
  { apply keeps_for_each. intros t. apply keeps_when.
    repeat first [ apply keeps_sock_communicate | keeps_step ]. }
  intros _ s3 Hs3. cbv zeta.
  apply wlp_bind, wlp_gets, wlp_bind, wlp_gets.
  apply (wlp_then one_request_at_a_time).
  { apply (one_request_drained TYPE_EP_REQ _ set_endpoint_queue);
      [unfold REQUEST_TYPES; set_solver|done|done]. }
  intros _ s4 Hs4.
  apply wlp_bind, wlp_gets, wlp_bind, wlp_gets.
  apply (wlp_then one_request_at_a_time).
  { apply (one_request_drained TYPE_ACL_REQ _ set_acl_queue);
      [unfold REQUEST_TYPES; set_solver|done|done]. }
  intros _ s5 Hs5.
  apply wlp_bind, wlp_gets.
  apply (wlp_seq one_request_at_a_time); [|done|].
  { unfold time_time. repeat keeps_step. }
  intros due s6 Hs6.
  destruct (_ || due); [by apply keeps_resync_endpoints|].
  destruct (existsb _ _); [by apply keeps_resync_acls|done].
Qed.

Lemma keeps_run (endpoint_suffix : string → string) (RESYNC_INT_SEC : Q)
    (polls : list Poll) :
  keeps one_request_at_a_time (run endpoint_suffix RESYNC_INT_SEC polls).
Proof.
  unfold run, initialise, read_programmed_state, futils_set_global_rules.
  apply keeps_bind; [by apply keeps_emit, off_request_sockets_other|].
  intros _. apply keeps_for_each. intros p. apply keeps_run_iteration.
Qed.

Lemma keeps_connect :
  keeps one_request_at_a_time (connect_to_plugin ;; connect_to_acl_manager ;; resync_endpoints).
Proof.
  unfold connect_to_plugin, connect_to_acl_manager.
  apply keeps_bind; [apply keeps_for_each; intros t; apply keeps_sock_communicate|].
  intros _.
  apply keeps_bind; [apply keeps_for_each; intros t; apply keeps_sock_communicate|].
  intros _. apply keeps_resync_endpoints.
Qed.

(** X11: from its start on a host where nothing has been called yet, the
    agent never sends twice on a request socket without a receive or a
    reconnect on that socket in between, and a request socket whose last call
    was a send has [request_outstanding] set, whatever messages arrive. *)
Theorem one_request_in_flight (endpoint_suffix : string → string)
    (RESYNC_INT_SEC : Q) (name : string) (polls : list Poll) (h : Host) (st' : State)
    (Hfresh : effects h = [])
    (Hreturns : main endpoint_suffix RESYNC_INT_SEC name polls h = Ok (tt, st')) :
  one_request_at_a_time st'.
Proof.
  assert (one_request_at_a_time (mkState (blank_agent name) (emit (Log ERROR) h)))
    as Hblank.
  { intros t Ht. exists false. simpl. by rewrite Hfresh. }
  pose proof (keeps_connect _ Hblank) as Hinit.
  revert Hinit Hreturns. unfold main, FelixAgent_init, wlp.
  destruct ((connect_to_plugin ;; connect_to_acl_manager ;; resync_endpoints)
              (mkState (blank_agent name) (emit (Log ERROR) h))) as [[[] st0]|]; [|done].
  intros Hinit Hreturns.
  exact (wlp_returns _ _ st0 tt st'
           (keeps_run endpoint_suffix RESYNC_INT_SEC polls st0 Hinit) Hreturns).
Qed.

Lemma one_request_in_flight_witness :
  ∃ st', main fixture_suffix 1800 "host1"
           [one_message 1415000001 TYPE_EP_REP (ENDPOINTCREATED "e1" (VStr (uuid4_str 0)));
            one_message 1415000002 TYPE_EP_REQ (RESYNC_reply "SUCCESS" 2)]
           (fresh_host []) = Ok (tt, st') ∧
    one_request_at_a_time st' ∧
    in_flight TYPE_EP_REQ (effects (host st')) = Some false ∧
    in_flight TYPE_ACL_REQ (effects (host st')) = Some true.
Proof.
  assert (∃ st', main fixture_suffix 1800 "host1"
           [one_message 1415000001 TYPE_EP_REP (ENDPOINTCREATED "e1" (VStr (uuid4_str 0)));
            one_message 1415000002 TYPE_EP_REQ (RESYNC_reply "SUCCESS" 2)]
           (fresh_host []) = Ok (tt, st')) as [st' Hret].
  { eexists. vm_compute. reflexivity. }
  exists st'. split; [exact Hret|]. split.
  - exact (one_request_in_flight fixture_suffix 1800 "host1" _ (fresh_host []) st'
             eq_refl Hret).
  - vm_compute in Hret. injection Hret as <-. split; vm_compute; reflexivity.
Defined.

(** ** The periodic check *)

Lemma Qgtb_spec (x y : Q) : Qgtb x y = true ↔ (y < x)%Q.
Proof.
  unfold Qgtb. rewrite negb_true_iff. split.
  - intros Hle. apply Qnot_le_lt. intros H. apply Qle_bool_iff in H. congruence.
  - intros Hlt. destruct (Qle_bool x y) eqn:Hle; [|done].
    apply Qle_bool_iff in Hle. by apply Qlt_not_le in Hlt.
Qed.

Lemma Qminus_nonpos (x y : Q) : (x <= y)%Q → (x - y <= 0)%Q.
Proof.
  intros Hle. unfold Qminus.
  apply Qle_trans with (y + - y)%Q.
  - apply Qplus_le_compat; [exact Hle|apply Qle_refl].
  - rewrite Qplus_opp_r. apply Qle_refl.
Qed.

(** X12: the periodic check counts from a time stamp in milliseconds: after
    a completion at wall-clock time [t0], an iteration with nothing to read
    and no timeout at a wall-clock time of up to [1000 * t0] seconds starts
    no resync and does nothing else, whatever the interval, if it is not
    negative.  The statement
    does not turn on how the float operations round: rounding is monotone,
    so the difference that the code computes is not positive either. *)
Theorem periodic_resync_waits_for_stamp (endpoint_suffix : string → string)
    (RESYNC_INT_SEC : Q) (successful : bool) (now : Q) (st st1 : State)
    (Hcompleted : returns (complete_endpoint_resync successful) st st1)
    (Hendpoint_queue : endpoint_queue (agent st) = [])
    (Hacl_queue : acl_queue (agent st) = [])
    (Hinterval : (0 <= RESYNC_INT_SEC)%Q)
    (Hnow : (now <= clock (host st) * 1000)%Q) :
  returns (run_iteration endpoint_suffix RESYNC_INT_SEC (quiet now)) st1 (at_time now st1) ∧
  resync_id (agent (at_time now st1)) = None.
Proof.
  unfold returns.
  rewrite (periodic_check_after_completion endpoint_suffix RESYNC_INT_SEC successful now st st1)
    by done.
  destruct (Qgtb (now - clock (host st) * 1000) RESYNC_INT_SEC) eqn:Hdue.
  - apply Qgtb_spec in Hdue. exfalso.
    apply (Qlt_not_le _ _ Hdue). apply Qle_trans with 0%Q; [|done].
    by apply Qminus_nonpos.
  - split; [done|].
    unfold returns in Hcompleted. rewrite complete_endpoint_resync_eq in Hcompleted.
    by injection Hcompleted as <-.
Qed.

Lemma periodic_resync_waits_for_stamp_witness :
  ∃ st1,
    returns (complete_endpoint_resync true) st_stale_rules st1 ∧
    returns (run_iteration fixture_suffix 1800 (quiet (1415000000 + 3600))) st1
      (at_time (1415000000 + 3600) st1) ∧
    resync_id (agent st1) = None.
Proof.
  assert (∃ st1, returns (complete_endpoint_resync true) st_stale_rules st1) as [st1 H1].
  { eexists. vm_compute. reflexivity. }
  destruct (periodic_resync_waits_for_stamp fixture_suffix 1800 true (1415000000 + 3600)
              st_stale_rules st1 H1 eq_refl eq_refl) as (H2 & Hid).
  - vm_compute. discriminate.
  - vm_compute. discriminate.
  - exists st1. split; [exact H1|]. split; [exact H2|exact Hid].
Defined.

(** ** What the other messages leave alone *)

Lemma keeps_modify (P : State → Prop) (f : FelixAgent → FelixAgent) :
  (∀ st, P st → P (mkState (f (agent st)) (host st))) → keeps P (modify f).
Proof. intros Hf st Hst. by apply Hf. Qed.

Lemma keeps_hmodify (P : State → Prop) (g : Host → Host) :
  (∀ st, P st → P (mkState (agent st) (g (host st)))) → keeps P (hmodify g).
Proof. intros Hg st Hst. by apply Hg. Qed.

Lemma same_bookkeeping_refl a : same_bookkeeping a a.
Proof. repeat split; try done. intros id ep' H. by exists ep'. Qed.

Lemma same_bookkeeping_alter (f : Endpoint → Endpoint) (id : string) a0 a :
  (∀ ep, pending_resync (f ep) = pending_resync ep ∧ need_acls (f ep) = need_acls ep) →
  same_bookkeeping a0 a →
  same_bookkeeping a0 (set_endpoints (alter f id (endpoints a)) a).
Proof.
  intros Hf (Hr & He & Hq & Hq' & Hs & Heps). repeat split; try apply Hr; try done.
  intros i ep'. simpl. destruct (decide (i = id)) as [->|Hne].
  - rewrite lookup_alter_eq. destruct (endpoints a !! id) as [ep|] eqn:Hep; [|done].
    intros [= <-]. destruct (Heps id ep Hep) as (ep0 & H0 & Hp & Hn).
    exists ep0. destruct (Hf ep) as [-> ->]. done.
  - rewrite lookup_alter_ne by done. apply Heps.
Qed.

Lemma same_bookkeeping_delete (id : string) a0 a :
  same_bookkeeping a0 a →
  same_bookkeeping a0 (set_endpoints (delete id (endpoints a)) a).
Proof.
  intros (Hr & He & Hq & Hq' & Hs & Heps). repeat split; try apply Hr; try done.
  intros i ep'. simpl. intros Hlook. apply lookup_delete_Some in Hlook as [_ Hlook].
  by apply Heps.
Qed.

Ltac frame_step :=
  first
    [ apply keeps_ret | apply keeps_raise | apply keeps_gets | apply keeps_hgets
    | apply keeps_field | apply keeps_encode_ascii | apply keeps_iterate
    | apply keeps_bind; [|intros ?]
    | apply keeps_when
    | apply keeps_hmodify; intros ? ?; assumption
    | apply keeps_modify; intros ? ?; first
        [ by apply same_bookkeeping_alter | by apply same_bookkeeping_delete ]
    | match goal with |- keeps _ (match ?x with _ => _ end) => destruct x end ].

Lemma frame_sock_send_rep a0 (m : Message) :
  keeps (λ s, same_bookkeeping a0 (agent s)) (sock_send TYPE_EP_REP m).
Proof.
  apply (keeps_of_eq _ _ (λ st, (tt, mkState (agent st) (emit (Send TYPE_EP_REP m) (host st))))).
  - apply sock_send_rep_eq.
  - by intros st Hst.
Qed.

Lemma frame__update_endpoint a0 id f :
  keeps (λ s, same_bookkeeping a0 (agent s)) (_update_endpoint id f).
Proof. unfold _update_endpoint, ep_program_endpoint. repeat frame_step. Qed.

Lemma frame_dispatch (endpoint_suffix : string → string) (message : Message) a0 :
  type message ≠ TYPE_EP_CR → type message ≠ TYPE_RESYNC →
  keeps (λ s, same_bookkeeping a0 (agent s)) (dispatch endpoint_suffix message).
Proof.
  intros Hcreated Hresync. unfold dispatch.
  destruct (type message); cbn [handlers]; try done.
  - apply frame_sock_send_rep.
  - unfold handle_endpointupdated.
    repeat first [ apply frame__update_endpoint | apply frame_sock_send_rep | frame_step ].
  - unfold handle_endpointdestroyed, zmq_unsubscribe, ep_remove, log. repeat frame_step.
  - unfold handle_getaclstate, log. repeat frame_step.
  - unfold handle_aclupdate, ep_update_acls. repeat frame_step.
Qed.

(** X13: only ENDPOINTCREATED and RESYNCSTATE move a resync on: the handler
    of a message of any other type leaves the resync attributes, both request
    queues and the sockets as they were, and adds no endpoint and changes
    neither [pending_resync] nor [need_acls] of one. *)
Theorem other_messages_keep_resync (endpoint_suffix : string → string)
    (message : Message) (st st' : State)
    (Hcreated : type message ≠ TYPE_EP_CR)
    (Hresync : type message ≠ TYPE_RESYNC)
    (Hreturns : returns (dispatch endpoint_suffix message) st st') :
  same_bookkeeping (agent st) (agent st').
Proof.
  exact (wlp_returns _ _ st tt st'
           (frame_dispatch endpoint_suffix message (agent st) Hcreated Hresync st
              (same_bookkeeping_refl (agent st)))
           Hreturns).
Qed.

Lemma other_messages_keep_resync_witness :
  ∃ st', returns (dispatch fixture_suffix (ENDPOINTUPDATED "e1")) st_prune st' ∧
    same_bookkeeping (agent st_prune) (agent st').
Proof.
  assert (∃ st', returns (dispatch fixture_suffix (ENDPOINTUPDATED "e1")) st_prune st')
    as [st' Hret].
  { eexists. vm_compute. reflexivity. }
  exists st'. split; [exact Hret|].
  apply (other_messages_keep_resync fixture_suffix (ENDPOINTUPDATED "e1") st_prune st');
    [discriminate|discriminate|exact Hret].
Defined.

(** ** A repeated ENDPOINTDESTROYED *)

(** X14: an ENDPOINTDESTROYED for an endpoint of the registry unsubscribes
    and removes it, once: the same message again finds the identifier absent
    and only logs an error. *)
Theorem destroy_twice (message : Message) (id : string) (issued : value)
    (endpoint : Endpoint) (st : State)
    (Hid : fields message !! "endpoint_id" = Some (VStr id))
    (Hissued : fields message !! "issued" = Some issued)
    (Hknown : endpoints (agent st) !! id = Some endpoint) :
  ∃ st1, returns (handle_endpointdestroyed message) st st1 ∧
    effects (host st1)
    = effects (host st) ++ [UNSUBSCRIBE id; Ep_remove (ep_id endpoint)] ∧
    endpoints (agent st1) !! id = None ∧
    returns (handle_endpointdestroyed message) st1 (logged ERROR st1).
Proof.
  exists (destroyed id endpoint st).
  split; [by apply (handle_endpointdestroyed_eq message id issued)|].
  split; [unfold destroyed; simpl; by rewrite <- app_assoc|].
  assert (endpoints (agent (destroyed id endpoint st)) !! id = None) as Habsent.
  { unfold destroyed. simpl. apply lookup_delete_eq. }
  split; [done|].
  destruct (handle_endpointdestroyed_ok message (VStr id) issued (destroyed id endpoint st))
    as (st2 & Hret & _ & Hlogged); [done..|].
  by rewrite <- (Hlogged Habsent).
Qed.

Lemma destroy_twice_witness :
  ∃ st1, returns (handle_endpointdestroyed (ENDPOINTDESTROYED "e1")) st_prune st1 ∧
    returns (handle_endpointdestroyed (ENDPOINTDESTROYED "e1")) st1 (logged ERROR st1).
Proof.
  destruct (destroy_twice (ENDPOINTDESTROYED "e1") "e1" (VFloat 1415000000000%Q)
              (fixture_endpoint "e1" false) st_prune)
    as (st1 & H1 & _ & _ & H2).
  - reflexivity.
  - reflexivity.
  - vm_compute. reflexivity.
  - exists st1. split; [exact H1|exact H2].
Defined.

(** ** A timeout on the ACL API *)

Lemma acl_requested_same_resync (l : list (string * Endpoint)) s :
  same_resync (agent s) (agent (foldl acl_requested s l)).
Proof.
  revert s. induction l as [|item l IH]; intros s; simpl; [done|].
  destruct (IH (acl_requested s item)) as (H1 & H2 & H3).
  unfold same_resync. rewrite H1, H2, H3.
  unfold acl_requested, requested. simpl.
  by destruct (request_outstanding (acl_req (sockets (agent s)))).
Qed.

Lemma timed_out_acl_sockets (p : Poll) (t : SocketType) :
  t ∈ timed_out p → (∀ t', t' ∈ timed_out p → t' ∉ EP_TYPES) →
  existsb (λ t, bool_decide (t ∈ timed_out p) && bool_decide (t ∈ EP_TYPES)) all_sockets
  = false ∧
  existsb (λ t, bool_decide (t ∈ timed_out p) && negb (bool_decide (t ∈ EP_TYPES)))
    all_sockets = true.
Proof.
  intros Ht Hacl. split.
  - apply not_true_is_false. intros Hex. apply existsb_exists in Hex as (t' & _ & Hboth).
    apply andb_true_iff in Hboth as [H1 H2].
    apply bool_decide_eq_true in H1, H2. by apply (Hacl t').
  - apply existsb_exists. exists t. split.
    + apply list_elem_of_In. unfold all_sockets. destruct t; set_solver.
    + rewrite bool_decide_true by done. rewrite bool_decide_false; [done|by apply Hacl].
Qed.

(** X15: when only sockets of the ACL API have timed out while an endpoint
    resync is in progress, the iteration that notices it resynchronises the
    ACLs and leaves the endpoint resync alone: [resync_id], [resync_recd] and
    [resync_time] stay, no endpoint is added or dropped, and every endpoint
    is marked as needing its ACLs. *)
Theorem acl_socket_timeout_resyncs_acls (endpoint_suffix : string → string)
    (RESYNC_INT_SEC : Q) (p : Poll) (t : SocketType) (r : string) (st : State)
    (Hactive : resync_id (agent st) = Some r)
    (Hquiet : active_sockets p = [])
    (Htimed_out : t ∈ timed_out p)
    (Hacl : ∀ t', t' ∈ timed_out p → t' ∉ EP_TYPES) :
  ∃ st', returns (run_iteration endpoint_suffix RESYNC_INT_SEC p) st st' ∧
    same_resync (agent st) (agent st') ∧
    endpoints (agent st') = set_need_acls true <$> endpoints (agent st).
Proof.
  apply (wp_returns _ (λ _ st',
    same_resync (agent st) (agent st') ∧
    endpoints (agent st') = set_need_acls true <$> endpoints (agent st))).
  unfold run_iteration. rewrite Hquiet.
  apply wp_bind, wp_hmodify.
  set (st0 := mkState (agent st) (set_clock (poll_time p) (host st))).
  assert (untouched st0 st0) as H0 by done.
  apply wp_bind, wp_ret.
  apply wp_bind. apply (wp_mono _ (λ _, untouched st0)).
  2:{ apply wp_for_each; [|done]. intros t' s Hs.
      apply wp_when; intros _; [|done]. by apply untouched_timed_out. }
  intros _ s2 Hs2. cbv zeta.
  apply wp_bind, wp_gets, wp_bind, wp_gets, wp_bind.
  apply (wp_mono _ (λ _, untouched st0)); [|by apply untouched_drain].
  intros _ s3 Hs3.
  apply wp_bind, wp_gets, wp_bind, wp_gets, wp_bind.
  apply (wp_mono _ (λ _, untouched st0)); [|by apply untouched_drain].
  intros _ s4 Hs4.
  apply wp_bind, wp_gets, wp_bind.
  apply (wp_mono _ (λ due s, due = false ∧ s = s4)).
  2:{ destruct Hs4 as ((Hid & _) & _). simpl in Hid. rewrite Hid, Hactive. done. }
  intros due s [-> ->].
  destruct (timed_out_acl_sockets p t Htimed_out Hacl) as [-> ->]. simpl.
  eapply wp_of_eq; [apply resync_acls_eq|].
  destruct Hs4 as ((Hid & Hrecd & Htime) & Heps & _ & Hdraws & _). simpl in *.
  split.
  - match goal with |- context [foldl acl_requested ?s1 ?l] =>
      destruct (acl_requested_same_resync l s1) as (G1 & G2 & G3) end.
    simpl in *. unfold same_resync. by rewrite G1, G2, G3.
  - rewrite acl_requested_endpoints. simpl. rewrite alter_all_fmap. by rewrite Heps.
Qed.

Lemma acl_socket_timeout_resyncs_acls_witness :
  ∃ st', returns (run_iteration fixture_suffix 1800 (mkPoll 1415000001 [] [TYPE_ACL_REQ]))
           st_prune st' ∧
    resync_id (agent st') = Some "R1" ∧
    endpoints (agent st') = set_need_acls true <$> endpoints (agent st_prune).
Proof.
  destruct (acl_socket_timeout_resyncs_acls fixture_suffix 1800
              (mkPoll 1415000001 [] [TYPE_ACL_REQ]) TYPE_ACL_REQ "R1" st_prune)
    as (st' & Hret & (Hid & _) & Heps).
  - reflexivity.
  - reflexivity.
  - apply (bool_decide_unpack _). vm_compute. exact I.
  - intros t' Ht'. simpl in Ht'. apply list_elem_of_singleton in Ht' as ->.
    apply (bool_decide_unpack _). vm_compute. exact I.
  - exists st'. split; [exact Hret|]. split; [exact Hid|exact Heps].
Defined.

(** ** The start of the agent *)

(** X16: [__init__] connects the four sockets, the endpoint API first, and
    then sends the first RESYNCSTATE request at once: the sockets are new, so
    the request is never queued.  The agent starts with an empty registry,
    empty queues, a resync in progress and no [resync_time]. *)
Theorem init_sends_first_resync (name : string) (h : Host) :
  let rid := uuid4_str (uuid_draws h) in
  ∃ st, FelixAgent_init name h = Ok (tt, st) ∧
    effects (host st)
    = effects h ++ [Sock_communicate TYPE_EP_REQ; Sock_communicate TYPE_EP_REP;
                    Sock_communicate TYPE_ACL_REQ; Sock_communicate TYPE_ACL_SUB;
                    Send TYPE_EP_REQ (RESYNC_request rid (clock h) name)] ∧
    request_outstanding (ep_req (sockets (agent st))) = true ∧
    request_outstanding (acl_req (sockets (agent st))) = false ∧
    endpoint_queue (agent st) = [] ∧
    acl_queue (agent st) = [] ∧
    endpoints (agent st) = ∅ ∧
    resync_id (agent st) = Some rid ∧
    resync_recd (agent st) = Some 0 ∧
    resync_time (agent st) = None.
Proof.
  intros rid.
  unfold FelixAgent_init, connect_to_plugin, connect_to_acl_manager.
  unfold bind at 1. simpl. unfold bind at 1. simpl.
  rewrite resync_endpoints_eq. eexists. split; [reflexivity|].
  unfold started, requested. simpl. rewrite <- !app_assoc. simpl.
  repeat split; reflexivity.
Qed.
